(** * BookStack library organizer: classifier, resilient client and sweeps

    A shallow embedding of [setup/organize-library.py] and of
    [setup/organize-inbox.py] (chapters by name, page moves and the driving
    loop), with the properties of the classifier ([best_chapter_for_page]),
    of the retrying client ([BookStackApi.request]), of the reconciliation
    steps (holding book, direct pages, empty-chapter sweep, junk-page
    detector, page move) and of the settings file.

    Conventions of the embedding:
    - a Python [str] is a [string]; the character classes used by [str.strip],
      [str.split], [str.lower] and by the regular expressions ([\s], [\d],
      [\b], [a-z0-9]) are the ones Python has on ASCII text;
    - a Python [int] is a [Z]; a [Set[str]] is a [gset string];
    - a decoded JSON value is a [json] tree (numbers are integers);
    - code that talks to the remote store runs in the monad [M]: it threads
      the state of the remote world, may raise, and keeps a log of the API
      calls made and of what went over the wire. *)

From Stdlib Require Import Ascii String ZArith DecimalString DecimalZ DecimalPos Lia.
From stdpp Require Import gmap strings list sorting.

Open Scope string_scope.
Open Scope list_scope.
Open Scope Z_scope.

(** ** Characters and strings, as Python sees them on ASCII text *)

Module Py.

Definition code (c : ascii) : N := N_of_ascii c.

Definition in_range (lo hi : N) (c : ascii) : bool :=
  ((lo <=? code c) && (code c <=? hi))%N.

(** [str.isspace] and the regex class [\s]: TAB, LF, VT, FF, CR, the four
    separators FS, GS, RS, US, and the space. *)
Definition isspace (c : ascii) : bool := in_range 9 13 c || in_range 28 32 c.

(** The regex class [\d]. *)
Definition isdigit (c : ascii) : bool := in_range 48 57 c.

Definition isupper (c : ascii) : bool := in_range 65 90 c.
Definition islower (c : ascii) : bool := in_range 97 122 c.

(** The regex class [\w], which decides the word boundary [\b]. *)
Definition isword (c : ascii) : bool :=
  isdigit c || isupper c || islower c || Ascii.eqb c "_".

(** The regex class [[a-z0-9]]. *)
Definition is_az09 (c : ascii) : bool := islower c || isdigit c.

Definition lower_char (c : ascii) : ascii :=
  if isupper c then ascii_of_N (code c + 32) else c.

(** [s.lower()] *)
Fixpoint lower (s : string) : string :=
  match s with
  | EmptyString => EmptyString
  | String c s' => String (lower_char c) (lower s')
  end.

(** [s.lstrip()] *)
Fixpoint lstrip (s : string) : string :=
  match s with
  | EmptyString => EmptyString
  | String c s' => if isspace c then lstrip s' else s
  end.

(** [s.rstrip()] *)
Fixpoint rstrip (s : string) : string :=
  match s with
  | EmptyString => EmptyString
  | String c s' =>
      match rstrip s' with
      | EmptyString => if isspace c then EmptyString else String c EmptyString
      | r => String c r
      end
  end.

(** [s.strip()] *)
Definition strip (s : string) : string := rstrip (lstrip s).

(** [s.split()]: the maximal runs of non-blank characters, in order.
    [w] is the word being read. *)
Fixpoint split_from (w : string) (s : string) : list string :=
  match s with
  | EmptyString => if String.eqb w "" then [] else [w]
  | String c s' =>
      if isspace c
      then (if String.eqb w "" then split_from "" s' else w :: split_from "" s')
      else split_from (w +:+ String c "") s'
  end.

Definition split (s : string) : list string := split_from "" s.

(** [p] is a prefix of [s]: what follows it. *)
Fixpoint drop_prefix (p s : string) : option string :=
  match p, s with
  | EmptyString, _ => Some s
  | String a p', String b s' => if Ascii.eqb a b then drop_prefix p' s' else None
  | String _ _, EmptyString => None
  end.

(** [s[:n]] *)
Definition take (n : nat) (s : string) : string := String.substring 0 n s.

(** [s[n:]] *)
Fixpoint drop (n : nat) (s : string) : string :=
  match n, s with
  | O, _ => s
  | S n', String _ s' => drop n' s'
  | S _, EmptyString => EmptyString
  end.

(** [str(n)], and an integer field of an f-string. *)
Definition str_of_int (n : Z) : string := NilZero.string_of_int (Z.to_int n).

(** Truth value of a string in a condition. *)
Definition truthy_str (s : string) : bool := negb (String.eqb s "").

End Py.

(** ** The regular-expression substitutions of the source

    [re.sub(pattern, repl, s)] replaces the leftmost non-overlapping matches.
    Each pattern of the source is given by its matcher: the length of the
    match that starts at the head of the text, if there is one. No pattern
    of the source matches the empty string. *)

Module Re.

(** [skip] counts the characters of the current match still to be dropped. *)
Fixpoint sub_with (match_len : string → option nat) (repl : string)
    (skip : nat) (s : string) : string :=
  match s with
  | EmptyString => EmptyString
  | String c s' =>
      match skip with
      | S k => sub_with match_len repl k s'
      | O =>
          match match_len s with
          | Some n => repl +:+ sub_with match_len repl (Nat.pred n) s'
          | None => String c (sub_with match_len repl O s')
          end
      end
  end.

Definition sub (match_len : string → option nat) (repl s : string) : string :=
  sub_with match_len repl O s.

(** Length of the longest prefix made of characters of the class. *)
Fixpoint run_length (cls : ascii → bool) (s : string) : nat :=
  match s with
  | EmptyString => O
  | String c s' => if cls c then S (run_length cls s') else O
  end.

(** A pattern [C+] for a character class C: greedy, at least one. *)
Definition plus_class (cls : ascii → bool) (s : string) : option nat :=
  match run_length cls s with
  | O => None
  | n => Some n
  end.

(** Position of the first occurrence of a character. *)
Fixpoint index_char (c : ascii) (s : string) : option nat :=
  match s with
  | EmptyString => None
  | String d s' => if Ascii.eqb c d then Some O else S <$> index_char c s'
  end.

(** [p] is a prefix of [s] up to letter case (the flag IGNORECASE). *)
Fixpoint drop_prefix_ci (p s : string) : option string :=
  match p, s with
  | EmptyString, _ => Some s
  | String a p', String b s' =>
      if Ascii.eqb (Py.lower_char a) (Py.lower_char b) then drop_prefix_ci p' s' else None
  | String _ _, EmptyString => None
  end.

(** Position of the first occurrence of [p] up to letter case. *)
Fixpoint index_ci (p : string) (s : string) : option nat :=
  match drop_prefix_ci p s with
  | Some _ => Some O
  | None =>
      match s with
      | EmptyString => None
      | String _ s' => S <$> index_ci p s'
      end
  end.

(** The pattern [<TAG[^>]*>.*?</TAG>] with the flags DOTALL and IGNORECASE:
    the opening [<TAG], anything up to the first [>], then anything
    (newlines too) up to the first closing [</TAG>]. *)
Definition element (tag : string) (s : string) : option nat :=
  let opening := "<" +:+ tag in
  let closing := "</" +:+ tag +:+ ">" in
  r1 ← drop_prefix_ci opening s;
  i ← index_char ">" r1;
  j ← index_ci closing (Py.drop (S i) r1);
  Some (String.length opening + i + 1 + j + String.length closing)%nat.

(** The pattern [<[^>]+>]: a [<], at least one character other than [>],
    and the first [>]. *)
Definition any_tag (s : string) : option nat :=
  match s with
  | String c r =>
      if Ascii.eqb c "<" then
        match index_char ">" r with
        | Some (S i) => Some (S i + 2)%nat
        | _ => None
        end
      else None
  | EmptyString => None
  end.

(** A literal, as [str.replace] looks for it. *)
Definition literal (old : string) (s : string) : option nat :=
  match Py.drop_prefix old s with
  | Some _ => Some (String.length old)
  | None => None
  end.

End Re.

(** ** The title tokenizer *)

Definition STOPWORDS : gset string :=
  {[ "a"; "an"; "and"; "are"; "as"; "at"; "be"; "but"; "by"; "for"; "from";
     "has"; "have"; "how"; "if"; "in"; "into"; "is"; "it"; "its"; "of"; "on";
     "or"; "our"; "out"; "the"; "this"; "to"; "using"; "vs"; "we"; "what";
     "when"; "where"; "why"; "with"; "you"; "your" ]}.

Definition WEAK_TOKENS : gset string :=
  {[ "overview"; "guide"; "basics"; "introduction"; "getting"; "started";
     "general"; "notes"; "reference"; "resources"; "tools"; "software";
     "training"; "development"; "project"; "projects"; "design"; "standards";
     "procedures"; "procedure"; "process"; "setup"; "library"; "archive" ]}.

(** The scan behind [re.match] of the pattern [^\s*(D)\b] on the title, where
    the group D is [\d+(?:\.\d+)*], entered after the first digit. [cur] is what the group has matched so far; [fallback]
    is the match without its last [.digits] repetition, which is what the
    matcher backtracks to when [\b] fails after the longest match (a shorter
    run of digits is never followed by a boundary, so those are the only two
    ways to stop). A dot extends the match only when a digit follows it. *)
Fixpoint prefix_scan (fallback : option string) (cur : string) (s : string)
  : option string :=
  match s with
  | EmptyString => Some cur
  | String c s' =>
      if Py.isdigit c then prefix_scan fallback (cur +:+ String c "") s'
      else if Ascii.eqb c "." then
        match s' with
        | String d s'' =>
            if Py.isdigit d
            then prefix_scan (Some cur) (cur +:+ String c (String d "")) s''
            else Some cur
        | EmptyString => Some cur
        end
      else if Py.isword c then fallback
      else Some cur
  end.

Definition extract_numeric_prefix (title : string) : option string :=
  match Py.lstrip title with
  | String c s' => if Py.isdigit c then prefix_scan None (String c "") s' else None
  | EmptyString => None
  end.

Definition tokenize (title : string) : gset string :=
  let s := Py.lower title in
  let s := Re.sub (Re.plus_class (λ c, negb (Py.is_az09 c))) " " s in
  let parts := filter (λ p : string, p ≠ "" ∧ p ∉ STOPWORDS) (Py.split s) in
  let parts := filter (λ p : string, (2 <= String.length p)%nat) parts in
  list_to_set parts.

(** ** The classifier *)

(** A candidate chapter, as [move_direct_pages] builds it:
    a dict with the keys id, name, tokens and prefix. *)
Record chapter := Chapter {
  ch_id : Z;
  ch_name : string;
  ch_tokens : gset string;
  ch_prefix : option string
}.

(** The running maximum kept by both scoring loops: [best], [best_score]
    and (in the second loop only) [best_intersection]. *)
Record best_state := Best {
  best : option chapter;
  best_score : Z;
  best_intersection : gset string
}.

Definition best_init : best_state := Best None (-1) ∅.

Definition best_step (page_toks : gset string) (st : best_state) (ch : chapter)
  : best_state :=
  let inter := page_toks ∩ ch_tokens ch in
  let score := Z.of_nat (size inter) in
  if best_score st <? score then Best (Some ch) score inter else st.

Definition best_by_overlap (page_toks : gset string) (chs : list chapter)
  : best_state :=
  fold_left (best_step page_toks) chs best_init.

(** [[ch for ch in chapters if ch.get(prefix) == page_prefix]] *)
Definition prefix_matches (page_prefix : string) (chapters : list chapter)
  : list chapter :=
  filter (λ ch, ch_prefix ch = Some page_prefix) chapters.

(** Lines 251-275: the lexical phase. *)
Definition lexical_phase (page_name : string) (chapters : list chapter)
  : option Z * string :=
  let page_toks := tokenize page_name in
  let st := best_by_overlap page_toks chapters in
  match best st with
  | None => (None, "no-match")
  | Some b =>
      if best_score st <=? 0 then (None, "no-match")
      else if 2 <=? best_score st
      then (Some (ch_id b), "overlap:" +:+ Py.str_of_int (best_score st))
      else
        let tok := match elements (best_intersection st) with
                   | t :: _ => t
                   | [] => ""
                   end in
        if Py.truthy_str tok && bool_decide (tok ∉ WEAK_TOKENS)
        then (Some (ch_id b), "weak-overlap:" +:+ tok)
        else (None, "low-confidence")
  end.

(** Lines 234-249: the prefix phase; [None] when it falls through. *)
Definition prefix_phase (page_name : string) (chapters : list chapter)
  : option (option Z * string) :=
  match extract_numeric_prefix page_name with
  | None => None
  | Some page_prefix =>
      if Py.truthy_str page_prefix then
        match prefix_matches page_prefix chapters with
        | [] => None
        | [m] => Some (Some (ch_id m), "prefix:" +:+ page_prefix)
        | ms =>
            let st := best_by_overlap (tokenize page_name) ms in
            match best st with
            | Some b =>
                Some (Some (ch_id b),
                      "prefix+overlap:" +:+ page_prefix +:+ ":"
                        +:+ Py.str_of_int (best_score st))
            | None => None
            end
        end
      else None
  end.

Definition best_chapter_for_page (page_name : string) (chapters : list chapter)
  : option Z * string :=
  match prefix_phase page_name chapters with
  | Some r => r
  | None => lexical_phase page_name chapters
  end.

(** ** Data of the worked examples *)

(** The two candidates of the prefix-precedence example. *)
Definition autocad_candidates : list chapter :=
  [ Chapter 936 "3.1 AutoCAD Core Skills" {[ "autocad"; "core"; "skills" ]} (Some "3.1");
    Chapter 951 "3.3 Navisworks" {[ "navisworks" ]} (Some "3.3") ].

(** Two chapters sharing the prefix 2.1, neither sharing a word with the
    title used against them. *)
Definition duplicate_candidates : list chapter :=
  [ Chapter 886 "2.1 Control System Architecture"
      {[ "control"; "system"; "architecture" ]} (Some "2.1");
    Chapter 890 "2.1 Control System Architecture (copy)"
      {[ "control"; "system"; "architecture"; "copy" ]} (Some "2.1") ].

Definition grounding_candidates : list chapter :=
  [ Chapter 12 "Grounding" {[ "grounding" ]} None ].

Definition overview_candidates : list chapter :=
  [ Chapter 13 "Overview" {[ "overview" ]} None ].

(** ** Markup stripping *)

Definition strip_html_to_text (s : string) : string :=
  let s := Re.sub (Re.element "style") " " s in
  let s := Re.sub (Re.element "script") " " s in
  let s := Re.sub Re.any_tag " " s in
  let s := Re.sub (Re.literal "&nbsp;") " " s in
  Py.strip (Re.sub (Re.plus_class Py.isspace) " " s).

(** ** Exceptions and results *)

(** A raised exception: its class and [str(ex)]. *)
Record exn := Exn { exn_class : string; exn_msg : string }.

Inductive result (A : Type) : Type :=
  | Ok (a : A)
  | Raise (e : exn).
Arguments Ok {A} a.
Arguments Raise {A} e.

#[global] Instance result_ret : MRet result := λ A a, Ok a.

#[global] Instance result_bind : MBind result := λ A B k r,
  match r with
  | Ok a => k a
  | Raise e => Raise e
  end.

Definition is_ok {A} (r : result A) : bool :=
  match r with Ok _ => true | Raise _ => false end.

(** ** Decoded JSON values and the dynamic operations applied to them *)

#[warnings="-register-all"]
Inductive json : Type :=
  | JNull
  | JBool (b : bool)
  | JInt (n : Z)
  | JStr (s : string)
  | JArr (items : list json)
  | JObj (fields : list (string * json)).

Module Dyn.

Definition type_name (v : json) : string :=
  match v with
  | JNull => "NoneType"
  | JBool _ => "bool"
  | JInt _ => "int"
  | JStr _ => "str"
  | JArr _ => "list"
  | JObj _ => "dict"
  end.

(** Truth value of [v] in [if v], [v or ...], [not v]. *)
Definition truthy (v : json) : bool :=
  match v with
  | JNull => false
  | JBool b => b
  | JInt n => negb (n =? 0)
  | JStr s => Py.truthy_str s
  | JArr l => match l with [] => false | _ => true end
  | JObj kv => match kv with [] => false | _ => true end
  end.

(** [a or b], when evaluating [b] cannot raise. *)
Definition or_else (a b : json) : json := if truthy a then a else b.

Fixpoint assoc (k : string) (kv : list (string * json)) : option json :=
  match kv with
  | [] => None
  | (k', v) :: kv' => if String.eqb k k' then Some v else assoc k kv'
  end.

(** [d.get(k, default)]; only a dict has the method. *)
Definition get_default (d : json) (k : string) (dflt : json) : result json :=
  match d with
  | JObj kv => Ok (default dflt (assoc k kv))
  | _ => Raise (Exn "AttributeError"
                  ("'" +:+ type_name d +:+ "' object has no attribute 'get'"))
  end.

(** [d.get(k)] *)
Definition get (d : json) (k : string) : result json := get_default d k JNull.

Definition squote : ascii := ascii_of_N 39.
Definition dquote : ascii := ascii_of_N 34.
Definition backslash : ascii := ascii_of_N 92.

Fixpoint contains_char (c : ascii) (s : string) : bool :=
  match s with
  | EmptyString => false
  | String d s' => Ascii.eqb c d || contains_char c s'
  end.

Definition hex_digit (n : N) : ascii :=
  if (n <? 10)%N then ascii_of_N (48 + n) else ascii_of_N (87 + n).

Fixpoint repr_chars (quote : ascii) (s : string) : string :=
  match s with
  | EmptyString => EmptyString
  | String c s' =>
      let n := Py.code c in
      (if Ascii.eqb c backslash then String backslash (String backslash "")
       else if Ascii.eqb c quote then String backslash (String quote "")
       else if (n =? 10)%N then String backslash "n"
       else if (n =? 13)%N then String backslash "r"
       else if (n =? 9)%N then String backslash "t"
       else if (n <? 32)%N || (n =? 127)%N
       then String backslash (String "x" (String (hex_digit (n / 16)) (String (hex_digit (n mod 16)) "")))
       else String c "")
      +:+ repr_chars quote s'
  end.

(** [repr(s)] of a string: single quotes, unless it holds a single quote
    and no double quote. *)
Definition repr_str (s : string) : string :=
  let quote := if contains_char squote s && negb (contains_char dquote s)
               then dquote else squote in
  String quote (repr_chars quote s) +:+ String quote "".

Fixpoint join (sep : string) (l : list string) : string :=
  match l with
  | [] => ""
  | [x] => x
  | x :: l' => x +:+ sep +:+ join sep l'
  end.

Fixpoint repr (v : json) : string :=
  match v with
  | JNull => "None"
  | JBool true => "True"
  | JBool false => "False"
  | JInt n => Py.str_of_int n
  | JStr s => repr_str s
  | JArr l => "[" +:+ join ", " (List.map repr l) +:+ "]"
  | JObj kv =>
      "{" +:+ join ", " (List.map (λ p, match p with
                                       | (k, x) => repr_str k +:+ ": " +:+ repr x
                                       end) kv) +:+ "}"
  end.

(** [str(v)] *)
Definition to_str (v : json) : string :=
  match v with
  | JStr s => s
  | _ => repr v
  end.

(** [d[k]] for a string key. *)
Definition getitem (d : json) (k : string) : result json :=
  match d with
  | JObj kv =>
      match assoc k kv with
      | Some v => Ok v
      | None => Raise (Exn "KeyError" (repr_str k))
      end
  | JArr _ => Raise (Exn "TypeError" "list indices must be integers or slices, not str")
  | JStr _ => Raise (Exn "TypeError" "string indices must be integers, not 'str'")
  | _ => Raise (Exn "TypeError" ("'" +:+ type_name d +:+ "' object is not subscriptable"))
  end.

(** The digits of an integer literal: single underscores may separate them.
    [after_digit] tells that the previous character was a digit. *)
Fixpoint parse_digits (acc : Z) (after_digit : bool) (s : string) : option Z :=
  match s with
  | EmptyString => if after_digit then Some acc else None
  | String c s' =>
      if Py.isdigit c
      then parse_digits (acc * 10 + (Z.of_N (Py.code c) - 48)) true s'
      else if Ascii.eqb c "_" && after_digit then parse_digits acc false s'
      else None
  end.

(** [int(s)] for a string, base 10: blanks around, an optional sign, digits. *)
Definition int_of_str (s : string) : option Z :=
  match Py.strip s with
  | String "+" r => parse_digits 0 false r
  | String "-" r => Z.opp <$> parse_digits 0 false r
  | t => parse_digits 0 false t
  end.

(** [int(v)] *)
Definition to_int (v : json) : result Z :=
  match v with
  | JInt n => Ok n
  | JBool b => Ok (if b then 1 else 0)
  | JStr s =>
      match int_of_str s with
      | Some n => Ok n
      | None => Raise (Exn "ValueError"
                         ("invalid literal for int() with base 10: " +:+ repr_str s))
      end
  | _ => Raise (Exn "TypeError"
                  ("int() argument must be a string, a bytes-like object or a real number, not '"
                     +:+ type_name v +:+ "'"))
  end.

Fixpoint chars (s : string) : list json :=
  match s with
  | EmptyString => []
  | String c s' => JStr (String c "") :: chars s'
  end.

(** What [for x in v] goes through. *)
Definition iter (v : json) : result (list json) :=
  match v with
  | JArr l => Ok l
  | JObj kv => Ok (List.map (λ p, JStr (fst p)) kv)
  | JStr s => Ok (chars s)
  | _ => Raise (Exn "TypeError" ("'" +:+ type_name v +:+ "' object is not iterable"))
  end.

(** [v == s] for a string [s]. *)
Definition eq_str (v : json) (s : string) : bool :=
  match v with
  | JStr t => String.eqb t s
  | _ => false
  end.

(** [isinstance(v, str)] *)
Definition is_str (v : json) : bool :=
  match v with
  | JStr _ => true
  | _ => false
  end.

End Dyn.

(** ** The junk detector's classification *)

(** Line 616: the first truthy of the fields markdown, raw_html and html,
    else the empty string. *)
Definition page_raw_content (page : json) : result json :=
  md ← Dyn.get page "markdown";
  if Dyn.truthy md then Ok md else
  rh ← Dyn.get page "raw_html";
  if Dyn.truthy rh then Ok rh else
  h ← Dyn.get page "html";
  Ok (Dyn.or_else h (JStr "")).

Definition is_effectively_empty_page (page : json) : result bool :=
  raw ← page_raw_content page;
  match raw with
  | JStr raw =>
      let raw := Py.strip raw in
      if negb (Py.truthy_str raw) then Ok true
      else
        let txt := strip_html_to_text raw in
        Ok (bool_decide (String.length txt < 30)%nat)
  | _ => Ok true
  end.

(** ** The remote store, and the monad of the code that talks to it *)

Inductive method := GET | POST | PUT | DELETE.

Definition method_name (m : method) : string :=
  match m with
  | GET => "GET"
  | POST => "POST"
  | PUT => "PUT"
  | DELETE => "DELETE"
  end.

#[global] Instance method_eq_dec : EqDecision method.
Proof. solve_decision. Defined.

(** What the client reads of a [requests] response: the status, the header
    Retry-After when there is one, the body text, and what decoding the
    body as JSON gives (it may raise). *)
Record response := Response {
  status_code : Z;
  retry_after : option string;
  text : string;
  json_body : result json
}.

(** [resp.ok]: [raise_for_status] would not raise, that is, the status is
    not in the range 400 to 599. *)
Definition resp_ok (r : response) : bool :=
  negb ((400 <=? status_code r) && (status_code r <? 600)).

(** One invocation of [BookStackApi.request], with how it ended. *)
Record api_call := ApiCall {
  call_method : method;
  call_path : string;
  call_body : option json;
  call_result : result json
}.

(** What happens below [request]: one HTTP exchange with what came back
    (a response, or an exception of the transport), or a sleep. *)
Inductive wire_event :=
  | Sent (m : method) (path : string) (body : option json) (reply : result response)
  | Slept (delay : Z).

(** The state threaded through the code: the remote world, and two logs that
    the code never reads. *)
Record state (W : Type) := State {
  world : W;
  calls : list api_call;
  wire : list wire_event
}.
Arguments State {W} world calls wire.
Arguments world {W} s.
Arguments calls {W} s.
Arguments wire {W} s.

Definition M (W A : Type) : Type := state W → result A * state W.

#[global] Instance M_ret {W} : MRet (M W) := λ A a s, (Ok a, s).

#[global] Instance M_bind {W} : MBind (M W) := λ A B k m s,
  match m s with
  | (Ok a, s') => k a s'
  | (Raise e, s') => (Raise e, s')
  end.

(** [raise ex] *)
Definition raise {W A} (e : exn) : M W A := λ s, (Raise e, s).

(** A computation that does not touch the remote store. *)
Definition lift {W A} (r : result A) : M W A := λ s, (r, s).

(** [try: m / except Exception as ex: ...]: the outcome of [m], as a value. *)
Definition catch {W A} (m : M W A) : M W (result A) := λ s,
  match m s with
  | (r, s') => (Ok r, s')
  end.

(** A [for] loop that updates an accumulator. *)
Fixpoint for_each {W A S} (body : A → S → M W S) (l : list A) (acc : S) : M W S :=
  match l with
  | [] => mret acc
  | x :: l' => acc' ← body x acc; for_each body l' acc'
  end.

(** A list comprehension whose element expression may raise. *)
Fixpoint map_result {A B} (f : A → result B) (l : list A) : result (list B) :=
  match l with
  | [] => Ok []
  | x :: l' => y ← f x; ys ← map_result f l'; Ok (y :: ys)
  end.

(** A list comprehension with a condition that may raise. *)
Fixpoint filter_result {A} (f : A → result bool) (l : list A) : result (list A) :=
  match l with
  | [] => Ok []
  | x :: l' => b ← f x; ys ← filter_result f l'; Ok (if (b : bool) then x :: ys else ys)
  end.

(** [sorted(l, key=key)]: stable. *)
Fixpoint insert_sorted {A} (key : A → Z) (x : A) (l : list A) : list A :=
  match l with
  | [] => [x]
  | y :: l' => if key x <=? key y then x :: y :: l' else y :: insert_sorted key x l'
  end.

Definition sorted_by {A} (key : A → Z) (l : list A) : list A :=
  foldr (insert_sorted key) [] l.

Definition newline : ascii := ascii_of_N 10.

Section Client.

Context {W : Type}.

(** [self._s.request(method, url, json=body, timeout=..)]: the remote side.
    It answers with a response or raises (connection error, timeout), and
    the world moves on. The base address is fixed, so the path stands for
    the URL. *)
Variable transport : W → method → string → option json → result response * W.

Definition send (m : method) (path : string) (body : option json) : M W response :=
  λ s,
    match transport (world s) m path body with
    | (r, w') => (r, State w' (calls s) (wire s ++ [Sent m path body r]))
    end.

(** [time.sleep(delay)] *)
Definition sleep (delay : Z) : M W unit :=
  λ s, (Ok tt, State (world s) (calls s) (wire s ++ [Slept delay])).

Definition max_attempts : Z := 5.

(** [(resp.text or empty).strip().replace(newline, space)[:200]] *)
Definition snippet (resp : response) : string :=
  Py.take 200 (Re.sub (Re.literal (String newline "")) " " (Py.strip (text resp))).

(** Lines 97-103: the delay before retrying a rate-limited request. *)
Definition rate_limit_delay (resp : response) (attempt : Z) : Z :=
  let delay :=
    match retry_after resp with
    | Some h =>
        if Py.truthy_str h
        then match Dyn.int_of_str h with Some d => d | None => 0 end
        else 0
    | None => 0
    end in
  if delay <=? 0 then Z.min 60 (2 ^ attempt) else delay.

(** Line 108: the delay before retrying after a server error. *)
Definition server_error_delay (attempt : Z) : Z := Z.min 30 (2 ^ (attempt - 1)).

Definition request_failed (m : method) (path : string) (resp : response) : exn :=
  Exn "RuntimeError"
    ("BookStack API " +:+ method_name m +:+ " " +:+ path +:+ " failed: "
       +:+ Py.str_of_int (status_code resp) +:+ " " +:+ snippet resp).

Definition request_exhausted (m : method) (path : string) (last_resp : option response)
  : exn :=
  match last_resp with
  | Some resp =>
      Exn "RuntimeError"
        ("BookStack API " +:+ method_name m +:+ " " +:+ path +:+ " failed after retries: "
           +:+ Py.str_of_int (status_code resp) +:+ " " +:+ snippet resp)
  | None =>
      Exn "RuntimeError"
        ("BookStack API " +:+ method_name m +:+ " " +:+ path +:+ " failed after retries")
  end.

(** The loop [for attempt in range(1, max_attempts + 1)] of [request]. *)
Fixpoint request_loop (m : method) (path : string) (body : option json)
    (attempts : list Z) (last_resp : option response) : M W json :=
  match attempts with
  | [] => raise (request_exhausted m path last_resp)
  | attempt :: rest =>
      resp ← send m path body;
      if (status_code resp =? 429) && (attempt <? max_attempts) then
        sleep (rate_limit_delay resp attempt);;
        request_loop m path body rest (Some resp)
      else if (500 <=? status_code resp) && (status_code resp <? 600)
              && (attempt <? max_attempts) then
        sleep (server_error_delay attempt);;
        request_loop m path body rest (Some resp)
      else if negb (resp_ok resp) then raise (request_failed m path resp)
      else if negb (Py.truthy_str (Py.strip (text resp))) then mret JNull
      else lift (json_body resp)
  end.

(** [range(1, max_attempts + 1)] *)
Definition attempt_numbers : list Z := [1; 2; 3; 4; 5].

(** [BookStackApi.request]; the call and its outcome go to the call log. *)
Definition request (m : method) (path : string) (body : option json) : M W json :=
  λ s,
    match request_loop m path body attempt_numbers None s with
    | (r, s') => (r, State (world s') (calls s' ++ [ApiCall m path body r]) (wire s'))
    end.

Definition api_get (path : string) : M W json := request GET path None.
Definition api_post (path : string) (body : json) : M W json := request POST path (Some body).
Definition api_put (path : string) (body : json) : M W json := request PUT path (Some body).
Definition api_delete (path : string) : M W json := request DELETE path None.

End Client.

(** ** The organizer: [setup/organize-library.py] *)

Definition HOLDING_SHELF_NAME : string := "9. Orphaned".
Definition HOLDING_BOOK_NAME : string := "Empty Chapters Holding".
Definition INBOX_CHAPTER_NAME : string := "00. Inbox (Unsorted)".

(** [int(v[key])] *)
Definition int_field (v : json) (key : string) : result Z :=
  x ← Dyn.getitem v key; Dyn.to_int x.

(** [str(v.get(key, empty))] *)
Definition str_field (v : json) (key : string) : result string :=
  x ← Dyn.get_default v key (JStr ""); Ok (Dyn.to_str x).

(** What [for x in v.get(key, [])] goes through. *)
Definition items_of (v : json) (key : string) : result (list json) :=
  x ← Dyn.get_default v key (JArr []); Dyn.iter x.

(** [[int(x[id]) for x in v.get(key, [])]] *)
Definition ids_of (v : json) (key : string) : result (list Z) :=
  items ← items_of v key; map_result (λ x, int_field x "id") items.

(** The loop that looks for the first item with a given name and stops there
    with its id. *)
Fixpoint find_id_by_name (name : string) (items : list json) : result (option Z) :=
  match items with
  | [] => Ok None
  | x :: rest =>
      n ← Dyn.get x "name";
      if Dyn.eq_str n name then i ← int_field x "id"; Ok (Some i)
      else find_id_by_name name rest
  end.

(** [c.get(type) == kind] *)
Definition has_type (kind : string) (c : json) : result bool :=
  t ← Dyn.get c "type"; Ok (Dyn.eq_str t kind).

(** The condition that selects the empty chapters of a book. *)
Definition is_empty_chapter (c : json) : result bool :=
  t ← Dyn.get c "type";
  if Dyn.eq_str t "chapter" then
    p ← Dyn.get c "pages";
    Ok (match p with JArr [] => true | _ => false end)
  else Ok false.

(** [urllib.parse.quote(s)]: letters, digits and the characters [_.-~/] are
    kept, any other character becomes a percent sign and two hex digits. *)
Definition upper_hex_digit (n : N) : ascii :=
  if (n <? 10)%N then ascii_of_N (48 + n) else ascii_of_N (55 + n).

Definition quote_safe (c : ascii) : bool :=
  Py.isdigit c || Py.isupper c || Py.islower c
  || Dyn.contains_char c "_.-~/".

Fixpoint quote (s : string) : string :=
  match s with
  | EmptyString => EmptyString
  | String c s' =>
      if quote_safe c then String c (quote s')
      else String "%" (String (upper_hex_digit (Py.code c / 16))
                         (String (upper_hex_digit (Py.code c mod 16)) (quote s')))
  end.

(** The table of [shelve_books]. *)
Definition book_to_shelf : gmap string string :=
  list_to_map
    [ ("Vendor Documentation", "3. Technical References");
      ("Templates Library", "5. Project Resources");
      ("Lessons Learned", "5. Project Resources");
      ("Project Case Studies", "5. Project Resources");
      ("How to Use This BookStack", "EIC Knowledgebase Help");
      ("Demo Project #1 - CAD / CARS Basics", "4. Training & Development");
      ("Allen-Bradley Centerline 2100", "7. Integration & Automation");
      ("Job Classifications", "1. Onboarding");
      ("Documentation Standards", "2. Standards & Procedures");
      ("Drawing Standards", "2. Standards & Procedures");
      ("Instrumentation", "7. Integration & Automation");
      ("Controls & Networking", "7. Integration & Automation");
      ("Code & Standards Reference", "3. Technical References");
      ("Lunch & Learn Archive", "4. Training & Development");
      ("PDH Courses", "4. Training & Development");
      ("Project Folder Setup", "5. Project Resources");
      ("Estimating Guide", "5. Project Resources");
      ("Proposal Writing", "8. Business Development");
      ("Commissioning", "5. Project Resources");
      ("SKM Power Tools", "6. Tools & Software");
      ("IFM IO-Link", "7. Integration & Automation");
      ("EtherNet/IP", "7. Integration & Automation");
      ("HMI Development", "7. Integration & Automation");
      ("Client Relations", "8. Business Development");
      ("EIC Onboarding Guide", "1. Onboarding") ].

(** The path of a page, [/pages/] and its id. *)
Definition page_path (pid : Z) : string := "/pages/" +:+ Py.str_of_int pid.

(** The path of a chapter, [/chapters/] and its id. *)
Definition chapter_path (ch_id : Z) : string := "/chapters/" +:+ Py.str_of_int ch_id.

(** The name given to a chapter when its relocation is retried:
    [From], the id of the book it was in, and its name. *)
Definition renamed_chapter (bid : Z) (ch_name : string) : string :=
  "[From " +:+ Py.str_of_int bid +:+ "] " +:+ ch_name.

(** The reports. *)

Record page_sample := PageSample {
  sample_book_id : Z;
  sample_book : string;
  sample_page_id : Z;
  sample_page : string;
  sample_chapter_id : Z;
  sample_reason : string
}.

Record direct_pages_report := DirectPages {
  dp_moved : Z;
  dp_assigned : Z;
  dp_inboxed : Z;
  dp_inbox_created : Z;
  dp_samples : list page_sample
}.

Record sweep_failure := SweepFailure {
  failure_book_id : Z;
  failure_book : string;
  failure_chapter_id : Z;
  failure_chapter : string;
  failure_error : string
}.

Record sweep_report := Sweep {
  sweep_moved : Z;
  sweep_renamed : Z;
  sweep_failures : list sweep_failure
}.

Record junk_entry := JunkEntry {
  junk_id : Z;
  junk_name : string;
  junk_book_id : json;
  junk_chapter_id : json;
  junk_empty : bool
}.

Record junk_report := Junk {
  junk_deleted : list junk_entry;
  junk_kept : list junk_entry
}.

(** The command line of [main], without the backup switch: the backup does
    not talk to the remote store. *)
Record options := Options {
  opt_apply : bool;
  opt_skip_shelving : bool;
  opt_skip_pages : bool;
  opt_skip_empty_chapters : bool;
  opt_skip_deletes : bool
}.

(** The report written at the end of [main], without its time stamp. *)
Record report := Report {
  report_apply : bool;
  report_shelved_books : list (string * string);
  report_holding_book_id : option Z;
  report_direct_pages : option direct_pages_report;
  report_empty_chapters : option sweep_report;
  report_junk_pages : option junk_report
}.

Section Organizer.

Context {W : Type}.
Variable transport : W → method → string → option json → result response * W.

Abbreviation api_get := (api_get transport).
Abbreviation api_post := (api_post transport).
Abbreviation api_put := (api_put transport).
Abbreviation api_delete := (api_delete transport).

(** Note that this function takes no [apply] flag. *)
Definition ensure_holding_book : M W Z :=
  shelves ← api_get "/shelves";
  items ← lift (items_of shelves "data");
  shelf_id ← lift (find_id_by_name HOLDING_SHELF_NAME items);
  match shelf_id with
  | None => raise (Exn "RuntimeError" ("Holding shelf not found: " +:+ HOLDING_SHELF_NAME))
  | Some shelf_id =>
      books ← api_get "/books";
      items ← lift (items_of books "data");
      found ← lift (find_id_by_name HOLDING_BOOK_NAME items);
      holding_book_id ←
        match found with
        | Some i => mret i
        | None =>
            created ← api_post "/books"
              (JObj [("name", JStr HOLDING_BOOK_NAME);
                     ("description", JStr "Holding area for empty placeholder chapters.")]);
            lift (int_field created "id")
        end;
      shelf ← api_get ("/shelves/" +:+ Py.str_of_int shelf_id);
      current ← lift (ids_of shelf "books");
      (if bool_decide (holding_book_id ∈ current) then mret JNull
       else api_put ("/shelves/" +:+ Py.str_of_int shelf_id)
              (JObj [("books", JArr (JInt <$> sorted_by id (current ++ [holding_book_id])))]));;
      mret holding_book_id
  end.

Definition list_unshelved_books : M W (list (Z * string)) :=
  books ← api_get "/books";
  items ← lift (items_of books "data");
  all_books ← lift (map_result
                      (λ b, i ← int_field b "id"; n ← str_field b "name"; Ok (i, n))
                      items);
  shelves ← api_get "/shelves";
  items ← lift (items_of shelves "data");
  shelved_ids ← for_each
    (λ s (acc : gset Z),
       sid ← lift (int_field s "id");
       shelf ← api_get ("/shelves/" +:+ Py.str_of_int sid);
       ids ← lift (ids_of shelf "books");
       mret (acc ∪ list_to_set ids))
    items ∅;
  mret (sorted_by fst (filter (λ b : Z * string, b.1 ∉ shelved_ids) all_books)).

(** One round of the loop of [shelve_books]. *)
Definition shelve_book (apply : bool) (shelf_name_to_id : gmap string Z)
    (b : Z * string) (actions : list (string * string)) : M W (list (string * string)) :=
  let shelf_name := default HOLDING_SHELF_NAME (book_to_shelf !! b.2) in
  match shelf_name_to_id !! shelf_name with
  | None => raise (Exn "RuntimeError" ("Shelf not found: " +:+ shelf_name))
  | Some shelf_id =>
      shelf ← api_get ("/shelves/" +:+ Py.str_of_int shelf_id);
      current_ids ← lift (ids_of shelf "books");
      if bool_decide (b.1 ∈ current_ids) then mret actions
      else
        let actions := actions ++ [(b.2, shelf_name)] in
        if apply then
          api_put ("/shelves/" +:+ Py.str_of_int shelf_id)
            (JObj [("books", JArr (JInt <$> sorted_by id (current_ids ++ [b.1])))]);;
          mret actions
        else mret actions
  end.

Definition shelve_books (apply : bool) : M W (list (string * string)) :=
  shelves ← api_get "/shelves";
  items ← lift (items_of shelves "data");
  shelf_name_to_id ← lift
    (foldl (λ (acc : result (gmap string Z)) s,
              m ← acc;
              n ← Dyn.getitem s "name";
              i ← int_field s "id";
              Ok (<[Dyn.to_str n := i]> m))
       (Ok ∅) items);
  unshelved ← list_unshelved_books;
  for_each (shelve_book apply shelf_name_to_id) unshelved [].

(** The loop of [ensure_inbox_chapter] that looks for the inbox chapter. *)
Fixpoint find_inbox (items : list json) : result (option Z) :=
  match items with
  | [] => Ok None
  | item :: rest =>
      t ← Dyn.get item "type";
      if Dyn.eq_str t "chapter" then
        n ← Dyn.get item "name";
        if Dyn.eq_str n INBOX_CHAPTER_NAME then i ← int_field item "id"; Ok (Some i)
        else find_inbox rest
      else find_inbox rest
  end.

Definition ensure_inbox_chapter (book : json) (apply : bool) : M W Z :=
  contents ← lift (Dyn.get_default book "contents" (JArr []));
  items ← lift (Dyn.iter (Dyn.or_else contents (JArr [])));
  found ← lift (find_inbox items);
  match found with
  | Some i => mret i
  | None =>
      if negb apply then mret (-1)
      else
        book_id ← lift (int_field book "id");
        created ← api_post "/chapters"
          (JObj [("name", JStr INBOX_CHAPTER_NAME);
                 ("description",
                  JStr "Catch-all for pages that were created directly in the book.");
                 ("book_id", JInt book_id)]);
        lift (int_field created "id")
  end.

(** The candidate built from a chapter of the book contents. *)
Definition chapter_of (ch : json) : result chapter :=
  name ← str_field ch "name";
  i ← int_field ch "id";
  Ok (Chapter i name (tokenize name) (extract_numeric_prefix name)).

(** One round of the loop over the direct pages of a book. The accumulator
    is the report so far and [inbox_id]. *)
Definition move_direct_page (apply : bool) (bid : Z) (book : json)
    (chapters : list chapter) (p : json) (acc : direct_pages_report * option Z)
  : M W (direct_pages_report * option Z) :=
  let '(rep, inbox_id) := acc in
  page_id ← lift (int_field p "id");
  page_name ← lift (str_field p "name");
  let '(target, reason) := best_chapter_for_page page_name chapters in
  '(target_ch_id, reason, rep, inbox_id) ←
    match target with
    | Some t =>
        mret (Some t, reason,
              DirectPages (dp_moved rep) (dp_assigned rep + 1) (dp_inboxed rep)
                (dp_inbox_created rep) (dp_samples rep),
              inbox_id)
    | None =>
        '(inbox_id, created) ←
          match inbox_id with
          | Some i => mret (Some i, 0)
          | None =>
              i ← ensure_inbox_chapter book apply;
              if i =? -1 then mret (None, 0) else mret (Some i, 1)
          end;
        mret (inbox_id, "inbox:" +:+ reason,
              DirectPages (dp_moved rep) (dp_assigned rep) (dp_inboxed rep + 1)
                (dp_inbox_created rep + created) (dp_samples rep),
              inbox_id)
    end;
  match target_ch_id with
  | None => mret (rep, inbox_id)
  | Some t =>
      (if apply
       then api_put (page_path page_id) (JObj [("chapter_id", JInt t)])
       else mret JNull);;
      samples ←
        (if bool_decide (length (dp_samples rep) < 20)%nat
         then book_name ← lift (str_field book "name");
              mret (dp_samples rep ++ [PageSample bid book_name page_id page_name t reason])
         else mret (dp_samples rep));
      mret (DirectPages (dp_moved rep + 1) (dp_assigned rep) (dp_inboxed rep)
              (dp_inbox_created rep) samples,
            inbox_id)
  end.

(** One round of the loop over the books. *)
Definition move_direct_pages_of_book (apply : bool) (bid : Z) (rep : direct_pages_report)
  : M W direct_pages_report :=
  book ← api_get ("/books/" +:+ Py.str_of_int bid);
  contents ← lift (c ← Dyn.get book "contents"; Ok (Dyn.or_else c (JArr [])));
  chapters_raw ← lift (items ← Dyn.iter contents; filter_result (has_type "chapter") items);
  chapters ← lift (map_result chapter_of chapters_raw);
  direct_pages ← lift (items ← Dyn.iter contents; filter_result (has_type "page") items);
  match direct_pages with
  | [] => mret rep
  | _ =>
      acc ← for_each (move_direct_page apply bid book chapters) direct_pages (rep, None);
      mret acc.1
  end.

Definition move_direct_pages (apply : bool) : M W direct_pages_report :=
  books ← api_get "/books";
  book_ids ← lift (ids_of books "data");
  for_each (move_direct_pages_of_book apply) book_ids (DirectPages 0 0 0 0 []).

(** One round of the loop over the empty chapters of a book. *)
Definition move_empty_chapter (apply : bool) (holding_book_id : Z) (bid : Z) (book : json)
    (ch : json) (rep : sweep_report) : M W sweep_report :=
  ch_id ← lift (int_field ch "id");
  ch_name ← lift (str_field ch "name");
  if negb apply
  then mret (Sweep (sweep_moved rep + 1) (sweep_renamed rep) (sweep_failures rep))
  else
    r ← catch (api_put (chapter_path ch_id) (JObj [("book_id", JInt holding_book_id)]));
    match r with
    | Ok _ => mret (Sweep (sweep_moved rep + 1) (sweep_renamed rep) (sweep_failures rep))
    | Raise _ =>
        let new_name := renamed_chapter bid ch_name in
        r2 ← catch (api_put (chapter_path ch_id)
                      (JObj [("book_id", JInt holding_book_id); ("name", JStr new_name)]));
        match r2 with
        | Ok _ =>
            mret (Sweep (sweep_moved rep + 1) (sweep_renamed rep + 1) (sweep_failures rep))
        | Raise ex2 =>
            book_name ← lift (str_field book "name");
            mret (Sweep (sweep_moved rep) (sweep_renamed rep)
                    (sweep_failures rep
                       ++ [SweepFailure bid book_name ch_id ch_name (exn_msg ex2)]))
        end
    end.

(** One round of the loop over the books. *)
Definition move_empty_chapters_of_book (apply : bool) (holding_book_id : Z) (bid : Z)
    (rep : sweep_report) : M W sweep_report :=
  if bid =? holding_book_id then mret rep
  else
    book ← api_get ("/books/" +:+ Py.str_of_int bid);
    contents ← lift (c ← Dyn.get book "contents"; Ok (Dyn.or_else c (JArr [])));
    empty_chapters ← lift (items ← Dyn.iter contents; filter_result is_empty_chapter items);
    for_each (move_empty_chapter apply holding_book_id bid book) empty_chapters rep.

Definition move_empty_chapters (holding_book_id : Z) (apply : bool) : M W sweep_report :=
  books ← api_get "/books";
  book_ids ← lift (ids_of books "data");
  for_each (move_empty_chapters_of_book apply holding_book_id) book_ids (Sweep 0 0 []).

(** The loop of [find_pages_by_exact_name]. *)
Fixpoint exact_name_ids (name : string) (items : list json) : result (list Z) :=
  match items with
  | [] => Ok []
  | item :: rest =>
      t ← Dyn.get item "type";
      if Dyn.eq_str t "page" then
        n ← Dyn.get item "name";
        if Dyn.eq_str n name
        then i ← int_field item "id"; ids ← exact_name_ids name rest; Ok (i :: ids)
        else exact_name_ids name rest
      else exact_name_ids name rest
  end.

Definition find_pages_by_exact_name (name : string) : M W (list Z) :=
  let q := quote name in
  res ← api_get ("/search?query=" +:+ q);
  data ← lift (Dyn.get_default res "data" (JArr []));
  items ← lift (Dyn.iter (Dyn.or_else data (JArr [])));
  ids ← lift (exact_name_ids name items);
  mret (sorted_by id (remove_dups ids)).

(** One round of the inner loop of [delete_junk_pages]. *)
Definition delete_junk_page (apply : bool) (name : string) (pid : Z) (rep : junk_report)
  : M W junk_report :=
  page ← api_get (page_path pid);
  empty ← lift (is_effectively_empty_page page);
  book_id ← lift (Dyn.get page "book_id");
  chapter_id ← lift (Dyn.get page "chapter_id");
  let entry := JunkEntry pid name book_id chapter_id empty in
  if (empty : bool) then
    (if apply then api_delete (page_path pid) else mret JNull);;
    mret (Junk (junk_deleted rep ++ [entry]) (junk_kept rep))
  else mret (Junk (junk_deleted rep) (junk_kept rep ++ [entry])).

(** One round of the outer loop. *)
Definition delete_junk_pages_named (apply : bool) (name : string) (rep : junk_report)
  : M W junk_report :=
  pids ← find_pages_by_exact_name name;
  for_each (delete_junk_page apply name) pids rep.

Definition PLACEHOLDER_NAMES : list string := ["New Page"; "Test"].

Definition delete_junk_pages (apply : bool) : M W junk_report :=
  for_each (delete_junk_pages_named apply) PLACEHOLDER_NAMES (Junk [] []).

(** [main], from the point where the client exists to the report that is
    written. *)
Definition main (args : options) : M W report :=
  let apply := opt_apply args in
  shelved ← (if negb (opt_skip_shelving args) then shelve_books apply else mret []);
  holding_book_id ←
    (if negb (opt_skip_empty_chapters args)
     then i ← ensure_holding_book; mret (Some i)
     else mret None);
  direct ←
    (if negb (opt_skip_pages args)
     then rep ← move_direct_pages apply; mret (Some rep)
     else mret None);
  empty ←
    match negb (opt_skip_empty_chapters args), holding_book_id with
    | true, Some h => rep ← move_empty_chapters h apply; mret (Some rep)
    | _, _ => mret None
    end;
  junk ←
    (if negb (opt_skip_deletes args)
     then rep ← delete_junk_pages apply; mret (Some rep)
     else mret None);
  mret (Report apply shelved holding_book_id direct empty junk).

(** ** The inbox organizer: [move_page] of [setup/organize-inbox.py]

    Its client class has the same [request] method. *)

Record move_record := MoveRecord {
  move_page_id : Z;
  move_name : json;
  move_from : option Z;
  move_to : Z
}.

Definition move_page (page_id : Z) (target_chapter_id : Z) (apply : bool)
  : M W (bool * move_record) :=
  page ← api_get (page_path page_id);
  current_ch ← lift (Dyn.get page "chapter_id");
  current_ch_id ← lift (match current_ch with
                        | JNull => Ok None
                        | v => i ← Dyn.to_int v; Ok (Some i)
                        end);
  if bool_decide (current_ch_id = Some target_chapter_id) then
    name ← lift (Dyn.get page "name");
    mret (false, MoveRecord page_id name current_ch_id target_chapter_id)
  else
    (if apply
     then api_put (page_path page_id) (JObj [("chapter_id", JInt target_chapter_id)])
     else mret JNull);;
    name ← lift (Dyn.get page "name");
    mret (true, MoveRecord page_id name current_ch_id target_chapter_id).

End Organizer.

(** ** The inbox organizer: chapters by name and the driving loop of
    [setup/organize-inbox.py] *)

(** A chapter to find by name in a book, and to create if it is missing. *)
Record chapter_spec := ChapterSpec {
  spec_book_id : Z;
  spec_name : string;
  spec_description : string
}.

(** Where a page goes: a chapter id, or a chapter by name. *)
Inductive target :=
  | TargetId (chapter_id : Z)
  | TargetSpec (spec : chapter_spec).

(** [d.setdefault(k, v)] on a dict used as a map. *)
Definition setdefault (k : string) (v : Z) (d : gmap string Z) : gmap string Z :=
  match d !! k with
  | Some _ => d
  | None => <[k := v]> d
  end.

(** What an item of the contents of a book adds to the chapters by name:
    nothing unless it is a chapter with a name. The id is read before the
    dict is looked at. *)
Definition chapter_entry (c : json) : result (option (string * Z)) :=
  t ← Dyn.get c "type";
  if negb (Dyn.eq_str t "chapter") then Ok None
  else
    n ← Dyn.get c "name";
    let name := Dyn.to_str (Dyn.or_else n (JStr "")) in
    if negb (Py.truthy_str name) then Ok None
    else i ← int_field c "id"; Ok (Some (name, i)).

(** The loop of [get_book_chapters]. *)
Fixpoint chapters_by_name (items : list json) (out : gmap string Z)
  : result (gmap string Z) :=
  match items with
  | [] => Ok out
  | c :: rest =>
      e ← chapter_entry c;
      chapters_by_name rest
        (match e with
         | Some (name, i) => setdefault name i out
         | None => out
         end)
  end.

(** The cache of [ensure_chapter]: for each book already fetched, its
    chapters by name. The dict of a book is shared with the cache, so an
    update of it is an update of the cache. *)
Abbreviation chapter_cache := (gmap Z (gmap string Z)).

(** An entry of the list of moves of the report: a page whose chapter a dry
    run would have to create, or the record of a move. *)
Inductive move_entry :=
  | PendingChapter (page_id : Z)
  | MoveOf (rec : move_record).

(** The report of the inbox organizer, without its time stamp. *)
Record inbox_report := InboxReport {
  inbox_apply : bool;
  inbox_moved : Z;
  inbox_skipped : Z;
  inbox_moves : list move_entry
}.

Section InboxOrganizer.

Context {W : Type}.
Variable transport : W → method → string → option json → result response * W.

Definition get_book_chapters (book_id : Z) : M W (gmap string Z) :=
  book ← api_get transport ("/books/" +:+ Py.str_of_int book_id);
  contents ← lift (c ← Dyn.get book "contents"; Ok (Dyn.or_else c (JArr [])));
  items ← lift (Dyn.iter contents);
  lift (chapters_by_name items ∅).

(** The cache comes in and goes out. An exception ends the program, so the
    cache it leaves behind is not modelled. *)
Definition ensure_chapter (cache : chapter_cache) (spec : chapter_spec) (apply : bool)
  : M W (Z * chapter_cache) :=
  '(chapters, cache) ←
    match cache !! spec_book_id spec with
    | Some chapters => mret (chapters, cache)
    | None =>
        chapters ← get_book_chapters (spec_book_id spec);
        mret (chapters, <[spec_book_id spec := chapters]> cache)
    end;
  match chapters !! spec_name spec with
  | Some existing => mret (existing, cache)
  | None =>
      if negb apply then mret (-1, cache)
      else
        created ← api_post transport "/chapters"
          (JObj [("book_id", JInt (spec_book_id spec));
                 ("name", JStr (spec_name spec));
                 ("description", JStr (spec_description spec))]);
        ch_id ← lift (int_field created "id");
        mret (ch_id, <[spec_book_id spec := <[spec_name spec := ch_id]> chapters]> cache)
  end.

(** One round of the loop that resolves the targets. *)
Definition resolve_target (apply : bool) (pt : Z * target)
    (acc : chapter_cache * gmap Z Z) : M W (chapter_cache * gmap Z Z) :=
  let '(cache, resolved) := acc in
  match pt.2 with
  | TargetId t => mret (cache, <[pt.1 := t]> resolved)
  | TargetSpec spec =>
      '(ch_id, cache) ← ensure_chapter cache spec apply;
      mret (cache, <[pt.1 := ch_id]> resolved)
  end.

(** One round of the loop that moves the pages. *)
Definition place_page (apply : bool) (resolved : gmap Z Z) (pid : Z)
    (acc : Z * Z * list move_entry) : M W (Z * Z * list move_entry) :=
  let '(moved, skipped, moves) := acc in
  match resolved !! pid with
  | None => raise (Exn "KeyError" (Py.str_of_int pid))
  | Some ch_id =>
      if ch_id =? -1 then mret (moved, skipped + 1, moves ++ [PendingChapter pid])
      else
        '(did_move, info) ← move_page transport pid ch_id apply;
        if (did_move : bool)
        then mret (moved + 1, skipped, moves ++ [MoveOf info])
        else mret (moved, skipped + 1, moves ++ [MoveOf info])
  end.

(** The end of [main], from the table of targets to the report: the targets
    are resolved in the order of the table, then the pages are moved in
    increasing order of id. The table, which the source spells out page by
    page, is the argument [targets]: its entries in the order of insertion. *)
Definition organize_inbox (targets : list (Z * target)) (apply : bool) : M W inbox_report :=
  '(cache, resolved) ← for_each (resolve_target apply) targets (∅, ∅);
  '(moved, skipped, moves) ←
    for_each (place_page apply resolved) (sorted_by id (map_to_list resolved).*1) (0, 0, []);
  mret (InboxReport apply moved skipped moves).

End InboxOrganizer.

(** ** The settings file and the configuration of the client

    [load_env_file] and [build_api_config] are the same in both programs. *)

Module Env.

(** The line boundaries of [str.splitlines] on ASCII text: LF, VT, FF, CR
    and the separators FS, GS, RS; CR LF counts as one. *)
Definition is_linebreak (c : ascii) : bool := Py.in_range 10 13 c || Py.in_range 28 30 c.

(** [s.splitlines()]. [cur] is the line being read. *)
Fixpoint splitlines_from (cur : string) (s : string) : list string :=
  match s with
  | EmptyString => if String.eqb cur "" then [] else [cur]
  | String c s' =>
      if is_linebreak c then
        cur :: match s' with
               | String d s'' =>
                   if Ascii.eqb c (ascii_of_N 13) && Ascii.eqb d (ascii_of_N 10)
                   then splitlines_from "" s''
                   else splitlines_from "" s'
               | EmptyString => []
               end
      else splitlines_from (cur +:+ String c "") s'
  end.

Definition splitlines (s : string) : list string := splitlines_from "" s.

(** [s.startswith(c)] and [s.endswith(c)] for a one-character string. *)
Definition startswith (c : ascii) (s : string) : bool :=
  match s with
  | String d _ => Ascii.eqb c d
  | EmptyString => false
  end.

Fixpoint endswith (c : ascii) (s : string) : bool :=
  match s with
  | EmptyString => false
  | String d EmptyString => Ascii.eqb c d
  | String _ s' => endswith c s'
  end.

(** [s.split(sep, 1)] of a string that holds the separator: what is before
    its first occurrence, and what is after. *)
Fixpoint partition (sep : ascii) (s : string) : string * string :=
  match s with
  | EmptyString => ("", "")
  | String c s' =>
      if Ascii.eqb sep c then ("", s')
      else let '(k, v) := partition sep s' in (String c k, v)
  end.

(** [s[:-1]] *)
Fixpoint drop_last (s : string) : string :=
  match s with
  | EmptyString => EmptyString
  | String _ EmptyString => EmptyString
  | String c s' => String c (drop_last s')
  end.

(** [s.rstrip(c)] for a one-character string. *)
Fixpoint rstrip_char (c : ascii) (s : string) : string :=
  match s with
  | EmptyString => EmptyString
  | String d s' =>
      match rstrip_char c s' with
      | EmptyString => if Ascii.eqb c d then EmptyString else String d EmptyString
      | r => String d r
      end
  end.

End Env.

(** The body of the loop of [load_env_file], for one line of the file. *)
Definition env_line (env : gmap string string) (raw : string) : gmap string string :=
  let line := Py.strip raw in
  if negb (Py.truthy_str line) || Env.startswith "#" line then env
  else if negb (Dyn.contains_char "=" line) then env
  else
    let '(k, v) := Env.partition "=" line in
    let k := Py.strip k in
    let v := Py.strip v in
    let v := if (Env.startswith Dyn.dquote v && Env.endswith Dyn.dquote v)
                || (Env.startswith Dyn.squote v && Env.endswith Dyn.squote v)
             then Env.drop_last (Py.drop 1 v) else v in
    <[k := v]> env.

(** [load_env_file], from the text of the file. *)
Definition load_env_file (text : string) : gmap string string :=
  foldl env_line ∅ (Env.splitlines text).

Record api_config := ApiConfig {
  api_base : string;
  token_id : string;
  token_secret : string
}.

(** [env.get(k)] in a condition or before [or]: a value that is not empty. *)
Definition env_truthy (env : gmap string string) (k : string) : option string :=
  match env !! k with
  | Some v => if Py.truthy_str v then Some v else None
  | None => None
  end.

(** [build_api_config]. The settings file is at [path]; [file] is its text,
    if it exists. *)
Definition build_api_config (path : string) (file : option string) : result api_config :=
  match file with
  | None => Raise (Exn "RuntimeError" ("Missing env file: " +:+ path))
  | Some text =>
      let env := load_env_file text in
      let base :=
        Env.rstrip_char "/"
          (match env_truthy env "BOOKSTACK_API_URL" with
           | Some v => v
           | None => default "" (env_truthy env "BOOKSTACK_URL")
           end) in
      if negb (Py.truthy_str base)
      then Raise (Exn "RuntimeError" "BOOKSTACK_URL/BOOKSTACK_API_URL not set")
      else
        match env_truthy env "BOOKSTACK_TOKEN_ID", env_truthy env "BOOKSTACK_TOKEN_SECRET" with
        | Some token_id, Some token_secret =>
            Ok (ApiConfig (base +:+ "/api") token_id token_secret)
        | _, _ =>
            Raise (Exn "RuntimeError" "BOOKSTACK_TOKEN_ID/BOOKSTACK_TOKEN_SECRET not set")
        end
  end.

(** ** Remote stores for the worked examples *)

(** A response with a JSON body. Of the text only its blankness and its
    first characters are ever read, so the Python rendering stands for it. *)
Definition json_reply (status : Z) (v : json) : result response :=
  Ok (Response status None (Dyn.repr v) (Ok v)).

(** A failure response with a plain text body. *)
Definition text_reply (status : Z) (body : string) : result response :=
  Ok (Response status None body (Raise (Exn "JSONDecodeError" "Expecting value"))).

(** A recorded session: the exchanges the remote side has, in order. A
    request that is not the next one of the session fails to connect. *)
Definition session : Type := list (method * string * result response).

Definition replay (w : session) (m : method) (path : string) (body : option json)
  : result response * session :=
  match w with
  | (m', path', reply) :: rest =>
      if bool_decide (m = m') && String.eqb path path' then (reply, rest)
      else (Raise (Exn "ConnectionError" "unexpected request"), w)
  | [] => (Raise (Exn "ConnectionError" "no more exchanges"), [])
  end.

Definition start {W} (w : W) : state W := State w [] [].

(** A store of pages: the chapter each page is in. It serves and updates
    the pages, and nothing else. *)
Definition page_json (pid ch : Z) : json :=
  JObj [("id", JInt pid); ("name", JStr "Page"); ("chapter_id", JInt ch)].

Definition page_store (w : gmap Z Z) (m : method) (path : string) (body : option json)
  : result response * gmap Z Z :=
  match Py.drop_prefix "/pages/" path with
  | Some rest =>
      match Dyn.int_of_str rest with
      | Some pid =>
          match w !! pid, m with
          | Some ch, GET => (json_reply 200 (page_json pid ch), w)
          | Some ch, PUT =>
              match body with
              | Some b =>
                  match int_field b "chapter_id" with
                  | Ok c => (json_reply 200 (page_json pid c), <[pid := c]> w)
                  | Raise _ => (text_reply 422 "chapter_id must be an integer", w)
                  end
              | None => (text_reply 422 "no body", w)
              end
          | Some ch, DELETE => (Ok (Response 204 None "" (Raise (Exn "JSONDecodeError" "Expecting value"))),
                                delete pid w)
          | Some ch, POST => (text_reply 405 "method not allowed", w)
          | None, _ => (text_reply 404 "page not found", w)
          end
      | None => (text_reply 404 "not found", w)
      end
  | None => (text_reply 404 "not found", w)
  end.

(** In the page store, page [p] is in chapter [c]. *)
Definition page_store_located (w : gmap Z Z) (p c : Z) : Prop :=
  ∀ pid, Dyn.int_of_str (Py.str_of_int p) = Some pid → w !! pid = Some c.

(** The session of a dry run of [main] with no switch, against a library
    that has the holding shelf and no book yet. *)
Definition orphaned_shelves : json :=
  JObj [("data", JArr [JObj [("id", JInt 1); ("name", JStr "9. Orphaned")]])].

Definition holding_book_json : json :=
  JObj [("id", JInt 2); ("name", JStr "Empty Chapters Holding")].

Definition fresh_library_session : session :=
  [ (* shelve_books *)
    (GET, "/shelves", json_reply 200 orphaned_shelves);
    (GET, "/books", json_reply 200 (JObj [("data", JArr [])]));
    (GET, "/shelves", json_reply 200 orphaned_shelves);
    (GET, "/shelves/1", json_reply 200 (JObj [("id", JInt 1); ("books", JArr [])]));
    (* ensure_holding_book *)
    (GET, "/shelves", json_reply 200 orphaned_shelves);
    (GET, "/books", json_reply 200 (JObj [("data", JArr [])]));
    (POST, "/books", json_reply 200 holding_book_json);
    (GET, "/shelves/1", json_reply 200 (JObj [("id", JInt 1); ("books", JArr [])]));
    (PUT, "/shelves/1", json_reply 200 (JObj [("id", JInt 1); ("books", JArr [holding_book_json])]));
    (* move_direct_pages *)
    (GET, "/books", json_reply 200 (JObj [("data", JArr [holding_book_json])]));
    (GET, "/books/2", json_reply 200 (JObj [("id", JInt 2); ("contents", JArr [])]));
    (* move_empty_chapters *)
    (GET, "/books", json_reply 200 (JObj [("data", JArr [holding_book_json])]));
    (* delete_junk_pages *)
    (GET, "/search?query=New%20Page", json_reply 200 (JObj [("data", JArr [])]));
    (GET, "/search?query=Test", json_reply 200 (JObj [("data", JArr [])])) ].

Definition dry_run : options := Options false false false false false.

(** ** Vocabulary of the specifications *)

(** The Retry-After header, when it is present and a positive integer. *)
Definition positive_retry_after (resp : response) : option Z :=
  h ← retry_after resp;
  d ← Dyn.int_of_str h;
  if 0 <? d then Some d else None.

(** The retry policy of the client, in the words of the specification: what
    a call that starts at a given attempt number may put on the wire, and
    how it then ends. *)
Inductive follows_retry_policy (m : method) (path : string) (body : option json)
  : Z → list wire_event → result json → Prop :=
  | policy_rate_limited attempt resp ws r :
      attempt < 5 →
      status_code resp = 429 →
      follows_retry_policy m path body (attempt + 1) ws r →
      follows_retry_policy m path body attempt
        (Sent m path body (Ok resp)
           :: Slept (default (Z.min 60 (2 ^ attempt)) (positive_retry_after resp))
           :: ws) r
  | policy_server_error attempt resp ws r :
      attempt < 5 →
      500 ≤ status_code resp < 600 →
      follows_retry_policy m path body (attempt + 1) ws r →
      follows_retry_policy m path body attempt
        (Sent m path body (Ok resp) :: Slept (Z.min 30 (2 ^ (attempt - 1))) :: ws) r
  | policy_failure attempt resp :
      resp_ok resp = false →
      attempt = 5 ∨ (status_code resp ≠ 429 ∧ ¬ 500 ≤ status_code resp < 600) →
      follows_retry_policy m path body attempt
        [Sent m path body (Ok resp)]
        (Raise (Exn "RuntimeError"
                  ("BookStack API " +:+ method_name m +:+ " " +:+ path +:+ " failed: "
                     +:+ Py.str_of_int (status_code resp) +:+ " " +:+ snippet resp)))
  | policy_success attempt resp :
      resp_ok resp = true →
      follows_retry_policy m path body attempt
        [Sent m path body (Ok resp)]
        (if Py.truthy_str (Py.strip (text resp)) then json_body resp else Ok JNull)
  | policy_transport_error attempt e :
      follows_retry_policy m path body attempt [Sent m path body (Raise e)] (Raise e).

(** The attempt numbers still to come: consecutive, the last one is 5. *)
Inductive attempts_from : Z → list Z → Prop :=
  | attempts_done : attempts_from 6 []
  | attempts_next a l : a ≤ 5 → attempts_from (a + 1) l → attempts_from a (a :: l).

Definition is_sent (ev : wire_event) : bool :=
  match ev with
  | Sent _ _ _ _ => true
  | Slept _ => false
  end.

(** The number of HTTP exchanges in a stretch of the wire log. *)
Definition exchanges (ws : list wire_event) : nat := length (List.filter is_sent ws).

(** A call, or an event on the wire, that only reads the remote store. *)
Definition reads_only_call (c : api_call) : Prop := call_method c = GET.

Definition reads_only_event (ev : wire_event) : Prop :=
  match ev with
  | Sent m _ _ _ => m = GET
  | Slept _ => True
  end.

(** A computation that, from any state, only adds reads to the two logs. *)
Definition reads_only {W A} (m : M W A) : Prop :=
  ∀ s, ∃ cs ws,
    calls (m s).2 = calls s ++ cs ∧ wire (m s).2 = wire s ++ ws
    ∧ Forall reads_only_call cs ∧ Forall reads_only_event ws.

(** The calls of the last listing that are not reads. *)
Definition writes (cs : list api_call) : list (method * string * option json) :=
  (λ c, (call_method c, call_path c, call_body c))
    <$> List.filter (λ c, negb (bool_decide (call_method c = GET))) cs.

(** Every DELETE call of a listing comes right after the successful fetch of
    the same path, and the page fetched was classified effectively empty.
    [prev] is the call before the listing, if any. *)
Fixpoint deletes_follow_fetch (prev : option api_call) (cs : list api_call) : Prop :=
  match cs with
  | [] => True
  | c :: cs' =>
      (call_method c = DELETE →
       ∃ g page, prev = Some g ∧ call_method g = GET ∧ call_path g = call_path c
                 ∧ call_result g = Ok page
                 ∧ is_effectively_empty_page page = Ok true)
      ∧ deletes_follow_fetch (Some c) cs'
  end.

(** What a stretch [cs] of the call log allows the junk detector to have
    done: deletes are justified, and there is none in a dry run. *)
Definition junk_safe (apply : bool) (cs : list api_call) : Prop :=
  deletes_follow_fetch None cs
  ∧ (apply = false → Forall (λ c, call_method c ≠ DELETE) cs).

(** What happened to the report over a stretch [cs] of the call log: entries
    were only added, the deleted ones are classified empty and the kept ones
    non-empty, and every page fetched in [cs] and classified non-empty has
    its entry among the kept ones. *)
Definition junk_progress (cs : list api_call) (rep rep' : junk_report) : Prop :=
  ∃ d k,
    junk_deleted rep' = junk_deleted rep ++ d
    ∧ junk_kept rep' = junk_kept rep ++ k
    ∧ Forall (λ e, junk_empty e = true) d
    ∧ Forall (λ e, junk_empty e = false) k
    ∧ ∀ pid page,
        ApiCall GET (page_path pid) None (Ok page) ∈ cs →
        is_effectively_empty_page page = Ok false →
        ∃ e, e ∈ k ∧ junk_id e = pid ∧ junk_empty e = false.

(** A session of the junk detector: one page titled New Page that holds a
    bare heading, one page titled Test that holds a paragraph of text. *)
Definition junk_session : session :=
  [ (GET, "/search?query=New%20Page",
     json_reply 200 (JObj [("data", JArr [JObj [("type", JStr "page"); ("name", JStr "New Page");
                                              ("id", JInt 41)];
                                        JObj [("type", JStr "page"); ("name", JStr "New Page Two");
                                              ("id", JInt 42)]])]));
    (GET, "/pages/41",
     json_reply 200 (JObj [("id", JInt 41); ("book_id", JInt 3); ("chapter_id", JInt 0);
                           ("html", JStr "<h1>New Page</h1>")]));
    (DELETE, "/pages/41", Ok (Response 204 None "" (Raise (Exn "JSONDecodeError" "Expecting value"))));
    (GET, "/search?query=Test",
     json_reply 200 (JObj [("data", JArr [JObj [("type", JStr "page"); ("name", JStr "Test");
                                              ("id", JInt 57)]])]));
    (GET, "/pages/57",
     json_reply 200 (JObj [("id", JInt 57); ("book_id", JInt 3); ("chapter_id", JInt 9);
                           ("html", JStr "<p>Torque values for the test rig, see the table below.</p>")])) ].

(** A sweep of three empty chapters of book 7 into the holding book 2: the
    second one is refused twice, the third one once. *)
Definition three_chapters : list json :=
  [ JObj [("id", JInt 31); ("type", JStr "chapter"); ("name", JStr "Relays"); ("pages", JArr [])];
    JObj [("id", JInt 32); ("type", JStr "chapter"); ("name", JStr "Drives"); ("pages", JArr [])];
    JObj [("id", JInt 33); ("type", JStr "chapter"); ("name", JStr "Panels"); ("pages", JArr [])] ].

Definition sweep_session : session :=
  [ (GET, "/books", json_reply 200 (JObj [("data", JArr [JObj [("id", JInt 2)];
                                                       JObj [("id", JInt 7)]])]));
    (GET, "/books/7", json_reply 200 (JObj [("id", JInt 7); ("name", JStr "Controls");
                                           ("contents", JArr three_chapters)]));
    (PUT, "/chapters/31", json_reply 200 (JObj [("id", JInt 31)]));
    (PUT, "/chapters/32", text_reply 422 "The name has already been taken.");
    (PUT, "/chapters/32", text_reply 422 "The slug has already been taken.");
    (PUT, "/chapters/33", text_reply 422 "The name has already been taken.");
    (PUT, "/chapters/33", json_reply 200 (JObj [("id", JInt 33)])) ].

(** A page whose content field holds a list instead of a string. *)
Definition odd_page : json :=
  JObj [("id", JInt 41); ("book_id", JInt 3); ("chapter_id", JInt 0);
        ("html", JArr [JStr "<p>Torque values for the test rig, see the table below.</p>"])].

Definition odd_page_session : session :=
  [ (GET, "/pages/41", json_reply 200 odd_page);
    (DELETE, "/pages/41", Ok (Response 204 None "" (Raise (Exn "JSONDecodeError" "Expecting value")))) ].

(** The second chapter of the sweep, met after the first one was moved:
    what is left of the session at that point. *)
Definition drives_chapter : json :=
  JObj [("id", JInt 32); ("type", JStr "chapter"); ("name", JStr "Drives"); ("pages", JArr [])].

Definition panels_chapter : json :=
  JObj [("id", JInt 33); ("type", JStr "chapter"); ("name", JStr "Panels"); ("pages", JArr [])].

Definition drives_session : session :=
  [ (PUT, "/chapters/32", text_reply 422 "The name has already been taken.");
    (PUT, "/chapters/32", text_reply 422 "The slug has already been taken.");
    (PUT, "/chapters/33", json_reply 200 (JObj [("id", JInt 33)])) ].

Definition controls_book : list (string * json) :=
  [("id", JInt 7); ("name", JStr "Controls")].

(** A string made of blanks only. *)
Fixpoint all_space (s : string) : bool :=
  match s with
  | EmptyString => true
  | String c s' => Py.isspace c && all_space s'
  end.

(** A pattern text no character of which can match a blank, with or
    without the flag IGNORECASE. *)
Fixpoint solid (p : string) : bool :=
  match p with
  | EmptyString => true
  | String a p' => negb (Py.isspace a) && negb (Py.isspace (Py.lower_char a)) && solid p'
  end.

(** A session in which the server rate-limits twice, fails once, and then
    refuses the request. *)
Definition backoff_session : session :=
  [ (GET, "/books", Ok (Response 429 (Some "7") "slow down" (Ok JNull)));
    (GET, "/books", Ok (Response 429 (Some "soon") "slow down" (Ok JNull)));
    (GET, "/books", text_reply 503 "unavailable");
    (GET, "/books", text_reply 404 "no such thing");
    (GET, "/books", json_reply 200 JNull) ].

(** What the idempotence of a move assumes of the remote store, for a
    reading [located w p c] of its worlds (in the world [w] the page [p] is
    in the chapter [c]): an update of the chapter of a page that is answered
    with a success status has moved the page; a read moves no page; a page
    fetched with success shows the chapter it is in. *)
Definition honours_moves {W}
    (transport : W → method → string → option json → result response * W)
    (located : W → Z → Z → Prop) : Prop :=
  (∀ w p c resp w',
     transport w PUT (page_path p) (Some (JObj [("chapter_id", JInt c)])) = (Ok resp, w') →
     resp_ok resp = true → located w' p c)
  ∧ (∀ w path body reply w' p c,
       located w p c → transport w GET path body = (reply, w') → located w' p c)
  ∧ (∀ w p c resp w' page,
       located w p c →
       transport w GET (page_path p) None = (Ok resp, w') →
       resp_ok resp = true → json_body resp = Ok page →
       Dyn.get page "chapter_id" = Ok (JInt c)).

(** ** Vocabulary of the further properties *)

(** Every character of the string is of the class. *)
Fixpoint all_chars (cls : ascii → bool) (s : string) : bool :=
  match s with
  | EmptyString => true
  | String c s' => cls c && all_chars cls s'
  end.

(** A dotted number: runs of digits separated by single dots.
    [after_digit] tells that the previous character was a digit. *)
Fixpoint dotted_from (after_digit : bool) (s : string) : bool :=
  match s with
  | EmptyString => after_digit
  | String c s' =>
      if Py.isdigit c then dotted_from true s'
      else if Ascii.eqb c "." then after_digit && dotted_from false s'
      else false
  end.

Definition dotted_number (s : string) : bool := dotted_from false s.

(** The text does not start with a word character. *)
Definition at_boundary (s : string) : bool :=
  match s with
  | EmptyString => true
  | String c _ => negb (Py.isword c)
  end.

(** Two candidates that share two words. *)
Definition power_candidates : list chapter :=
  [ Chapter 21 "Power Systems" {[ "power"; "systems" ]} None;
    Chapter 22 "Power Systems Grounding" {[ "power"; "systems"; "grounding" ]} None ].

(** A text in which every blank is a plain space that follows no blank.
    [after_blank] tells that the previous character was a blank. *)
Fixpoint single_spaced (after_blank : bool) (s : string) : bool :=
  match s with
  | EmptyString => true
  | String c s' =>
      if Py.isspace c
      then Ascii.eqb c " " && negb after_blank && single_spaced true s'
      else single_spaced false s'
  end.

(** The same for a text that does not end with a blank. *)
Fixpoint words_from (after_blank : bool) (s : string) : bool :=
  match s with
  | EmptyString => negb after_blank
  | String c s' =>
      if Py.isspace c
      then Ascii.eqb c " " && negb after_blank && words_from true s'
      else words_from false s'
  end.

(** A text in normal form: empty, or words separated by single plain
    spaces, with no blank at either end. *)
Definition normalized (s : string) : bool :=
  match s with
  | EmptyString => true
  | _ => words_from true s
  end.

(** The content field [k] of the page is absent, or holds a falsy value. *)
Definition no_content (fields : list (string * json)) (k : string) : Prop :=
  Dyn.truthy (default JNull (Dyn.assoc k fields)) = false.

(** The time slept over a stretch of the wire log. *)
Fixpoint total_sleep (ws : list wire_event) : Z :=
  match ws with
  | [] => 0
  | Slept d :: ws' => d + total_sleep ws'
  | Sent _ _ _ _ :: ws' => total_sleep ws'
  end.

(** A session in which the server fails twice and then answers with an
    empty body. *)
Definition flaky_session : session :=
  [ (DELETE, "/pages/41", text_reply 502 "bad gateway");
    (DELETE, "/pages/41", text_reply 503 "unavailable");
    (DELETE, "/pages/41",
     Ok (Response 204 None "" (Raise (Exn "JSONDecodeError" "Expecting value")))) ].

(** A computation that, from any state, only adds allowed calls to the
    call log. *)
Definition confined {W A} (allowed : api_call → Prop) (m : M W A) : Prop :=
  ∀ s, ∃ cs, calls (m s).2 = calls s ++ cs ∧ Forall allowed cs.

(** The kinds of calls the two programs make, besides the reads: the
    creation of a book; *)
Definition is_create_book (c : api_call) : Prop :=
  call_method c = POST ∧ call_path c = "/books".

(** the creation of a chapter; *)
Definition is_create_chapter (c : api_call) : Prop :=
  call_method c = POST ∧ call_path c = "/chapters".

(** the update of the books of a shelf; *)
Definition is_shelf_update (c : api_call) : Prop :=
  call_method c = PUT ∧ ∃ sid books,
    call_path c = "/shelves/" +:+ Py.str_of_int sid
    ∧ call_body c = Some (JObj [("books", JArr (JInt <$> books))]).

(** the move of a page into a chapter; *)
Definition is_page_move (c : api_call) : Prop :=
  call_method c = PUT ∧ ∃ pid t,
    call_path c = page_path pid ∧ call_body c = Some (JObj [("chapter_id", JInt t)]).

(** the move of a chapter into the book [h], with a new name or not; *)
Definition is_chapter_move (h : Z) (c : api_call) : Prop :=
  call_method c = PUT ∧ ∃ ch fields,
    call_path c = chapter_path ch
    ∧ call_body c = Some (JObj (("book_id", JInt h) :: fields)).

(** the deletion of a page. *)
Definition is_page_delete (c : api_call) : Prop :=
  call_method c = DELETE ∧ ∃ pid, call_path c = page_path pid.

(** What a run of [main] may do, given its switches: reads; for the holding
    book, its creation and the update of a shelf, dry run or not; and, when
    changes are applied, what each step that is not switched off writes. *)
Definition main_allowed (args : options) (c : api_call) : Prop :=
  reads_only_call c
  ∨ (opt_skip_empty_chapters args = false ∧ (is_create_book c ∨ is_shelf_update c))
  ∨ (opt_apply args = true ∧
     ((opt_skip_shelving args = false ∧ is_shelf_update c)
      ∨ (opt_skip_pages args = false ∧ (is_create_chapter c ∨ is_page_move c))
      ∨ (opt_skip_empty_chapters args = false ∧ ∃ h, is_chapter_move h c)
      ∨ (opt_skip_deletes args = false ∧ is_page_delete c))).

(** What the counters of the sweep satisfy at any time. *)
Definition sweep_counters_ok (apply : bool) (rep : sweep_report) : Prop :=
  0 ≤ sweep_renamed rep ≤ sweep_moved rep
  ∧ (apply = false → sweep_renamed rep = 0 ∧ sweep_failures rep = []).

(** What the counters of the direct pages satisfy at any time. *)
Definition direct_pages_counters_ok (rep : direct_pages_report) : Prop :=
  0 ≤ dp_assigned rep ≤ dp_moved rep
  ∧ dp_moved rep ≤ dp_assigned rep + dp_inboxed rep
  ∧ 0 ≤ dp_inbox_created rep ≤ dp_inboxed rep
  ∧ (length (dp_samples rep) ≤ 20)%nat
  ∧ Z.of_nat (length (dp_samples rep)) ≤ dp_moved rep.

(** A book with two chapters and three direct pages: one goes to a chapter
    by its prefix, two find no chapter and go to the inbox that is created
    for them. *)
Definition direct_pages_session : session :=
  [ (GET, "/books", json_reply 200 (JObj [("data", JArr [JObj [("id", JInt 7)]])]));
    (GET, "/books/7",
     json_reply 200
       (JObj [("id", JInt 7); ("name", JStr "Controls");
              ("contents",
               JArr [JObj [("id", JInt 31); ("type", JStr "chapter"); ("name", JStr "1. Relays")];
                     JObj [("id", JInt 32); ("type", JStr "chapter"); ("name", JStr "2. Drives")];
                     JObj [("id", JInt 41); ("type", JStr "page"); ("name", JStr "2 Sizing a drive")];
                     JObj [("id", JInt 42); ("type", JStr "page"); ("name", JStr "Scratch")];
                     JObj [("id", JInt 43); ("type", JStr "page"); ("name", JStr "Overview")]])]));
    (PUT, "/pages/41", json_reply 200 (JObj [("id", JInt 41)]));
    (POST, "/chapters", json_reply 200 (JObj [("id", JInt 33)]));
    (PUT, "/pages/42", json_reply 200 (JObj [("id", JInt 42)]));
    (PUT, "/pages/43", json_reply 200 (JObj [("id", JInt 43)])) ].

(** The inbox chapter listed in the contents of a book, if any. *)
Definition inbox_of (book : json) : result (option Z) :=
  contents ← Dyn.get_default book "contents" (JArr []);
  items ← Dyn.iter (Dyn.or_else contents (JArr []));
  find_inbox items.

(** A library without the holding shelf. *)
Definition no_holding_shelf_session : session :=
  [ (GET, "/shelves",
     json_reply 200 (JObj [("data", JArr [JObj [("id", JInt 1); ("name", JStr "1. Onboarding")]])])) ].

(** A library in which the holding book exists and is on the holding shelf. *)
Definition settled_library_session : session :=
  [ (GET, "/shelves", json_reply 200 orphaned_shelves);
    (GET, "/books", json_reply 200 (JObj [("data", JArr [holding_book_json])]));
    (GET, "/shelves/1",
     json_reply 200 (JObj [("id", JInt 1); ("books", JArr [holding_book_json])])) ].

(** A search that answers with a page twice, with a page of a longer name,
    with a chapter of the same name and with another page. *)
Definition search_session : session :=
  [ (GET, "/search?query=Test",
     json_reply 200
       (JObj [("data",
               JArr [JObj [("type", JStr "page"); ("name", JStr "Test"); ("id", JInt 57)];
                     JObj [("type", JStr "page"); ("name", JStr "Test plan"); ("id", JInt 58)];
                     JObj [("type", JStr "chapter"); ("name", JStr "Test"); ("id", JInt 9)];
                     JObj [("type", JStr "page"); ("name", JStr "Test"); ("id", JInt 12)];
                     JObj [("type", JStr "page"); ("name", JStr "Test"); ("id", JInt 57)]])])) ].

(** A book that already has its inbox chapter. *)
Definition book_with_inbox : json :=
  JObj [("id", JInt 7); ("name", JStr "Controls");
        ("contents",
         JArr [JObj [("id", JInt 33); ("type", JStr "chapter");
                     ("name", JStr "00. Inbox (Unsorted)")];
               JObj [("id", JInt 42); ("type", JStr "page"); ("name", JStr "Scratch")]])].

(** A book whose contents list two chapters of the same name. *)
Definition first_twin : json :=
  JObj [("id", JInt 886); ("type", JStr "chapter");
        ("name", JStr "2.1 Control System Architecture")].

Definition twin_chapters : list json :=
  [ first_twin;
    JObj [("id", JInt 41); ("type", JStr "page"); ("name", JStr "Scratch")];
    JObj [("id", JInt 890); ("type", JStr "chapter");
          ("name", JStr "2.1 Control System Architecture")] ].

Definition templates_spec : chapter_spec :=
  ChapterSpec 413 "Templates" "Reusable proposal templates and examples".

(** The book 413 has no chapter yet; the chapter Templates is created. *)
Definition templates_session : session :=
  [ (GET, "/books/413", json_reply 200 (JObj [("id", JInt 413); ("contents", JArr [])]));
    (POST, "/chapters", json_reply 200 (JObj [("id", JInt 990)])) ].

(** Two pages for the chapter Templates of the book 413, one page for the
    chapter 936. *)
Definition small_table : list (Z * target) :=
  [ (816, TargetSpec templates_spec); (1049, TargetId 936); (817, TargetSpec templates_spec) ].

Definition small_table_session : session :=
  [ (GET, "/books/413", json_reply 200 (JObj [("id", JInt 413); ("contents", JArr [])]));
    (POST, "/chapters", json_reply 200 (JObj [("id", JInt 990)]));
    (GET, "/pages/816", json_reply 200 (page_json 816 7));
    (PUT, "/pages/816", json_reply 200 (page_json 816 990));
    (GET, "/pages/817", json_reply 200 (page_json 817 990));
    (GET, "/pages/1049", json_reply 200 (page_json 1049 7));
    (PUT, "/pages/1049", json_reply 200 (page_json 1049 936)) ].


(** A settings file with a comment, blank lines, quoted values, a line
    without an equal sign, and a key given twice. *)
Definition sample_env_file : string :=
  "# BookStack API" +:+ String newline ""
  +:+ String newline ""
  +:+ "BOOKSTACK_URL = 'https://kb.example.org/' " +:+ String newline ""
  +:+ "export" +:+ String newline ""
  +:+ "BOOKSTACK_TOKEN_ID=abc" +:+ String (ascii_of_N 13) (String newline "")
  +:+ "BOOKSTACK_TOKEN_SECRET=" +:+ String Dyn.dquote "s=cr3t" +:+ String Dyn.dquote ""
  +:+ String newline ""
  +:+ "BOOKSTACK_TOKEN_ID=xyz".

(** * Properties *)

(** ** The classifier *)

Example extract_numeric_prefix_examples :
  extract_numeric_prefix "3.1 AutoCAD" = Some "3.1"
  ∧ extract_numeric_prefix "2 Getting Started" = Some "2"
  ∧ extract_numeric_prefix "  10.2.3. Notes" = Some "10.2.3"
  ∧ extract_numeric_prefix "3.1a" = Some "3"
  ∧ extract_numeric_prefix "31a" = None
  ∧ extract_numeric_prefix "AutoCAD 3.1" = None.
Proof. repeat split; reflexivity. Qed.

Example tokenize_examples :
  tokenize "Grounding Basics" = {[ "grounding"; "basics" ]}
  ∧ tokenize "How to Use the I/O of a PLC" = {[ "use"; "plc" ]}
  ∧ tokenize "3.1 AutoCAD Basics" = {[ "autocad"; "basics" ]}.
Proof. repeat split; vm_compute; reflexivity. Qed.

Section Classifier.

Implicit Types (toks : gset string) (ch b : chapter) (chs : list chapter).

(** A numeric prefix, when there is one, is never the empty string. The scan
    steps over one or two characters at a time, hence the paired induction. *)
Lemma prefix_scan_nonempty_pair s :
  (∀ fallback cur p,
     cur ≠ "" → (∀ f, fallback = Some f → f ≠ "") →
     prefix_scan fallback cur s = Some p → p ≠ "")
  ∧ (∀ c fallback cur p,
     cur ≠ "" → (∀ f, fallback = Some f → f ≠ "") →
     prefix_scan fallback cur (String c s) = Some p → p ≠ "").
Proof.
  induction s as [|d s [IH1 IH2]].
  - split.
    + simpl. congruence.
    + intros c fallback cur p Hcur Hfb. simpl.
      repeat case_match; try congruence; eauto.
      all: intros [= <-]; by destruct cur.
  - split; [exact (IH2 d)|].
    intros c fallback cur p Hcur Hfb.
    change (prefix_scan fallback cur (String c (String d s))) with
      (if Py.isdigit c then prefix_scan fallback (cur +:+ String c "") (String d s)
       else if Ascii.eqb c "." then
         (if Py.isdigit d
          then prefix_scan (Some cur) (cur +:+ String c (String d "")) s
          else Some cur)
       else if Py.isword c then fallback else Some cur).
    repeat case_match; try congruence; eauto.
    + apply IH2; [by destruct cur | done].
    + apply IH1; [by destruct cur | congruence].
Qed.

Lemma extract_numeric_prefix_nonempty title p :
  extract_numeric_prefix title = Some p → Py.truthy_str p = true.
Proof.
  unfold extract_numeric_prefix. intros H.
  assert (p ≠ "") as Hp.
  { destruct (Py.lstrip title) as [|c s]; [done|].
    destruct (Py.isdigit c); [|done].
    eapply (proj1 (prefix_scan_nonempty_pair s)); [| |exact H]; congruence. }
  unfold Py.truthy_str. by destruct p.
Qed.

Local Abbreviation overlap toks ch := (Z.of_nat (size (toks ∩ ch_tokens ch))).

(** What the scoring loop leaves behind: either nothing beat the start
    state, or the state describes one of the chapters; the score never
    decreases and bounds the overlap of every chapter seen. *)
Lemma fold_best_step_spec toks chs st :
  let st' := fold_left (best_step toks) chs st in
  (st' = st ∨ ∃ b, b ∈ chs ∧ st' = Best (Some b) (overlap toks b) (toks ∩ ch_tokens b))
  ∧ best_score st ≤ best_score st'
  ∧ ∀ c, c ∈ chs → overlap toks c ≤ best_score st'.
Proof.
  revert st. induction chs as [|c chs IH]; intros st; simpl.
  - split; [by left|]. split; [lia|]. intros c Hc. by apply elem_of_nil in Hc.
  - destruct (IH (best_step toks st c)) as (Hst & Hle & Hall).
    assert (Hstep : best_score st ≤ best_score (best_step toks st c)
                    ∧ overlap toks c ≤ best_score (best_step toks st c)).
    { unfold best_step. destruct (Z.ltb_spec (best_score st) (overlap toks c)); simpl; lia. }
    split; [|split].
    + destruct Hst as [-> | (b & Hb & ->)].
      * unfold best_step. destruct (best_score st <? overlap toks c).
        -- right. exists c. split; [left|done].
        -- by left.
      * right. exists b. split; [by right|done].
    + lia.
    + intros c' [->|Hc']%elem_of_cons; [lia|by apply Hall].
Qed.

(** A state that already bounds every overlap is left unchanged: on a tie
    the first chapter met is kept. *)
Lemma fold_best_step_stable toks chs st :
  (∀ c, c ∈ chs → overlap toks c ≤ best_score st) →
  fold_left (best_step toks) chs st = st.
Proof.
  revert st. induction chs as [|c chs IH]; intros st Hall; simpl; [done|].
  assert (best_step toks st c = st) as ->.
  { unfold best_step. specialize (Hall c (list_elem_of_here _ _)).
    destruct (Z.ltb_spec (best_score st) (overlap toks c)); [lia|done]. }
  apply IH. intros c' Hc'. apply Hall. by right.
Qed.

(** On a non-empty list the loop always ends on one of the chapters. *)
Lemma best_by_overlap_nonempty toks c chs :
  ∃ b, b ∈ c :: chs
     ∧ best_by_overlap toks (c :: chs) = Best (Some b) (overlap toks b) (toks ∩ ch_tokens b)
     ∧ ∀ c', c' ∈ c :: chs → overlap toks c' ≤ overlap toks b.
Proof.
  unfold best_by_overlap.
  destruct (fold_best_step_spec toks (c :: chs) best_init) as (Hst & _ & Hall).
  destruct Hst as [Heq | (b & Hb & Heq)].
  - specialize (Hall c (list_elem_of_here _ _)). rewrite Heq in Hall. simpl in Hall. lia.
  - exists b. split; [done|]. split; [done|].
    intros c' Hc'. specialize (Hall c' Hc'). by rewrite Heq in Hall.
Qed.

Lemma tokenize_length title tok : tok ∈ tokenize title → (2 ≤ String.length tok)%nat.
Proof.
  unfold tokenize. rewrite elem_of_list_to_set, list_elem_of_filter. by intros [? _].
Qed.

(** C7, as the code has it. When the title has a numeric prefix and exactly
    one candidate carries that prefix, the classifier returns that candidate,
    and the reason is the word prefix followed by a colon and the prefix
    itself. *)
Theorem unique_prefix_match title chapters p m :
  extract_numeric_prefix title = Some p →
  prefix_matches p chapters = [m] →
  best_chapter_for_page title chapters = (Some (ch_id m), "prefix:" +:+ p).
Proof.
  intros Hp Hm. unfold best_chapter_for_page, prefix_phase.
  rewrite Hp, (extract_numeric_prefix_nonempty _ _ Hp), Hm. done.
Qed.

Lemma unique_prefix_match_autocad :
  extract_numeric_prefix "3.1 AutoCAD Basics" = Some "3.1"
  ∧ prefix_matches "3.1" autocad_candidates
    = [Chapter 936 "3.1 AutoCAD Core Skills" {[ "autocad"; "core"; "skills" ]} (Some "3.1")]
  ∧ best_chapter_for_page "3.1 AutoCAD Basics" autocad_candidates
    = (Some 936, "prefix:3.1").
Proof.
  assert (H1 : extract_numeric_prefix "3.1 AutoCAD Basics" = Some "3.1") by reflexivity.
  assert (H2 : prefix_matches "3.1" autocad_candidates
    = [Chapter 936 "3.1 AutoCAD Core Skills" {[ "autocad"; "core"; "skills" ]} (Some "3.1")])
    by reflexivity.
  split; [exact H1|]. split; [exact H2|].
  exact (unique_prefix_match _ _ _ _ H1 H2).
Defined.

(** C7, as the specification words it, fails on its own example: the reason
    returned for the title 3.1 AutoCAD Basics is not the bare word prefix. *)
Lemma prefix_reason_is_not_bare :
  best_chapter_for_page "3.1 AutoCAD Basics" autocad_candidates ≠ (Some 936, "prefix").
Proof. vm_compute. discriminate. Qed.

(** C9. When more than one candidate carries the title prefix, the prefix
    phase answers: the result is one of those candidates, with the reason
    prefix+overlap, the prefix and the winning overlap; the lexical phase is
    not consulted. When no candidate of the group shares a token with the
    title, the first of the group in input order is returned with overlap 0. *)
Theorem shared_prefix_never_falls_through title chapters p :
  extract_numeric_prefix title = Some p →
  (1 < length (prefix_matches p chapters))%nat →
  ∃ b, b ∈ prefix_matches p chapters
    ∧ prefix_phase title chapters = Some (best_chapter_for_page title chapters)
    ∧ best_chapter_for_page title chapters
      = (Some (ch_id b),
         "prefix+overlap:" +:+ p +:+ ":" +:+ Py.str_of_int (overlap (tokenize title) b))
    ∧ (∀ c, c ∈ prefix_matches p chapters →
            overlap (tokenize title) c ≤ overlap (tokenize title) b)
    ∧ ((∀ c, c ∈ prefix_matches p chapters → size (tokenize title ∩ ch_tokens c) = 0%nat) →
       head (prefix_matches p chapters) = Some b
       ∧ best_chapter_for_page title chapters
         = (Some (ch_id b), "prefix+overlap:" +:+ p +:+ ":0")).
Proof.
  intros Hp Hlen. unfold best_chapter_for_page, prefix_phase.
  rewrite Hp, (extract_numeric_prefix_nonempty _ _ Hp).
  destruct (prefix_matches p chapters) as [|m1 [|m2 ms]] eqn:Hms; simpl in Hlen; try lia.
  destruct (best_by_overlap_nonempty (tokenize title) m1 (m2 :: ms)) as (b & Hb & Hbest & Hmax).
  rewrite Hbest. simpl best. simpl best_score.
  exists b. do 4 (split; [done|]). intros Hzero. split.
  -
    assert (best_by_overlap (tokenize title) (m1 :: m2 :: ms)
            = Best (Some m1) 0 (tokenize title ∩ ch_tokens m1)) as Hfirst.
    { unfold best_by_overlap.
      assert (Hm1 : size (tokenize title ∩ ch_tokens m1) = 0%nat)
        by (apply Hzero; left).
      assert (best_step (tokenize title) best_init m1
              = Best (Some m1) 0 (tokenize title ∩ ch_tokens m1)) as Hstep
        by (unfold best_step; rewrite Hm1; done).
      change (fold_left (best_step (tokenize title)) (m1 :: m2 :: ms) best_init)
        with (fold_left (best_step (tokenize title)) (m2 :: ms)
                (best_step (tokenize title) best_init m1)).
      rewrite Hstep.
      apply fold_best_step_stable. intros c Hc. simpl.
      rewrite (Hzero c); [lia | by right]. }
    rewrite Hfirst in Hbest. by injection Hbest as <- _.
  - rewrite (Hzero b Hb). done.
Qed.

Lemma shared_prefix_duplicates :
  ∃ b, b ∈ prefix_matches "2.1" duplicate_candidates
    ∧ prefix_phase "2.1 Wiring" duplicate_candidates
      = Some (best_chapter_for_page "2.1 Wiring" duplicate_candidates)
    ∧ best_chapter_for_page "2.1 Wiring" duplicate_candidates
      = (Some (ch_id b),
         "prefix+overlap:" +:+ "2.1" +:+ ":" +:+ Py.str_of_int (overlap (tokenize "2.1 Wiring") b))
    ∧ (∀ c, c ∈ prefix_matches "2.1" duplicate_candidates →
            overlap (tokenize "2.1 Wiring") c ≤ overlap (tokenize "2.1 Wiring") b)
    ∧ ((∀ c, c ∈ prefix_matches "2.1" duplicate_candidates →
             size (tokenize "2.1 Wiring" ∩ ch_tokens c) = 0%nat) →
       head (prefix_matches "2.1" duplicate_candidates) = Some b
       ∧ best_chapter_for_page "2.1 Wiring" duplicate_candidates
         = (Some (ch_id b), "prefix+overlap:" +:+ "2.1" +:+ ":0")).
Proof.
  apply (shared_prefix_never_falls_through "2.1 Wiring" duplicate_candidates "2.1").
  - reflexivity.
  - vm_compute. lia.
Defined.

Example shared_prefix_duplicates_value :
  best_chapter_for_page "2.1 Wiring" duplicate_candidates
  = (Some 886, "prefix+overlap:2.1:0").
Proof. vm_compute. reflexivity. Qed.

(** The lexical phase is reached when the title has no numeric prefix, or no
    candidate carries it. *)
Lemma prefix_phase_falls_through title chapters :
  (∀ p, extract_numeric_prefix title = Some p → prefix_matches p chapters = []) →
  prefix_phase title chapters = None.
Proof.
  intros H. unfold prefix_phase.
  destruct (extract_numeric_prefix title) as [p|]; [|done].
  rewrite (H p eq_refl). by destruct (Py.truthy_str p).
Qed.

(** C8. In the lexical phase, when the best overlap is exactly one token, the
    best candidate is accepted, with the reason weak-overlap and the token,
    if and only if that token is not in the weak list; otherwise there is no
    match and the reason is low-confidence. *)
Theorem lexical_single_overlap title chapters :
  (∀ p, extract_numeric_prefix title = Some p → prefix_matches p chapters = []) →
  (∀ c, c ∈ chapters → (size (tokenize title ∩ ch_tokens c) ≤ 1)%nat) →
  (∃ c, c ∈ chapters ∧ size (tokenize title ∩ ch_tokens c) = 1%nat) →
  ∃ b tok, b ∈ chapters
    ∧ tokenize title ∩ ch_tokens b = {[ tok ]}
    ∧ (tok ∉ WEAK_TOKENS →
       best_chapter_for_page title chapters = (Some (ch_id b), "weak-overlap:" +:+ tok))
    ∧ (tok ∈ WEAK_TOKENS →
       best_chapter_for_page title chapters = (None, "low-confidence")).
Proof.
  intros Hlex Hmax (c & Hc & Hc1).
  unfold best_chapter_for_page. rewrite (prefix_phase_falls_through _ _ Hlex).
  unfold lexical_phase.
  destruct chapters as [|c0 chs]; [by apply elem_of_nil in Hc|].
  destruct (best_by_overlap_nonempty (tokenize title) c0 chs) as (b & Hb & Hbest & Hbmax).
  assert (Hb1 : size (tokenize title ∩ ch_tokens b) = 1%nat).
  { specialize (Hbmax c Hc). specialize (Hmax b Hb). lia. }
  rewrite Hbest. simpl best. simpl best_score. simpl best_intersection. rewrite Hb1.
  destruct (size_1_elem_of _ Hb1) as [tok Htok]. apply leibniz_equiv in Htok.
  exists b, tok. split; [done|]. split; [done|].
  rewrite Htok, elements_singleton.
  assert (Py.truthy_str tok = true) as ->.
  { assert (tok ∈ tokenize title ∩ ch_tokens b) as Hin
      by (rewrite Htok; by apply elem_of_singleton).
    apply elem_of_intersection in Hin as [Hin _].
    apply tokenize_length in Hin. destruct tok; [simpl in Hin; lia | done]. }
  change (1 <=? 0) with false. change (2 <=? 1) with false. cbv iota.
  rewrite andb_true_l.
  split; intros Hw.
  - by rewrite bool_decide_eq_true_2.
  - rewrite bool_decide_eq_false_2; [done|]. intros Hn. exact (Hn Hw).
Qed.

Lemma lexical_single_overlap_grounding :
  ∃ b tok, b ∈ grounding_candidates
    ∧ tokenize "Grounding Basics" ∩ ch_tokens b = {[ tok ]}
    ∧ (tok ∉ WEAK_TOKENS →
       best_chapter_for_page "Grounding Basics" grounding_candidates
       = (Some (ch_id b), "weak-overlap:" +:+ tok))
    ∧ (tok ∈ WEAK_TOKENS →
       best_chapter_for_page "Grounding Basics" grounding_candidates
       = (None, "low-confidence")).
Proof.
  apply (lexical_single_overlap "Grounding Basics" grounding_candidates).
  - intros p Hp. vm_compute in Hp. discriminate.
  - intros c ->%list_elem_of_singleton. vm_compute. lia.
  - eexists. split; [apply list_elem_of_here|]. vm_compute. reflexivity.
Defined.

(** The two single-token examples of the specification. *)
Example strong_single_token_accepted :
  best_chapter_for_page "Grounding Basics" grounding_candidates
  = (Some 12, "weak-overlap:grounding").
Proof. vm_compute. reflexivity. Qed.

Example weak_single_token_rejected :
  best_chapter_for_page "Overview" overview_candidates = (None, "low-confidence").
Proof. vm_compute. reflexivity. Qed.

End Classifier.

(** ** Trimming commutes with markup stripping *)

Lemma space_lower c : Py.isspace c = true → Py.lower_char c = c.
Proof.
  destruct c as [[] [] [] [] [] [] [] []]; try discriminate; reflexivity.
Qed.

Lemma eqb_space_solid a c :
  Py.isspace c = true → Py.isspace a = false → Ascii.eqb a c = false.
Proof.
  intros Hc Ha. destruct (Ascii.eqb_spec a c) as [->|]; [congruence|done].
Qed.

Lemma append_cons c (s t : string) : String c s +:+ t = String c (s +:+ t).
Proof. reflexivity. Qed.

Lemma append_nil_l (t : string) : "" +:+ t = t.
Proof. reflexivity. Qed.

Lemma length_append (s t : string) :
  String.length (s +:+ t) = (String.length s + String.length t)%nat.
Proof.
  induction s as [|c s IH]; [done|]. rewrite append_cons. simpl. by rewrite IH.
Qed.

Lemma append_assoc (s t u : string) : (s +:+ t) +:+ u = s +:+ (t +:+ u).
Proof.
  induction s as [|c s IH]; [done|]. rewrite !append_cons. by rewrite IH.
Qed.

Lemma append_nil_r (s : string) : s +:+ "" = s.
Proof. induction s as [|c s IH]; [done|]. rewrite append_cons. by rewrite IH. Qed.

Lemma all_space_append b b' : all_space (b +:+ b') = all_space b && all_space b'.
Proof.
  induction b as [|c b IH]; [done|]. rewrite append_cons. simpl.
  by rewrite IH, andb_assoc.
Qed.

Lemma drop_append n (r b : string) :
  (n ≤ String.length r)%nat → Py.drop n (r +:+ b) = Py.drop n r +:+ b.
Proof.
  revert r. induction n as [|n IH]; intros r Hn; [done|].
  destruct r as [|c r]; simpl in Hn; [lia|]. rewrite append_cons. simpl.
  apply IH. lia.
Qed.

Lemma length_drop n (s : string) :
  String.length (Py.drop n s) = (String.length s - n)%nat.
Proof.
  revert s. induction n as [|n IH]; intros s; destruct s as [|c s]; simpl; try done.
Qed.

(** *** The substitution, for a matcher that never sees a blank *)

Section SubBlank.

Variable match_len : string → option nat.
Variable repl : string.
Hypothesis match_empty : match_len "" = None.
Hypothesis match_space : ∀ c s, Py.isspace c = true → match_len (String c s) = None.
Hypothesis match_append : ∀ t b, all_space b = true → match_len (t +:+ b) = match_len t.
Hypothesis match_within : ∀ t n, match_len t = Some n → (n ≤ String.length t)%nat.

Lemma sub_cons_space c s :
  Py.isspace c = true →
  Re.sub match_len repl (String c s) = String c (Re.sub match_len repl s).
Proof. intros Hc. unfold Re.sub. simpl. by rewrite match_space. Qed.

Lemma sub_blank b : all_space b = true → Re.sub_with match_len repl 0 b = b.
Proof.
  induction b as [|c b IH]; simpl; [done|]. intros [Hc Hb]%andb_true_iff.
  by rewrite match_space, IH.
Qed.

Lemma sub_with_append_blank x k b :
  all_space b = true → (k ≤ String.length x)%nat →
  Re.sub_with match_len repl k (x +:+ b) = Re.sub_with match_len repl k x +:+ b.
Proof.
  intros Hb. revert k. induction x as [|c x IH]; intros k Hk.
  - simpl in Hk. assert (k = 0%nat) as -> by lia. rewrite append_nil_l.
    by apply sub_blank.
  - destruct k as [|k].
    + rewrite append_cons. simpl. rewrite <- append_cons.
      rewrite match_append by done.
      destruct (match_len (String c x)) as [n|] eqn:Hm.
      * apply match_within in Hm. simpl in Hm.
        rewrite IH by lia. by rewrite append_assoc.
      * rewrite IH by lia. by rewrite append_cons.
    + rewrite append_cons. simpl. apply IH. simpl in Hk. lia.
Qed.

Lemma sub_append_blank x b :
  all_space b = true → Re.sub match_len repl (x +:+ b) = Re.sub match_len repl x +:+ b.
Proof. intros Hb. apply sub_with_append_blank; [done|lia]. Qed.

End SubBlank.

(** *** The matchers of the source never see a blank *)

Lemma drop_prefix_ci_space p' a c s :
  solid (String a p') = true → Py.isspace c = true →
  Re.drop_prefix_ci (String a p') (String c s) = None.
Proof.
  simpl. intros [[_ Ha]%andb_true_iff _]%andb_true_iff Hc.
  rewrite (space_lower c Hc), eqb_space_solid; [done|done|].
  by apply negb_true_iff in Ha.
Qed.

Lemma drop_prefix_ci_blank p' a b :
  solid (String a p') = true → all_space b = true →
  Re.drop_prefix_ci (String a p') b = None.
Proof.
  intros Hp Hb. destruct b as [|c b]; [done|].
  simpl in Hb. apply andb_true_iff in Hb as [Hc _]. by apply drop_prefix_ci_space.
Qed.

Lemma drop_prefix_ci_append p t b :
  solid p = true → all_space b = true →
  Re.drop_prefix_ci p (t +:+ b) = (λ r, r +:+ b) <$> Re.drop_prefix_ci p t.
Proof.
  intros Hp Hb. revert t. induction p as [|a p IH]; intros t; [done|].
  destruct t as [|d t].
  - rewrite append_nil_l. by rewrite drop_prefix_ci_blank.
  - rewrite append_cons. simpl. destruct (Ascii.eqb _ _); [|done]. apply IH.
    simpl in Hp. by apply andb_true_iff in Hp as [_ Hp].
Qed.

Lemma drop_prefix_ci_length p t r :
  Re.drop_prefix_ci p t = Some r →
  String.length t = (String.length p + String.length r)%nat.
Proof.
  revert t. induction p as [|a p IH]; intros t; simpl.
  - by intros [= ->].
  - destruct t as [|d t]; [done|]. destruct (Ascii.eqb _ _); [|done].
    intros H. simpl. by rewrite (IH _ H).
Qed.

Lemma index_char_blank g b :
  Py.isspace g = false → all_space b = true → Re.index_char g b = None.
Proof.
  intros Hg. induction b as [|c b IH]; simpl; [done|].
  intros [Hc Hb]%andb_true_iff. rewrite eqb_space_solid, IH; done.
Qed.

Lemma index_char_append g r b :
  Py.isspace g = false → all_space b = true →
  Re.index_char g (r +:+ b) = Re.index_char g r.
Proof.
  intros Hg Hb. induction r as [|c r IH].
  - by apply index_char_blank.
  - rewrite append_cons. simpl. destruct (Ascii.eqb g c); [done|]. by rewrite IH.
Qed.

Lemma index_char_lt g r i :
  Re.index_char g r = Some i → (i < String.length r)%nat.
Proof.
  revert i. induction r as [|c r IH]; intros i; simpl; [done|].
  destruct (Ascii.eqb g c).
  - intros [= <-]. lia.
  - destruct (Re.index_char g r) as [j|]; [|done]. intros [= <-].
    specialize (IH j eq_refl). lia.
Qed.

Lemma index_ci_unfold p s :
  Re.index_ci p s
  = match Re.drop_prefix_ci p s with
    | Some _ => Some 0%nat
    | None => match s with
              | EmptyString => None
              | String _ s' => S <$> Re.index_ci p s'
              end
    end.
Proof. by destruct s. Qed.

Lemma index_ci_blank p' a b :
  solid (String a p') = true → all_space b = true →
  Re.index_ci (String a p') b = None.
Proof.
  intros Hp. induction b as [|c b IH]; [done|].
  intros Hb. rewrite index_ci_unfold, drop_prefix_ci_blank by done.
  simpl in Hb. apply andb_true_iff in Hb as [_ Hb]. by rewrite IH.
Qed.

Lemma index_ci_append p' a u b :
  solid (String a p') = true → all_space b = true →
  Re.index_ci (String a p') (u +:+ b) = Re.index_ci (String a p') u.
Proof.
  intros Hp Hb. induction u as [|c u IH].
  - rewrite append_nil_l. rewrite index_ci_blank by done. done.
  - rewrite (index_ci_unfold _ (String c u +:+ b)), (index_ci_unfold _ (String c u)).
    rewrite drop_prefix_ci_append by done.
    destruct (Re.drop_prefix_ci (String a p') (String c u)); [done|].
    rewrite append_cons. cbn [fmap option_fmap option_map]. by rewrite IH.
Qed.

Lemma index_ci_within p u j :
  Re.index_ci p u = Some j → (j + String.length p ≤ String.length u)%nat.
Proof.
  revert j. induction u as [|c u IH]; intros j; rewrite index_ci_unfold.
  - destruct (Re.drop_prefix_ci p "") eqn:Hd; [|done].
    intros [= <-]. apply drop_prefix_ci_length in Hd. lia.
  - destruct (Re.drop_prefix_ci p (String c u)) eqn:Hd.
    + intros [= <-]. apply drop_prefix_ci_length in Hd. lia.
    + destruct (Re.index_ci p u) as [i|]; [|done]. intros [= <-].
      specialize (IH i eq_refl). simpl. lia.
Qed.

Section ElementBlank.

Variable tag : string.
Hypothesis tag_solid : solid tag = true.

Let opening := "<" +:+ tag.
Let closing := "</" +:+ tag +:+ ">".

Lemma opening_solid : solid opening = true.
Proof. subst opening. simpl. exact tag_solid. Qed.

Lemma solid_append p q : solid (p +:+ q) = solid p && solid q.
Proof.
  induction p as [|a p IH]; [done|]. rewrite append_cons. simpl.
  by rewrite IH, !andb_assoc.
Qed.

Lemma closing_solid : solid closing = true.
Proof.
  subst closing. change ("</" +:+ tag +:+ ">") with (String "<" (String "/" (tag +:+ ">"))).
  simpl. rewrite solid_append, tag_solid. reflexivity.
Qed.

Lemma element_empty : Re.element tag "" = None.
Proof. reflexivity. Qed.

Lemma element_space c s : Py.isspace c = true → Re.element tag (String c s) = None.
Proof.
  intros Hc. unfold Re.element. fold opening.
  assert (Re.drop_prefix_ci opening (String c s) = None) as ->; [|done].
  apply drop_prefix_ci_space; [exact opening_solid|done].
Qed.

Lemma element_append t b :
  all_space b = true → Re.element tag (t +:+ b) = Re.element tag t.
Proof.
  intros Hb. unfold Re.element. fold opening. fold closing.
  rewrite drop_prefix_ci_append by (done || exact opening_solid).
  destruct (Re.drop_prefix_ci opening t) as [r1|]; [|done].
  cbn [mbind option_bind fmap option_fmap option_map].
  rewrite index_char_append by done.
  destruct (Re.index_char ">" r1) as [i|] eqn:Hi; [|done].
  cbn [mbind option_bind fmap option_fmap option_map].
  apply index_char_lt in Hi.
  rewrite drop_append by lia.
  pose proof closing_solid as Hcl. subst closing.
  change ("</" +:+ tag +:+ ">") with (String "<" (String "/" (tag +:+ ">"))) in *.
  by rewrite index_ci_append.
Qed.

Lemma element_within t n : Re.element tag t = Some n → (n ≤ String.length t)%nat.
Proof.
  unfold Re.element. fold opening. fold closing.
  destruct (Re.drop_prefix_ci opening t) as [r1|] eqn:Hd; [|done].
  cbn [mbind option_bind].
  destruct (Re.index_char ">" r1) as [i|] eqn:Hi; [|done].
  cbn [mbind option_bind].
  destruct (Re.index_ci closing (Py.drop (S i) r1)) as [j|] eqn:Hj; [|done].
  cbn [mbind option_bind].
  intros [= <-].
  apply drop_prefix_ci_length in Hd. apply index_char_lt in Hi.
  apply index_ci_within in Hj. rewrite length_drop in Hj.
  unfold opening, closing in *. rewrite !length_append in *. simpl in *. lia.
Qed.

End ElementBlank.

Lemma any_tag_space c s : Py.isspace c = true → Re.any_tag (String c s) = None.
Proof.
  intros Hc. unfold Re.any_tag.
  destruct (Ascii.eqb_spec c "<") as [->|]; [discriminate|done].
Qed.

Lemma any_tag_append t b :
  all_space b = true → Re.any_tag (t +:+ b) = Re.any_tag t.
Proof.
  intros Hb. destruct t as [|c t].
  - rewrite append_nil_l. destruct b as [|c b]; [done|].
    simpl in Hb. apply andb_true_iff in Hb as [Hc _]. by apply any_tag_space.
  - rewrite append_cons. unfold Re.any_tag.
    destruct (Ascii.eqb c "<"); [|done]. by rewrite index_char_append.
Qed.

Lemma any_tag_within t n : Re.any_tag t = Some n → (n ≤ String.length t)%nat.
Proof.
  destruct t as [|c t]; [done|]. unfold Re.any_tag.
  destruct (Ascii.eqb c "<"); [|done].
  destruct (Re.index_char ">" t) as [[|i]|] eqn:Hi; try done.
  intros [= <-]. apply index_char_lt in Hi. simpl. lia.
Qed.

Lemma drop_prefix_space p' a c s :
  solid (String a p') = true → Py.isspace c = true →
  Py.drop_prefix (String a p') (String c s) = None.
Proof.
  simpl. intros [[Ha _]%andb_true_iff _]%andb_true_iff Hc.
  rewrite eqb_space_solid; [done|done|]. by apply negb_true_iff in Ha.
Qed.

Lemma drop_prefix_append p t b :
  solid p = true → all_space b = true →
  Py.drop_prefix p (t +:+ b) = (λ r, r +:+ b) <$> Py.drop_prefix p t.
Proof.
  intros Hp Hb. revert t. induction p as [|a p IH]; intros t; [done|].
  destruct t as [|d t].
  - rewrite append_nil_l. destruct b as [|c b]; [done|].
    simpl in Hb. apply andb_true_iff in Hb as [Hc _]. by rewrite drop_prefix_space.
  - rewrite append_cons. simpl. destruct (Ascii.eqb _ _); [|done]. apply IH.
    simpl in Hp. by apply andb_true_iff in Hp as [_ Hp].
Qed.

Lemma drop_prefix_length p t r :
  Py.drop_prefix p t = Some r →
  String.length t = (String.length p + String.length r)%nat.
Proof.
  revert t. induction p as [|a p IH]; intros t; simpl.
  - by intros [= ->].
  - destruct t as [|d t]; [done|]. destruct (Ascii.eqb _ _); [|done].
    intros H. simpl. by rewrite (IH _ H).
Qed.

Section LiteralBlank.

Variables (a : ascii) (old' : string).
Hypothesis old_solid : solid (String a old') = true.

Lemma literal_empty : Re.literal (String a old') "" = None.
Proof. reflexivity. Qed.

Lemma literal_space c s :
  Py.isspace c = true → Re.literal (String a old') (String c s) = None.
Proof. intros Hc. unfold Re.literal. by rewrite drop_prefix_space. Qed.

Lemma literal_append t b :
  all_space b = true → Re.literal (String a old') (t +:+ b) = Re.literal (String a old') t.
Proof.
  intros Hb. unfold Re.literal. rewrite drop_prefix_append by done.
  by destruct (Py.drop_prefix (String a old') t).
Qed.

Lemma literal_within t n :
  Re.literal (String a old') t = Some n → (n ≤ String.length t)%nat.
Proof.
  unfold Re.literal. destruct (Py.drop_prefix (String a old') t) eqn:Hd; [|done].
  intros [= <-]. apply drop_prefix_length in Hd. simpl in *. lia.
Qed.

End LiteralBlank.

(** *** Collapsing the blanks, then trimming *)

Abbreviation collapse_from k s := (Re.sub_with (Re.plus_class Py.isspace) " " k s).

Lemma sub_with_skip_all {ml repl} k (s : string) :
  (String.length s ≤ k)%nat → Re.sub_with ml repl k s = "".
Proof.
  revert k. induction s as [|c s IH]; intros k Hk; [done|].
  destruct k as [|k]; simpl in Hk; [lia|]. simpl. apply IH. lia.
Qed.

Lemma run_length_le cls (s : string) : (Re.run_length cls s ≤ String.length s)%nat.
Proof. induction s as [|c s IH]; simpl; [done|]. destruct (cls c); simpl; lia. Qed.

Lemma run_length_all_space (s : string) :
  all_space s = true → Re.run_length Py.isspace s = String.length s.
Proof.
  induction s as [|c s IH]; simpl; [done|]. intros [-> Hs]%andb_true_iff.
  by rewrite IH.
Qed.

Lemma run_length_append (y b : string) :
  all_space y = false →
  Re.run_length Py.isspace (y +:+ b) = Re.run_length Py.isspace y.
Proof.
  induction y as [|c y IH]; [done|]. rewrite append_cons. simpl.
  destruct (Py.isspace c); simpl; [|done]. intros Hy. by rewrite IH.
Qed.

Lemma lstrip_all_space (s : string) : all_space s = true → Py.lstrip s = "".
Proof.
  induction s as [|c s IH]; simpl; [done|]. intros [Hc Hs]%andb_true_iff.
  rewrite Hc. by apply IH.
Qed.

(** Skipping the leading blanks of a text is trimming it on the left. *)
Lemma collapse_skip_run (y : string) :
  collapse_from (Re.run_length Py.isspace y) y = collapse_from 0 (Py.lstrip y).
Proof.
  induction y as [|c y IH]; [done|]. simpl Re.run_length. simpl Py.lstrip.
  destruct (Py.isspace c); [|done]. simpl. exact IH.
Qed.

Lemma collapse_cons_space c (y : string) :
  Py.isspace c = true →
  collapse_from 0 (String c y) = String " " (collapse_from 0 (Py.lstrip y)).
Proof.
  intros Hc. simpl. unfold Re.plus_class. simpl. rewrite Hc. simpl.
  by rewrite collapse_skip_run.
Qed.

Lemma collapse_cons_solid c (y : string) :
  Py.isspace c = false →
  collapse_from 0 (String c y) = String c (collapse_from 0 y).
Proof. intros Hc. simpl. unfold Re.plus_class. simpl. by rewrite Hc. Qed.

Lemma lstrip_collapse (y : string) :
  Py.lstrip (collapse_from 0 y) = Py.lstrip (collapse_from 0 (Py.lstrip y)).
Proof.
  destruct y as [|c y]; [done|]. destruct (Py.isspace c) eqn:Hc.
  - rewrite collapse_cons_space by done. simpl. by rewrite Hc.
  - simpl Py.lstrip at 2. by rewrite Hc.
Qed.

Lemma rstrip_cons c (A B : string) :
  Py.rstrip A = Py.rstrip B → Py.rstrip (String c A) = Py.rstrip (String c B).
Proof. intros H. simpl. by rewrite H. Qed.

Lemma rstrip_collapse_append (y b : string) k :
  all_space b = true → (k ≤ String.length y)%nat →
  Py.rstrip (collapse_from k (y +:+ b)) = Py.rstrip (collapse_from k y).
Proof.
  intros Hb. revert k. induction y as [|c y IH]; intros k Hk.
  - simpl in Hk. assert (k = 0%nat) as -> by lia. rewrite append_nil_l.
    destruct b as [|c b]; [done|].
    simpl in Hb. apply andb_true_iff in Hb as [Hc Hb].
    rewrite collapse_cons_space by done. by rewrite lstrip_all_space.
  - rewrite append_cons. destruct k as [|k].
    + destruct (Py.isspace c) eqn:Hc.
      * rewrite !collapse_cons_space by done. apply rstrip_cons.
        rewrite <- !collapse_skip_run.
        destruct (all_space y) eqn:Hy.
        -- rewrite !sub_with_skip_all; [done| |].
           ++ by rewrite run_length_all_space.
           ++ rewrite run_length_all_space; [done|].
              by rewrite all_space_append, Hy, Hb.
        -- rewrite run_length_append by done. apply IH. apply run_length_le.
      * rewrite !collapse_cons_solid by done. apply rstrip_cons. apply IH. lia.
    + simpl. apply IH. simpl in Hk. lia.
Qed.

Lemma lstrip_rstrip (s : string) : Py.lstrip (Py.rstrip s) = Py.rstrip (Py.lstrip s).
Proof.
  induction s as [|c s IH]; [done|]. simpl.
  destruct (Py.isspace c) eqn:Hc.
  - rewrite <- IH. destruct (Py.rstrip s); simpl; by rewrite ?Hc.
  - simpl. destruct (Py.rstrip s); rewrite ?Hc; simpl; by rewrite ?Hc.
Qed.

Lemma strip_collapse_cons_space c (y : string) :
  Py.isspace c = true →
  Py.strip (Re.sub (Re.plus_class Py.isspace) " " (String c y))
  = Py.strip (Re.sub (Re.plus_class Py.isspace) " " y).
Proof.
  intros Hc. unfold Py.strip, Re.sub. f_equal.
  rewrite lstrip_collapse. simpl Py.lstrip at 2. rewrite Hc.
  by rewrite <- lstrip_collapse.
Qed.

Lemma strip_collapse_append_blank (y b : string) :
  all_space b = true →
  Py.strip (Re.sub (Re.plus_class Py.isspace) " " (y +:+ b))
  = Py.strip (Re.sub (Re.plus_class Py.isspace) " " y).
Proof.
  intros Hb. unfold Py.strip, Re.sub. rewrite <- !lstrip_rstrip. f_equal.
  apply rstrip_collapse_append; [done|lia].
Qed.

(** *** The whole of the stripping *)

Lemma strip_html_cons_space c s :
  Py.isspace c = true → strip_html_to_text (String c s) = strip_html_to_text s.
Proof.
  intros Hc. unfold strip_html_to_text.
  rewrite (sub_cons_space (Re.element "style") " " (element_space "style" eq_refl)) by done.
  rewrite (sub_cons_space (Re.element "script") " " (element_space "script" eq_refl)) by done.
  rewrite (sub_cons_space Re.any_tag " " any_tag_space) by done.
  rewrite (sub_cons_space (Re.literal "&nbsp;") " " (literal_space "&" "nbsp;" eq_refl)) by done.
  by apply strip_collapse_cons_space.
Qed.

Lemma strip_html_append_blank x b :
  all_space b = true → strip_html_to_text (x +:+ b) = strip_html_to_text x.
Proof.
  intros Hb. unfold strip_html_to_text.
  rewrite (sub_append_blank (Re.element "style") " "
             (element_space "style" eq_refl) (element_append "style" eq_refl)
             (element_within "style")) by done.
  rewrite (sub_append_blank (Re.element "script") " "
             (element_space "script" eq_refl) (element_append "script" eq_refl)
             (element_within "script")) by done.
  rewrite (sub_append_blank Re.any_tag " " any_tag_space any_tag_append any_tag_within)
    by done.
  rewrite (sub_append_blank (Re.literal "&nbsp;") " "
             (literal_space "&" "nbsp;" eq_refl) (literal_append "&" "nbsp;" eq_refl)
             (literal_within "&" "nbsp;")) by done.
  by apply strip_collapse_append_blank.
Qed.

Lemma strip_html_lstrip s : strip_html_to_text (Py.lstrip s) = strip_html_to_text s.
Proof.
  induction s as [|c s IH]; [done|]. simpl. destruct (Py.isspace c) eqn:Hc; [|done].
  by rewrite strip_html_cons_space.
Qed.

Lemma rstrip_decompose s : ∃ b, all_space b = true ∧ s = Py.rstrip s +:+ b.
Proof.
  induction s as [|c s (b & Hb & IH)]; [by exists ""|]. simpl.
  destruct (Py.rstrip s) as [|d r] eqn:Hr.
  - rewrite append_nil_l in IH. subst b.
    destruct (Py.isspace c) eqn:Hc.
    + exists (String c s). split; [simpl; by rewrite Hc|done].
    + exists s. by split.
  - exists b. split; [done|]. rewrite append_cons. by f_equal.
Qed.

(** Whether the content is trimmed first makes no difference to the text
    left after stripping. *)
Lemma strip_html_strip s : strip_html_to_text (Py.strip s) = strip_html_to_text s.
Proof.
  unfold Py.strip. destruct (rstrip_decompose (Py.lstrip s)) as (b & Hb & Hs).
  rewrite <- (strip_html_lstrip s). rewrite Hs at 2.
  by rewrite strip_html_append_blank.
Qed.

(** ** The junk detector's classification *)

Example strip_html_to_text_examples :
  strip_html_to_text "<p>Hello   <b>world</b></p>&nbsp;<STYLE type=x>a{b}</style> end"
    = "Hello world end"
  ∧ strip_html_to_text "<h1>New Page</h1>" = "New Page"
  ∧ strip_html_to_text "<>a<b" = "<>a<b"
  ∧ strip_html_to_text "" = "".
Proof. repeat split; vm_compute; reflexivity. Qed.

(** C6. For a page whose content is a string, the page is classified
    effectively empty exactly when the text left after stripping the markup
    of that content is shorter than 30 characters; so lengths 0, 10 and 29
    classify as empty, and lengths 30 and 45 as not empty. (The code trims
    the content before it strips it, which changes nothing to the text
    left.) *)
Theorem empty_below_thirty page s :
  page_raw_content page = Ok (JStr s) →
  let txt := strip_html_to_text s in
  is_effectively_empty_page page = Ok (bool_decide (String.length txt < 30)%nat)
  ∧ (String.length txt = 0%nat ∨ String.length txt = 10%nat ∨ String.length txt = 29%nat →
     is_effectively_empty_page page = Ok true)
  ∧ (String.length txt = 30%nat ∨ String.length txt = 45%nat →
     is_effectively_empty_page page = Ok false).
Proof.
  intros Hraw txt.
  assert (Hcls : is_effectively_empty_page page
                 = Ok (bool_decide (String.length txt < 30)%nat)).
  { unfold is_effectively_empty_page. rewrite Hraw. simpl. subst txt.
    rewrite <- (strip_html_strip s).
    destruct (Py.strip s) as [|c t] eqn:Hs; reflexivity. }
  split; [exact Hcls|]. rewrite Hcls. split.
  - intros H. f_equal. apply bool_decide_eq_true_2. lia.
  - intros H. f_equal. apply bool_decide_eq_false_2. lia.
Qed.

Lemma empty_below_thirty_heading :
  let page := JObj [("html", JStr "<h1>New Page</h1>")] in
  let txt := strip_html_to_text "<h1>New Page</h1>" in
  is_effectively_empty_page page = Ok (bool_decide (String.length txt < 30)%nat)
  ∧ (String.length txt = 0%nat ∨ String.length txt = 10%nat ∨ String.length txt = 29%nat →
     is_effectively_empty_page page = Ok true)
  ∧ (String.length txt = 30%nat ∨ String.length txt = 45%nat →
     is_effectively_empty_page page = Ok false).
Proof.
  apply (empty_below_thirty (JObj [("html", JStr "<h1>New Page</h1>")]) "<h1>New Page</h1>").
  reflexivity.
Defined.

(** Bodies whose stripped text has 0, 10, 29, 30 and 45 characters. *)
Example empty_threshold_examples :
  is_effectively_empty_page (JObj [("html", JStr "<p> </p>")]) = Ok true
  ∧ is_effectively_empty_page (JObj [("html", JStr "<p>0123456789</p>")]) = Ok true
  ∧ is_effectively_empty_page
      (JObj [("markdown", JStr ""); ("html", JStr "<p>0123456789 0123456789 0123456</p>")])
    = Ok true
  ∧ is_effectively_empty_page
      (JObj [("html", JStr "<p>0123456789 0123456789 01234567</p>")])
    = Ok false
  ∧ is_effectively_empty_page
      (JObj [("markdown", JStr "0123456789 0123456789 0123456789 0123456789 0")])
    = Ok false.
Proof. repeat split; vm_compute; reflexivity. Qed.

Example empty_threshold_lengths :
  String.length (strip_html_to_text "<p> </p>") = 0%nat
  ∧ String.length (strip_html_to_text "<p>0123456789</p>") = 10%nat
  ∧ String.length (strip_html_to_text "<p>0123456789 0123456789 0123456</p>") = 29%nat
  ∧ String.length (strip_html_to_text "<p>0123456789 0123456789 01234567</p>") = 30%nat
  ∧ String.length
      (strip_html_to_text "0123456789 0123456789 0123456789 0123456789 0") = 45%nat.
Proof. repeat split; vm_compute; reflexivity. Qed.

(** A content that is not a string classifies the page as effectively
    empty, whatever it holds. *)
Lemma non_string_content_is_empty page v :
  page_raw_content page = Ok v → Dyn.is_str v = false →
  is_effectively_empty_page page = Ok true.
Proof.
  intros Hraw Hv. unfold is_effectively_empty_page. rewrite Hraw. simpl.
  by destruct v.
Qed.

(** ** The resilient client *)

Lemma substring_length_le n s : (String.length (String.substring 0 n s) ≤ n)%nat.
Proof.
  revert s. induction n as [|n IH]; intros s; destruct s as [|c s]; simpl; try lia.
  specialize (IH s). lia.
Qed.

Lemma rate_limit_delay_policy resp attempt :
  rate_limit_delay resp attempt
  = default (Z.min 60 (2 ^ attempt)) (positive_retry_after resp).
Proof.
  unfold rate_limit_delay, positive_retry_after.
  destruct (retry_after resp) as [h|]; simpl; [|reflexivity].
  destruct (Py.truthy_str h) eqn:Hh.
  - destruct (Dyn.int_of_str h) as [d|]; simpl; [|reflexivity].
    destruct (Z.leb_spec d 0), (Z.ltb_spec 0 d); simpl; try lia; reflexivity.
  - assert (h = "") as -> by (by destruct h).
    reflexivity.
Qed.

Lemma policy_exchanges m path body attempt ws r :
  follows_retry_policy m path body attempt ws r →
  attempt ≤ 5 → (Z.of_nat (exchanges ws) ≤ 6 - attempt).
Proof.
  unfold exchanges. induction 1; intros Hle; simpl in *; lia.
Qed.

Section ClientProperties.

Context {W : Type}.
Variable transport : W → method → string → option json → result response * W.

Lemma request_loop_policy m path body a attempts :
  attempts_from a attempts → a ≤ 5 →
  ∀ last s,
    ∃ ws, wire (request_loop transport m path body attempts last s).2 = wire s ++ ws
        ∧ calls (request_loop transport m path body attempts last s).2 = calls s
        ∧ follows_retry_policy m path body a ws
            (request_loop transport m path body attempts last s).1.
Proof.
  induction 1 as [|a l Ha Hl IH]; intros Hle last s; [lia|].
  simpl. unfold mbind, M_bind, send.
  destruct (transport (world s) m path body) as [[resp|e] w'] eqn:Ht; simpl.
  2: { exists [Sent m path body (Raise e)]. repeat split. constructor. }
  destruct ((status_code resp =? 429) && (a <? max_attempts)) eqn:H429.
  { apply andb_true_iff in H429 as [Hs Ha5].
    apply Z.eqb_eq in Hs. apply Z.ltb_lt in Ha5. unfold max_attempts in Ha5.
    unfold sleep. simpl.
    match goal with |- context [request_loop _ _ _ _ l ?la ?st] =>
      destruct (IH ltac:(lia) la st) as (ws & Hw & Hc & Hp) end.
    exists (Sent m path body (Ok resp) :: Slept (rate_limit_delay resp a) :: ws).
    split; [rewrite Hw; simpl; by rewrite <- !app_assoc|].
    split; [by rewrite Hc|].
    rewrite rate_limit_delay_policy in *. by apply policy_rate_limited. }
  destruct ((500 <=? status_code resp) && (status_code resp <? 600)
            && (a <? max_attempts)) eqn:H5xx.
  { apply andb_true_iff in H5xx as [H5 Ha5]. apply andb_true_iff in H5 as [Hlo Hhi].
    apply Z.leb_le in Hlo. apply Z.ltb_lt in Hhi. apply Z.ltb_lt in Ha5.
    unfold max_attempts in Ha5. unfold sleep. simpl.
    match goal with |- context [request_loop _ _ _ _ l ?la ?st] =>
      destruct (IH ltac:(lia) la st) as (ws & Hw & Hc & Hp) end.
    exists (Sent m path body (Ok resp) :: Slept (server_error_delay a) :: ws).
    split; [rewrite Hw; simpl; by rewrite <- !app_assoc|].
    split; [by rewrite Hc|].
    unfold server_error_delay. by apply policy_server_error. }
  exists [Sent m path body (Ok resp)].
  destruct (resp_ok resp) eqn:Hok; simpl.
  - pose proof (policy_success m path body a resp Hok) as Hp.
    destruct (Py.truthy_str (Py.strip (text resp))) eqn:Hb; simpl; by repeat split.
  - repeat split. apply policy_failure; [done|].
    apply andb_false_iff in H429. apply andb_false_iff in H5xx.
    unfold max_attempts in *.
    destruct (Z.eq_dec a 5) as [->|Hne]; [by left|right].
    assert ((a <? 5) = true) as Hlt by (apply Z.ltb_lt; lia).
    rewrite Hlt in H429, H5xx.
    destruct H429 as [H429|]; [|done]. apply Z.eqb_neq in H429.
    destruct H5xx as [H5xx|]; [|done].
    split; [done|]. intros [Hlo Hhi].
    apply andb_false_iff in H5xx as [H5xx|H5xx];
      [apply Z.leb_gt in H5xx | apply Z.ltb_ge in H5xx]; lia.
Qed.

Lemma attempt_numbers_from_one : attempts_from 1 attempt_numbers.
Proof. unfold attempt_numbers. repeat (constructor; [lia|]); simpl. constructor. Qed.

(** What one call adds to the two logs, and how it ends. *)
Lemma request_trace m path body s :
  ∃ ws,
    wire (request transport m path body s).2 = wire s ++ ws
    ∧ calls (request transport m path body s).2
      = calls s ++ [ApiCall m path body (request transport m path body s).1]
    ∧ follows_retry_policy m path body 1 ws (request transport m path body s).1.
Proof.
  unfold request.
  destruct (request_loop_policy m path body 1 attempt_numbers attempt_numbers_from_one
              ltac:(lia) None s) as (ws & Hw & Hc & Hp).
  destruct (request_loop transport m path body attempt_numbers None s) as [r s'].
  simpl in *. exists ws. split; [done|]. split; [by rewrite Hc|]. done.
Qed.

(** C4. Every call of the client follows the retry policy: what goes over
    the wire starts at attempt 1 and is, for each rate-limit response before
    the fifth attempt, a sleep of the Retry-After value when that is a
    positive integer and of min(60, 2^attempt) otherwise, for each 5xx
    response before the fifth attempt a sleep of min(30, 2^(attempt-1)), and
    it stops at the first other response: a failure status raises at once an
    error carrying the status and a snippet of at most 200 characters. There
    are at most 5 exchanges, and the call is logged with its outcome. *)
Theorem request_follows_retry_policy m path body s :
  ∃ ws,
    wire (request transport m path body s).2 = wire s ++ ws
    ∧ calls (request transport m path body s).2
      = calls s ++ [ApiCall m path body (request transport m path body s).1]
    ∧ follows_retry_policy m path body 1 ws (request transport m path body s).1
    ∧ (exchanges ws ≤ 5)%nat
    ∧ ∀ resp, (String.length (snippet resp) ≤ 200)%nat.
Proof.
  destruct (request_trace m path body s) as (ws & Hw & Hc & Hp).
  exists ws. split; [done|]. split; [done|]. split; [done|]. split.
  - pose proof (policy_exchanges _ _ _ _ _ _ Hp). lia.
  - intros resp. apply substring_length_le.
Qed.

(** [request] is its loop, plus the entry in the call log. *)
Lemma request_eq m path body s :
  request transport m path body s
  = ((request_loop transport m path body attempt_numbers None s).1,
     State (world (request_loop transport m path body attempt_numbers None s).2)
       (calls (request_loop transport m path body attempt_numbers None s).2
          ++ [ApiCall m path body
                (request_loop transport m path body attempt_numbers None s).1])
       (wire (request_loop transport m path body attempt_numbers None s).2)).
Proof.
  unfold request. by destruct (request_loop transport m path body attempt_numbers None s).
Qed.

End ClientProperties.

Lemma request_follows_retry_policy_backoff :
  ∃ ws,
    wire (request replay GET "/books" None (start backoff_session)).2
    = wire (start backoff_session) ++ ws
    ∧ calls (request replay GET "/books" None (start backoff_session)).2
      = calls (start backoff_session)
          ++ [ApiCall GET "/books" None
                (request replay GET "/books" None (start backoff_session)).1]
    ∧ follows_retry_policy GET "/books" None 1 ws
        (request replay GET "/books" None (start backoff_session)).1
    ∧ (exchanges ws ≤ 5)%nat
    ∧ ∀ resp, (String.length (snippet resp) ≤ 200)%nat.
Proof.
  exact (request_follows_retry_policy replay GET "/books" None (start backoff_session)).
Defined.

(** The session with two rate limits, one with a usable Retry-After header,
    then a server error, then a client error. *)
Example request_backoff_example :
  wire (request replay GET "/books" None (start backoff_session)).2
  = [ Sent GET "/books" None (Ok (Response 429 (Some "7") "slow down" (Ok JNull)));
      Slept 7;
      Sent GET "/books" None (Ok (Response 429 (Some "soon") "slow down" (Ok JNull)));
      Slept 4;
      Sent GET "/books" None (text_reply 503 "unavailable");
      Slept 4;
      Sent GET "/books" None (text_reply 404 "no such thing") ]
  ∧ (request replay GET "/books" None (start backoff_session)).1
    = Raise (Exn "RuntimeError" "BookStack API GET /books failed: 404 no such thing").
Proof. split; vm_compute; reflexivity. Qed.

(** Five rate limits in a row: the fifth is not slept on, it is raised. *)
Example request_gives_up_example :
  exchanges (wire (request replay GET "/books" None
                     (start (replicate 6 (GET, "/books", text_reply 429 "slow down")))).2)
  = 5%nat
  ∧ (request replay GET "/books" None
       (start (replicate 6 (GET, "/books", text_reply 429 "slow down")))).1
    = Raise (Exn "RuntimeError" "BookStack API GET /books failed: 429 slow down").
Proof. split; vm_compute; reflexivity. Qed.

(** ** Reasoning about the logs *)

Section Logs.

Context {W : Type}.
Variable transport : W → method → string → option json → result response * W.

Lemma reads_only_ret {A} (a : A) : reads_only (mret a : M W A).
Proof. intros s. exists [], []. simpl. by rewrite !app_nil_r. Qed.

Lemma reads_only_raise {A} e : reads_only (raise e : M W A).
Proof. intros s. exists [], []. simpl. by rewrite !app_nil_r. Qed.

Lemma reads_only_lift {A} (r : result A) : reads_only (lift r : M W A).
Proof. intros s. exists [], []. simpl. by rewrite !app_nil_r. Qed.

Lemma reads_only_bind {A B} (m : M W A) (k : A → M W B) :
  reads_only m → (∀ a, reads_only (k a)) → reads_only (m ≫= k).
Proof.
  intros Hm Hk s. unfold mbind, M_bind.
  destruct (Hm s) as (cs & ws & Hc & Hw & Hcs & Hws).
  destruct (m s) as [[a|e] s1]; simpl in *.
  - destruct (Hk a s1) as (cs' & ws' & Hc' & Hw' & Hcs' & Hws').
    exists (cs ++ cs'), (ws ++ ws').
    rewrite Hc', Hw', Hc, Hw, !app_assoc. repeat split; by apply Forall_app.
  - by exists cs, ws.
Qed.

Lemma reads_only_catch {A} (m : M W A) : reads_only m → reads_only (catch m).
Proof.
  intros Hm s. unfold catch. destruct (Hm s) as (cs & ws & H).
  destruct (m s) as [r s1]. by exists cs, ws.
Qed.

Lemma reads_only_for_each {A S} (body : A → S → M W S) l acc :
  (∀ x acc', reads_only (body x acc')) → reads_only (for_each body l acc).
Proof.
  intros Hbody. revert acc. induction l as [|x l IH]; intros acc; simpl.
  - apply reads_only_ret.
  - apply reads_only_bind; [apply Hbody | intros acc'; apply IH].
Qed.

(** What a call adds to the call log: itself, with its outcome. *)
Lemma request_calls m path body (s : state W) :
  calls (request transport m path body s).2
  = calls s ++ [ApiCall m path body (request transport m path body s).1].
Proof.
  destruct (request_trace transport m path body s) as (ws & _ & Hc & _).
  exact Hc.
Qed.

Lemma policy_wire_methods m path body a ws r :
  follows_retry_policy m path body a ws r →
  Forall (λ ev, match ev with Sent m' _ _ _ => m' = m | Slept _ => True end) ws.
Proof. induction 1; repeat constructor; done. Qed.

Lemma reads_only_api_get path : reads_only (api_get transport path).
Proof.
  intros s. unfold api_get.
  destruct (request_trace transport GET path None s) as (ws & Hw & Hc & Hp).
  exists [ApiCall GET path None (request transport GET path None s).1], ws.
  split; [done|]. split; [done|]. split; [by repeat constructor|].
  apply policy_wire_methods in Hp.
  eapply Forall_impl; [exact Hp|]. by intros [].
Qed.

End Logs.

(** From here on [request] is used through the lemmas above only. *)
#[local] Opaque request.

(** Runs the plumbing of the monad: binds, lifts, returns. *)
Ltac run_monad :=
  unfold mbind, M_bind, lift, mret, M_ret, raise, catch; cbn beta iota.

Section Loops.

Context {W : Type}.

(** The summary of a loop from the summaries of its rounds. *)
Lemma for_each_summary {A S} (body : A → S → M W S)
    (safe : list api_call → Prop) (progress : list api_call → S → S → Prop) :
  safe [] →
  (∀ cs cs', safe cs → safe cs' → safe (cs ++ cs')) →
  (∀ acc, progress [] acc acc) →
  (∀ cs cs' a b c, progress cs a b → progress cs' b c → progress (cs ++ cs') a c) →
  (∀ x acc s, ∃ cs,
      calls (body x acc s).2 = calls s ++ cs ∧ safe cs
      ∧ ∀ acc', (body x acc s).1 = Ok acc' → progress cs acc acc') →
  ∀ l acc s, ∃ cs,
    calls (for_each body l acc s).2 = calls s ++ cs ∧ safe cs
    ∧ ∀ acc', (for_each body l acc s).1 = Ok acc' → progress cs acc acc'.
Proof.
  intros Hnil Happ Hrefl Htrans Hbody.
  induction l as [|x l IH]; intros acc s; simpl.
  - exists []. rewrite app_nil_r. split; [done|]. split; [done|].
    intros acc' [= <-]. apply Hrefl.
  - run_monad. destruct (Hbody x acc s) as (cs & Hc & Hs & Hp).
    destruct (body x acc s) as [[acc1|e] s1]; simpl in *.
    + destruct (IH acc1 s1) as (cs' & Hc' & Hs' & Hp').
      exists (cs ++ cs'). rewrite Hc', Hc, app_assoc. split; [done|].
      split; [by apply Happ|].
      intros acc' Hr. eapply Htrans; [by apply Hp | by apply Hp'].
    + exists cs. split; [done|]. split; [done|]. intros acc' [=].
Qed.

End Loops.

(** Distinct integers print differently, so a path names one page. *)
Lemma str_of_int_inj a b : Py.str_of_int a = Py.str_of_int b → a = b.
Proof.
  unfold Py.str_of_int. intros H. apply DecimalZ.to_int_inj.
  assert (Hrt : ∀ z, NilZero.int_of_string (NilZero.string_of_int (Z.to_int z))
                     = Some (Z.to_int z)).
  { intros z. apply NilZero.isi; destruct z; simpl; try discriminate;
      intros [= Hn]; by apply Unsigned.to_uint_nonnil in Hn. }
  pose proof (Hrt a) as Ha. rewrite H, Hrt in Ha. congruence.
Qed.

Lemma page_path_inj p q : page_path p = page_path q → p = q.
Proof. unfold page_path. simpl. intros [= H]. by apply str_of_int_inj. Qed.

Create HintDb reads_only.

Ltac reads_only_step :=
  first
    [ progress cbn beta iota delta [negb]
    | solve [auto with reads_only nocore]
    | lazymatch goal with
      | |- reads_only (mret _) => apply reads_only_ret
      | |- reads_only (raise _) => apply reads_only_raise
      | |- reads_only (lift _) => apply reads_only_lift
      | |- reads_only (api_get _ _) => apply reads_only_api_get
      | |- reads_only (catch _) => apply reads_only_catch
      | |- reads_only (for_each _ _ _) => apply reads_only_for_each; intros ? ?
      | |- reads_only (mbind _ _) => apply reads_only_bind; [|intros ?]
      | |- reads_only (match ?x with _ => _ end) => destruct x
      end ].

Section DryRun.

Context {W : Type}.
Variable transport : W → method → string → option json → result response * W.

Lemma reads_only_list_unshelved_books : reads_only (list_unshelved_books transport).
Proof. unfold list_unshelved_books. repeat reads_only_step. Qed.

#[local] Hint Resolve reads_only_list_unshelved_books : reads_only.

Lemma reads_only_shelve_books : reads_only (shelve_books transport false).
Proof. unfold shelve_books, shelve_book. repeat reads_only_step. Qed.

Lemma reads_only_ensure_inbox_chapter book :
  reads_only (ensure_inbox_chapter transport book false).
Proof. unfold ensure_inbox_chapter. repeat reads_only_step. Qed.

#[local] Hint Resolve reads_only_ensure_inbox_chapter : reads_only.

Lemma reads_only_move_direct_pages : reads_only (move_direct_pages transport false).
Proof.
  unfold move_direct_pages, move_direct_pages_of_book, move_direct_page.
  repeat reads_only_step.
Qed.

Lemma reads_only_move_empty_chapters h :
  reads_only (move_empty_chapters transport h false).
Proof.
  unfold move_empty_chapters, move_empty_chapters_of_book, move_empty_chapter.
  repeat reads_only_step.
Qed.

Lemma reads_only_delete_junk_pages : reads_only (delete_junk_pages transport false).
Proof.
  unfold delete_junk_pages, delete_junk_pages_named, delete_junk_page,
    find_pages_by_exact_name.
  repeat reads_only_step.
Qed.

#[local] Hint Resolve reads_only_shelve_books reads_only_move_direct_pages
  reads_only_move_empty_chapters reads_only_delete_junk_pages : reads_only.

(** X14. In a dry run, every operation that takes the [apply] flag only
    reads; so does the whole of [main] when the empty-chapter step, and
    with it the holding book, is switched off. *)
Theorem dry_run_reads_only_without_holding_book skip_shelving skip_pages skip_deletes :
  reads_only (shelve_books transport false)
  ∧ reads_only (move_direct_pages transport false)
  ∧ (∀ h, reads_only (move_empty_chapters transport h false))
  ∧ reads_only (delete_junk_pages transport false)
  ∧ reads_only (main transport (Options false skip_shelving skip_pages true skip_deletes)).
Proof.
  repeat split; auto with reads_only nocore.
  unfold main. simpl. repeat reads_only_step.
Qed.

End DryRun.

(** ** The dry run of the whole program *)

Lemma reads_only_no_writes cs : Forall reads_only_call cs → writes cs = [].
Proof.
  unfold writes. induction 1 as [|c cs Hc _ IH]; [done|].
  simpl. unfold reads_only_call in Hc. rewrite bool_decide_eq_true_2; [|done].
  simpl. exact IH.
Qed.

(** C1 fails on the code. A dry run of [main] with no switch, against a
    library that has the holding shelf and no holding book yet, completes
    and produces its report, but it has created the holding book and
    updated the shelf on the way: the run is not read-only. *)
Theorem dry_run_creates_the_holding_book :
  (main replay dry_run (start fresh_library_session)).1
  = Ok (Report false [] (Some 2) (Some (DirectPages 0 0 0 0 [])) (Some (Sweep 0 0 []))
          (Some (Junk [] [])))
  ∧ writes (calls (main replay dry_run (start fresh_library_session)).2)
    = [ (POST, "/books",
         Some (JObj [("name", JStr "Empty Chapters Holding");
                     ("description", JStr "Holding area for empty placeholder chapters.")]));
        (PUT, "/shelves/1", Some (JObj [("books", JArr [JInt 2])])) ]
  ∧ ¬ reads_only (main replay dry_run).
Proof.
  assert (Hw : writes (calls (main replay dry_run (start fresh_library_session)).2)
               = [ (POST, "/books",
                    Some (JObj [("name", JStr "Empty Chapters Holding");
                                ("description",
                                 JStr "Holding area for empty placeholder chapters.")]));
                   (PUT, "/shelves/1", Some (JObj [("books", JArr [JInt 2])])) ])
    by (vm_compute; reflexivity).
  split; [vm_compute; reflexivity|]. split; [exact Hw|].
  intros Hro. destruct (Hro (start fresh_library_session)) as (cs & ws & Hc & _ & Hcs & _).
  assert (Hnone : writes (calls (main replay dry_run (start fresh_library_session)).2) = []).
  { rewrite Hc. change (calls (start fresh_library_session)) with (@nil api_call).
    rewrite app_nil_l. by apply reads_only_no_writes. }
  rewrite Hw in Hnone. discriminate Hnone.
Qed.

(** ** The junk detector *)

Lemma deletes_follow_fetch_weaken prev cs :
  deletes_follow_fetch None cs → deletes_follow_fetch prev cs.
Proof.
  destruct cs as [|c cs]; simpl; [done|]. intros [Hc Hcs]. split; [|done].
  intros Hd. destruct (Hc Hd) as (g & page & Hg & _). discriminate.
Qed.

Lemma deletes_follow_fetch_app prev cs cs' :
  deletes_follow_fetch prev cs → deletes_follow_fetch None cs' →
  deletes_follow_fetch prev (cs ++ cs').
Proof.
  revert prev. induction cs as [|c cs IH]; intros prev; simpl.
  - intros _. apply deletes_follow_fetch_weaken.
  - intros [Hc Hcs] Hcs'. split; [done|]. by apply IH.
Qed.

Lemma junk_safe_nil apply : junk_safe apply [].
Proof. split; [done|]. by intros _. Qed.

Lemma junk_safe_app apply cs cs' :
  junk_safe apply cs → junk_safe apply cs' → junk_safe apply (cs ++ cs').
Proof.
  intros [H1 H2] [H1' H2']. split.
  - by apply deletes_follow_fetch_app.
  - intros Hdry. apply Forall_app. auto.
Qed.

Lemma junk_progress_refl rep : junk_progress [] rep rep.
Proof.
  exists [], []. rewrite !app_nil_r. repeat split; try done.
  intros pid page Hin. by apply elem_of_nil in Hin.
Qed.

Lemma junk_progress_trans cs cs' rep1 rep2 rep3 :
  junk_progress cs rep1 rep2 → junk_progress cs' rep2 rep3 →
  junk_progress (cs ++ cs') rep1 rep3.
Proof.
  intros (d & k & Hd & Hk & Hfd & Hfk & Hin) (d' & k' & Hd' & Hk' & Hfd' & Hfk' & Hin').
  exists (d ++ d'), (k ++ k').
  rewrite Hd', Hk', Hd, Hk, !app_assoc.
  split; [done|]. split; [done|]. split; [by apply Forall_app|].
  split; [by apply Forall_app|].
  intros pid page [Hc|Hc]%elem_of_app Hne.
  - destruct (Hin pid page Hc Hne) as (e & He & ?). exists e. split; [|done].
    apply elem_of_app. by left.
  - destruct (Hin' pid page Hc Hne) as (e & He & ?). exists e. split; [|done].
    apply elem_of_app. by right.
Qed.

Section JunkDetector.

Context {W : Type}.
Variable transport : W → method → string → option json → result response * W.

Lemma delete_junk_page_summary apply name pid rep s :
  ∃ cs,
    calls (delete_junk_page transport apply name pid rep s).2 = calls s ++ cs
    ∧ junk_safe apply cs
    ∧ ∀ rep', (delete_junk_page transport apply name pid rep s).1 = Ok rep' →
              junk_progress cs rep rep'.
Proof.
  unfold delete_junk_page, api_get, api_delete. run_monad.
  pose proof (request_calls transport GET (page_path pid) None s) as Hget.
  assert (Hfetch : ∀ r, junk_safe apply [ApiCall GET (page_path pid) None r]).
  { intros r. split; [simpl; split; [done|done]|]. intros _. by repeat constructor. }
  destruct (request transport GET (page_path pid) None s) as [[page|e] s1]; simpl in Hget.
  2: { eexists. split; [exact Hget|]. split; [apply Hfetch|done]. }
  destruct (is_effectively_empty_page page) as [empty|e] eqn:Hcls.
  2: { eexists. split; [exact Hget|]. split; [apply Hfetch|done]. }
  destruct (Dyn.get page "book_id") as [book_id|e].
  2: { eexists. split; [exact Hget|]. split; [apply Hfetch|done]. }
  destruct (Dyn.get page "chapter_id") as [chapter_id|e].
  2: { eexists. split; [exact Hget|]. split; [apply Hfetch|done]. }
  assert (Hsame : ∀ pid' page' d,
             ApiCall GET (page_path pid') None (Ok page')
               ∈ ApiCall GET (page_path pid) None (Ok page) :: d →
             Forall (λ c, call_method c = DELETE) d →
             pid' = pid ∧ page' = page).
  { intros pid' page' d [Heq|Hin]%elem_of_cons Hd.
    - pose proof (f_equal call_path Heq) as Hp.
      pose proof (f_equal call_result Heq) as Hr.
      cbn [call_path call_result] in Hp, Hr. apply page_path_inj in Hp.
      by injection Hr as ->.
    - rewrite Forall_forall in Hd. by specialize (Hd _ Hin). }
  destruct empty.
  - destruct apply.
    + pose proof (request_calls transport DELETE (page_path pid) None s1) as Hdel.
      destruct (request transport DELETE (page_path pid) None s1) as [r s2]; simpl in Hdel.
      exists [ApiCall GET (page_path pid) None (Ok page);
              ApiCall DELETE (page_path pid) None r].
      split; [destruct r; simpl; by rewrite Hdel, Hget, <- app_assoc|].
      split.
      { split; [|done]. simpl. split; [done|]. split; [|done].
        intros _. by exists (ApiCall GET (page_path pid) None (Ok page)), page. }
      intros rep' Hr. destruct r as [v|e]; [|done]. injection Hr as <-.
      exists [JunkEntry pid name book_id chapter_id true], []. simpl.
      rewrite app_nil_r. repeat split; try by repeat constructor.
      intros pid' page' Hin Hne.
      destruct (Hsame pid' page' _ Hin) as [-> ->]; [by repeat constructor|]. congruence.
    + exists [ApiCall GET (page_path pid) None (Ok page)]. simpl.
      split; [done|]. split; [apply Hfetch|].
      intros rep' [= <-].
      exists [JunkEntry pid name book_id chapter_id true], []. simpl.
      rewrite app_nil_r. repeat split; try by repeat constructor.
      intros pid' page' Hin Hne.
      destruct (Hsame pid' page' _ Hin) as [-> ->]; [by repeat constructor|]. congruence.
  - exists [ApiCall GET (page_path pid) None (Ok page)]. simpl.
    split; [done|]. split; [apply Hfetch|].
    intros rep' [= <-].
    exists [], [JunkEntry pid name book_id chapter_id false]. simpl.
    rewrite app_nil_r. repeat split; try by repeat constructor.
    intros pid' page' Hin Hne.
    destruct (Hsame pid' page' _ Hin) as [-> ->]; [by repeat constructor|].
    eexists. split; [apply list_elem_of_here|]. done.
Qed.

Lemma find_pages_by_exact_name_calls name s :
  ∃ r, calls (find_pages_by_exact_name transport name s).2
       = calls s ++ [ApiCall GET ("/search?query=" +:+ quote name) None r].
Proof.
  unfold find_pages_by_exact_name, api_get. run_monad.
  pose proof (request_calls transport GET ("/search?query=" +:+ quote name) None s) as Hget.
  destruct (request transport GET ("/search?query=" +:+ quote name) None s)
    as [[res|e] s1]; simpl in Hget; [|by eexists].
  destruct (Dyn.get_default res "data" (JArr [])) as [data|e]; [|by eexists].
  destruct (Dyn.iter _) as [items|e]; [|by eexists].
  destruct (exact_name_ids name items) as [ids|e]; by eexists.
Qed.

Lemma delete_junk_pages_named_summary apply name rep s :
  ∃ cs,
    calls (delete_junk_pages_named transport apply name rep s).2 = calls s ++ cs
    ∧ junk_safe apply cs
    ∧ ∀ rep', (delete_junk_pages_named transport apply name rep s).1 = Ok rep' →
              junk_progress cs rep rep'.
Proof.
  unfold delete_junk_pages_named. run_monad.
  destruct (find_pages_by_exact_name_calls name s) as (r & Hsearch).
  assert (Hs : junk_safe apply [ApiCall GET ("/search?query=" +:+ quote name) None r]).
  { split; [simpl; split; [done|done]|]. intros _. by repeat constructor. }
  destruct (find_pages_by_exact_name transport name s) as [[pids|e] s1]; simpl in Hsearch.
  2: { eexists. split; [exact Hsearch|]. split; [exact Hs|done]. }
  destruct (for_each_summary (delete_junk_page transport apply name)
              (junk_safe apply) junk_progress
              (junk_safe_nil apply) (junk_safe_app apply)
              junk_progress_refl junk_progress_trans
              (delete_junk_page_summary apply name) pids rep s1)
    as (cs & Hc & Hsafe & Hp).
  exists ([ApiCall GET ("/search?query=" +:+ quote name) None r] ++ cs).
  rewrite Hc, Hsearch, <- app_assoc. split; [done|].
  split; [by apply junk_safe_app|].
  intros rep' Hr. specialize (Hp rep' Hr).
  apply (junk_progress_trans [_] cs rep rep rep'); [|done].
  exists [], []. rewrite !app_nil_r. repeat split; try done.
  intros pid page Hin. apply list_elem_of_singleton in Hin. discriminate.
Qed.

(** A page classified non-empty is kept: the round makes no call after the
    fetch and returns with the entry added to the kept list. *)
Lemma non_empty_page_is_kept apply name pid rep s page s1 :
  api_get transport (page_path pid) s = (Ok page, s1) →
  is_effectively_empty_page page = Ok false →
  ∃ book_id chapter_id,
    delete_junk_page transport apply name pid rep s
    = (Ok (Junk (junk_deleted rep)
             (junk_kept rep ++ [JunkEntry pid name book_id chapter_id false])),
       s1).
Proof.
  intros Hget Hcls.
  assert (∃ fields, page = JObj fields) as [fields ->]
    by (destruct page; try discriminate; by eexists).
  exists (default JNull (Dyn.assoc "book_id" fields)),
         (default JNull (Dyn.assoc "chapter_id" fields)).
  unfold delete_junk_page. run_monad. by rewrite Hget, Hcls.
Qed.

(** C2. Whatever the remote store answers and in either mode: a round that
    fetches a page classified non-empty issues no call for it and adds it
    to the kept list with that classification; and over a whole run every
    DELETE comes right after the fetch of that very page, whose content was
    classified effectively empty, a dry run issuing none. When the run
    completes, the deleted entries are all classified empty, the kept
    entries all non-empty, and every page that was fetched and classified
    non-empty has its entry in the kept list. *)
Theorem junk_detector_spares_non_empty apply s :
  (∀ name pid rep s0 page s1,
     api_get transport (page_path pid) s0 = (Ok page, s1) →
     is_effectively_empty_page page = Ok false →
     ∃ book_id chapter_id,
       delete_junk_page transport apply name pid rep s0
       = (Ok (Junk (junk_deleted rep)
                (junk_kept rep ++ [JunkEntry pid name book_id chapter_id false])),
          s1))
  ∧ ∃ cs,
      calls (delete_junk_pages transport apply s).2 = calls s ++ cs
      ∧ deletes_follow_fetch None cs
      ∧ (apply = false → Forall (λ c, call_method c ≠ DELETE) cs)
      ∧ ∀ rep, (delete_junk_pages transport apply s).1 = Ok rep →
          Forall (λ e, junk_empty e = true) (junk_deleted rep)
          ∧ Forall (λ e, junk_empty e = false) (junk_kept rep)
          ∧ ∀ pid page,
              ApiCall GET (page_path pid) None (Ok page) ∈ cs →
              is_effectively_empty_page page = Ok false →
              ∃ e, e ∈ junk_kept rep ∧ junk_id e = pid ∧ junk_empty e = false.
Proof.
  split; [intros name pid rep s0 page s1; apply non_empty_page_is_kept|].
  unfold delete_junk_pages.
  destruct (for_each_summary (delete_junk_pages_named transport apply)
              (junk_safe apply) junk_progress
              (junk_safe_nil apply) (junk_safe_app apply)
              junk_progress_refl junk_progress_trans
              (delete_junk_pages_named_summary apply) PLACEHOLDER_NAMES (Junk [] []) s)
    as (cs & Hc & [Hsafe Hdry] & Hp).
  exists cs. split; [done|]. split; [done|]. split; [done|].
  intros rep Hr. destruct (Hp rep Hr) as (d & k & Hd & Hk & Hfd & Hfk & Hin).
  simpl in Hd, Hk. by rewrite Hd, Hk.
Qed.

End JunkDetector.

Lemma junk_detector_spares_non_empty_session :
  ∃ cs,
    calls (delete_junk_pages replay true (start junk_session)).2
    = calls (start junk_session) ++ cs
    ∧ deletes_follow_fetch None cs
    ∧ (true = false → Forall (λ c, call_method c ≠ DELETE) cs)
    ∧ ∀ rep, (delete_junk_pages replay true (start junk_session)).1 = Ok rep →
        Forall (λ e, junk_empty e = true) (junk_deleted rep)
        ∧ Forall (λ e, junk_empty e = false) (junk_kept rep)
        ∧ ∀ pid page,
            ApiCall GET (page_path pid) None (Ok page) ∈ cs →
            is_effectively_empty_page page = Ok false →
            ∃ e, e ∈ junk_kept rep ∧ junk_id e = pid ∧ junk_empty e = false.
Proof.
  exact (proj2 (junk_detector_spares_non_empty replay true (start junk_session))).
Defined.

Example junk_detector_example :
  (delete_junk_pages replay true (start junk_session)).1
  = Ok (Junk [JunkEntry 41 "New Page" (JInt 3) (JInt 0) true]
             [JunkEntry 57 "Test" (JInt 3) (JInt 9) false])
  ∧ writes (calls (delete_junk_pages replay true (start junk_session)).2)
    = [(DELETE, "/pages/41", None)].
Proof. split; vm_compute; reflexivity. Qed.

(** ** Non-string content, and the empty-chapter sweep *)

Section Sweep.

Context {W : Type}.
Variable transport : W → method → string → option json → result response * W.

(** C10. When the content fields of a fetched page yield a value that is not
    a string, the page is classified effectively empty, and in apply mode
    the junk detector goes on to issue the DELETE for it and, when that
    succeeds, lists it as deleted. *)
Theorem non_string_content_gets_deleted name pid rep s page s1 v :
  api_get transport (page_path pid) s = (Ok page, s1) →
  page_raw_content page = Ok v →
  Dyn.is_str v = false →
  is_effectively_empty_page page = Ok true
  ∧ ∃ book_id chapter_id,
      let entry := JunkEntry pid name book_id chapter_id true in
      let deletion := api_delete transport (page_path pid) s1 in
      calls (delete_junk_page transport true name pid rep s).2
      = calls s ++ [ApiCall GET (page_path pid) None (Ok page);
                    ApiCall DELETE (page_path pid) None deletion.1]
      ∧ (is_ok deletion.1 = true →
         (delete_junk_page transport true name pid rep s).1
         = Ok (Junk (junk_deleted rep ++ [entry]) (junk_kept rep))).
Proof.
  intros Hget Hraw Hv.
  pose proof (non_string_content_is_empty page v Hraw Hv) as Hcls.
  split; [exact Hcls|].
  assert (∃ fields, page = JObj fields) as [fields ->].
  { destruct page; try discriminate. by eexists. }
  exists (default JNull (Dyn.assoc "book_id" fields)),
         (default JNull (Dyn.assoc "chapter_id" fields)).
  unfold delete_junk_page. run_monad.
  pose proof (request_calls transport GET (page_path pid) None s) as Hc.
  unfold api_get in Hget. unfold api_get. rewrite Hget in *. rewrite Hcls. simpl.
  unfold api_delete.
  pose proof (request_calls transport DELETE (page_path pid) None s1) as Hd.
  destruct (request transport DELETE (page_path pid) None s1) as [[x|e] s2];
    simpl in *; rewrite Hd, Hc, <- app_assoc; done.
Qed.

Lemma str_field_dict fields key :
  str_field (JObj fields) key
  = Ok (Dyn.to_str (default (JStr "") (Dyn.assoc key fields))).
Proof. reflexivity. Qed.

(** C5. In apply mode, when the direct relocation of an empty chapter fails,
    the sweep makes exactly one more call for it: the same relocation with
    the chapter renamed after the book it came from. If that fails too, the
    chapter and the error text join the failures; either way the round ends
    normally and the loop goes on with the remaining chapters. *)
Theorem failed_relocate_is_retried_once h bid fields ch ch_id ch_name rest rep s e1 s1 :
  int_field ch "id" = Ok ch_id →
  str_field ch "name" = Ok ch_name →
  api_put transport (chapter_path ch_id) (JObj [("book_id", JInt h)]) s = (Raise e1, s1) →
  let book := JObj fields in
  let renamed := JObj [("book_id", JInt h); ("name", JStr (renamed_chapter bid ch_name))] in
  let retry := api_put transport (chapter_path ch_id) renamed s1 in
  let rep' :=
    match retry.1 with
    | Ok _ => Sweep (sweep_moved rep + 1) (sweep_renamed rep + 1) (sweep_failures rep)
    | Raise ex2 =>
        Sweep (sweep_moved rep) (sweep_renamed rep)
          (sweep_failures rep
             ++ [SweepFailure bid (Dyn.to_str (default (JStr "") (Dyn.assoc "name" fields)))
                   ch_id ch_name (exn_msg ex2)])
    end in
  calls retry.2
  = calls s ++ [ApiCall PUT (chapter_path ch_id) (Some (JObj [("book_id", JInt h)])) (Raise e1);
                ApiCall PUT (chapter_path ch_id) (Some renamed) retry.1]
  ∧ move_empty_chapter transport true h bid book ch rep s = (Ok rep', retry.2)
  ∧ for_each (move_empty_chapter transport true h bid book) (ch :: rest) rep s
    = for_each (move_empty_chapter transport true h bid book) rest rep' retry.2.
Proof.
  intros Hid Hname Hput book renamed retry rep'.
  assert (Hstep : move_empty_chapter transport true h bid book ch rep s = (Ok rep', retry.2)).
  { unfold move_empty_chapter. run_monad. rewrite Hid, Hname. simpl.
    rewrite Hput. fold renamed. fold retry. subst rep'.
    destruct retry as [[x|ex2] s2]; simpl; done. }
  split; [|split; [exact Hstep|]].
  - unfold api_put in *.
    pose proof (request_calls transport PUT (chapter_path ch_id)
                  (Some (JObj [("book_id", JInt h)])) s) as Hc1.
    rewrite Hput in Hc1. simpl in Hc1.
    pose proof (request_calls transport PUT (chapter_path ch_id) (Some renamed) s1) as Hc2.
    subst retry. rewrite Hc2, Hc1, <- app_assoc. done.
  - simpl. run_monad. by rewrite Hstep.
Qed.

(** X18. In apply mode the loop over the empty chapters of a book never
    raises when the chapters carry an id, whatever the remote store answers
    to the relocations, and every chapter is counted as moved or listed as
    failed. *)
Lemma sweep_never_aborts h bid fields chs rep s :
  Forall (λ ch, is_ok (int_field ch "id") = true) chs →
  ∃ rep' s',
    for_each (move_empty_chapter transport true h bid (JObj fields)) chs rep s = (Ok rep', s')
    ∧ sweep_moved rep' + Z.of_nat (length (sweep_failures rep'))
      = sweep_moved rep + Z.of_nat (length (sweep_failures rep)) + Z.of_nat (length chs).
Proof.
  intros Hchs. revert rep s. induction Hchs as [|ch chs Hch _ IH]; intros rep s.
  - exists rep, s. split; [done|]. simpl. lia.
  - assert (∃ rep1 s1,
              move_empty_chapter transport true h bid (JObj fields) ch rep s = (Ok rep1, s1)
              ∧ sweep_moved rep1 + Z.of_nat (length (sweep_failures rep1))
                = sweep_moved rep + Z.of_nat (length (sweep_failures rep)) + 1)
      as (rep1 & s1 & Hstep & Hcount).
    { unfold move_empty_chapter. run_monad.
      destruct (int_field ch "id") as [ch_id|] eqn:Hid; [|done].
      assert (∃ ch_name, str_field ch "name" = Ok ch_name) as [ch_name ->].
      { destruct ch; try discriminate. by eexists. }
      simpl.
      destruct (api_put transport (chapter_path ch_id) _ s) as [[x|e1] s1].
      { eexists _, _. split; [done|]. simpl. lia. }
      destruct (api_put transport (chapter_path ch_id) _ s1) as [[x|e2] s2].
      { eexists _, _. split; [done|]. simpl. lia. }
      eexists _, _. split; [done|]. simpl.
      rewrite length_app. simpl. lia. }
    destruct (IH rep1 s1) as (rep' & s' & Hloop & Hcount').
    exists rep', s'. split.
    + simpl. run_monad. by rewrite Hstep.
    + simpl length. lia.
Qed.

End Sweep.

Lemma non_string_content_gets_deleted_odd_page :
  is_effectively_empty_page odd_page = Ok true
  ∧ ∃ book_id chapter_id,
      let s1 := (api_get replay (page_path 41) (start odd_page_session)).2 in
      let entry := JunkEntry 41 "New Page" book_id chapter_id true in
      let deletion := api_delete replay (page_path 41) s1 in
      calls (delete_junk_page replay true "New Page" 41 (Junk [] []) (start odd_page_session)).2
      = calls (start odd_page_session)
          ++ [ApiCall GET (page_path 41) None (Ok odd_page);
              ApiCall DELETE (page_path 41) None deletion.1]
      ∧ (is_ok deletion.1 = true →
         (delete_junk_page replay true "New Page" 41 (Junk [] []) (start odd_page_session)).1
         = Ok (Junk (junk_deleted (Junk [] []) ++ [entry]) (junk_kept (Junk [] [])))).
Proof.
  apply (non_string_content_gets_deleted replay "New Page" 41 (Junk [] [])
           (start odd_page_session) odd_page
           (api_get replay (page_path 41) (start odd_page_session)).2
           (JArr [JStr "<p>Torque values for the test rig, see the table below.</p>"])).
  - vm_compute. reflexivity.
  - reflexivity.
  - reflexivity.
Defined.

Example odd_page_example :
  (delete_junk_page replay true "New Page" 41 (Junk [] []) (start odd_page_session)).1
  = Ok (Junk [JunkEntry 41 "New Page" (JInt 3) (JInt 0) true] [])
  ∧ writes (calls (delete_junk_page replay true "New Page" 41 (Junk [] [])
                     (start odd_page_session)).2)
    = [(DELETE, "/pages/41", None)].
Proof. split; vm_compute; reflexivity. Qed.

(** The sweep of the specification: three empty chapters, the second one
    refused twice. The third is still processed, and there is one failure. *)
Example sweep_example :
  (move_empty_chapters replay 2 true (start sweep_session)).1
  = Ok (Sweep 2 1
          [SweepFailure 7 "Controls" 32 "Drives"
             "BookStack API PUT /chapters/32 failed: 422 The slug has already been taken."])
  ∧ writes (calls (move_empty_chapters replay 2 true (start sweep_session)).2)
    = [ (PUT, "/chapters/31", Some (JObj [("book_id", JInt 2)]));
        (PUT, "/chapters/32", Some (JObj [("book_id", JInt 2)]));
        (PUT, "/chapters/32", Some (JObj [("book_id", JInt 2); ("name", JStr "[From 7] Drives")]));
        (PUT, "/chapters/33", Some (JObj [("book_id", JInt 2)]));
        (PUT, "/chapters/33", Some (JObj [("book_id", JInt 2); ("name", JStr "[From 7] Panels")])) ].
Proof. split; vm_compute; reflexivity. Qed.

Lemma failed_relocate_is_retried_once_drives :
  let s := start drives_session in
  let rep := Sweep 1 0 [] in
  let renamed := JObj [("book_id", JInt 2); ("name", JStr (renamed_chapter 7 "Drives"))] in
  let retry :=
    api_put replay (chapter_path 32) renamed
      (api_put replay (chapter_path 32) (JObj [("book_id", JInt 2)]) s).2 in
  let rep' :=
    match retry.1 with
    | Ok _ => Sweep (sweep_moved rep + 1) (sweep_renamed rep + 1) (sweep_failures rep)
    | Raise ex2 =>
        Sweep (sweep_moved rep) (sweep_renamed rep)
          (sweep_failures rep
             ++ [SweepFailure 7 (Dyn.to_str (default (JStr "") (Dyn.assoc "name" controls_book)))
                   32 "Drives" (exn_msg ex2)])
    end in
  calls retry.2
  = calls s ++ [ApiCall PUT (chapter_path 32) (Some (JObj [("book_id", JInt 2)]))
                  (Raise (Exn "RuntimeError"
                            "BookStack API PUT /chapters/32 failed: 422 The name has already been taken."));
                ApiCall PUT (chapter_path 32) (Some renamed) retry.1]
  ∧ move_empty_chapter replay true 2 7 (JObj controls_book) drives_chapter rep s
    = (Ok rep', retry.2)
  ∧ for_each (move_empty_chapter replay true 2 7 (JObj controls_book))
      [drives_chapter; panels_chapter] rep s
    = for_each (move_empty_chapter replay true 2 7 (JObj controls_book))
        [panels_chapter] rep' retry.2.
Proof.
  apply (failed_relocate_is_retried_once replay 2 7 controls_book drives_chapter 32 "Drives"
           [panels_chapter] (Sweep 1 0 []) (start drives_session)
           (Exn "RuntimeError"
              "BookStack API PUT /chapters/32 failed: 422 The name has already been taken.")
           (api_put replay (chapter_path 32) (JObj [("book_id", JInt 2)])
              (start drives_session)).2).
  - reflexivity.
  - reflexivity.
  - vm_compute. reflexivity.
Defined.

(** ** Moving a page *)

(** A page that is already in the target chapter is left alone. *)
Lemma already_there_is_noop {W}
    (transport : W → method → string → option json → result response * W)
    page_id target apply s page s1 v :
  api_get transport (page_path page_id) s = (Ok page, s1) →
  Dyn.get page "chapter_id" = Ok v → v ≠ JNull → Dyn.to_int v = Ok target →
  ∃ name,
    move_page transport page_id target apply s
    = (Ok (false, MoveRecord page_id name (Some target) target), s1).
Proof.
  intros Hget Hch Hv Hint.
  unfold move_page. run_monad. rewrite Hget, Hch.
  assert (∃ fields, page = JObj fields) as [fields ->]
    by (destruct page; try discriminate; by eexists).
  exists (default JNull (Dyn.assoc "name" fields)).
  destruct v; try done; simpl in *; rewrite ?Hint; simpl;
    rewrite bool_decide_eq_true_2; try done;
    injection Hint as ->; done.
Qed.

Section MovePage.

Context {W : Type}.
Variable transport : W → method → string → option json → result response * W.

(** What is assumed of the remote store: [located w p c] reads that in the
    world [w] the page [p] is in the chapter [c]. *)
Variable located : W → Z → Z → Prop.

(** An update of the chapter of a page that is answered with a success
    status has moved the page. *)
Hypothesis update_moves : ∀ w p c resp w',
  transport w PUT (page_path p) (Some (JObj [("chapter_id", JInt c)])) = (Ok resp, w') →
  resp_ok resp = true → located w' p c.

(** A read moves no page. *)
Hypothesis reads_keep : ∀ w path body reply w' p c,
  located w p c → transport w GET path body = (reply, w') → located w' p c.

(** A page that is fetched with success shows the chapter it is in. *)
Hypothesis fetch_shows : ∀ w p c resp w' page,
  located w p c →
  transport w GET (page_path p) None = (Ok resp, w') →
  resp_ok resp = true → json_body resp = Ok page →
  Dyn.get page "chapter_id" = Ok (JInt c).

Lemma update_loop_located p c attempts last s v s' :
  request_loop transport PUT (page_path p) (Some (JObj [("chapter_id", JInt c)]))
    attempts last s = (Ok v, s') →
  located (world s') p c.
Proof.
  revert last s. induction attempts as [|a attempts IH]; intros last s; simpl; [done|].
  unfold mbind, M_bind, send.
  destruct (transport (world s) PUT (page_path p) _) as [[resp|e] w'] eqn:Ht; [|done].
  destruct (_ && _); [unfold sleep; simpl; apply IH|].
  destruct (_ && _); [unfold sleep; simpl; apply IH|].
  destruct (resp_ok resp) eqn:Hok; simpl; [|done].
  intros Hr.
  assert (world s' = w') as ->.
  { destruct (negb _); unfold mret, M_ret, lift in Hr; by injection Hr as _ <-. }
  by eapply update_moves.
Qed.

Lemma fetch_loop_located p c attempts last s :
  located (world s) p c →
  located (world (request_loop transport GET (page_path p) None attempts last s).2) p c
  ∧ ∀ page, (request_loop transport GET (page_path p) None attempts last s).1 = Ok page →
            page = JNull ∨ Dyn.get page "chapter_id" = Ok (JInt c).
Proof.
  revert last s. induction attempts as [|a attempts IH]; intros last s Hloc; simpl;
    [by split|].
  unfold mbind, M_bind, send.
  destruct (transport (world s) GET (page_path p) None) as [[resp|e] w'] eqn:Ht; simpl.
  2: { split; [by eapply reads_keep|done]. }
  assert (located w' p c) as Hloc' by (by eapply reads_keep).
  destruct (_ && _); [unfold sleep; simpl; by apply IH|].
  destruct (_ && _); [unfold sleep; simpl; by apply IH|].
  destruct (resp_ok resp) eqn:Hok; simpl; [|by split].
  destruct (negb _); simpl.
  - split; [done|]. intros page Hp. left. congruence.
  - split; [done|]. intros page Hp. right.
    exact (fetch_shows (world s) p c resp w' page Hloc Ht Hok Hp).
Qed.

(** Once a call in apply mode has returned changed = true, a second call
    with the same page and target cannot: if it returns, it is the no-op. *)
Lemma second_move_is_noop page_id target s rec1 s1 :
  move_page transport page_id target true s = (Ok (true, rec1), s1) →
  (∀ rec2, (move_page transport page_id target true s1).1 ≠ Ok (true, rec2))
  ∧ ∀ changed rec2,
      (move_page transport page_id target true s1).1 = Ok (changed, rec2) →
      changed = false ∧ move_from rec2 = Some (move_to rec2).
Proof.
  intros Hfirst.
  assert (Hloc : located (world s1) page_id target).
  { revert Hfirst. unfold move_page. run_monad.
    destruct (api_get transport (page_path page_id) s) as [[page|e] sa]; [|done].
    destruct (Dyn.get page "chapter_id") as [ch|e]; [|done].
    destruct (match ch with JNull => _ | _ => _ end) as [cur|e]; [|done].
    destruct (bool_decide _).
    { destruct (Dyn.get page "name"); done. }
    unfold api_put. rewrite request_eq.
    destruct (request_loop transport PUT (page_path page_id) _ attempt_numbers None sa)
      as [[v|e] sb] eqn:Hloop; simpl; [|done].
    destruct (Dyn.get page "name"); [|done].
    intros [= _ <-]. simpl. by eapply update_loop_located. }
  assert (Hsecond : ∀ changed rec2,
            (move_page transport page_id target true s1).1 = Ok (changed, rec2) →
            changed = false ∧ move_from rec2 = Some (move_to rec2)).
  { intros changed rec2. unfold move_page. run_monad.
    unfold api_get. rewrite request_eq.
    destruct (fetch_loop_located page_id target attempt_numbers None s1 Hloc)
      as [_ Hpage].
    destruct (request_loop transport GET (page_path page_id) None attempt_numbers None s1)
      as [[page|e] sa]; simpl in *; [|done].
    destruct (Hpage page eq_refl) as [-> | Hch]; [done|].
    rewrite Hch. simpl. rewrite bool_decide_eq_true_2; [|done].
    destruct (Dyn.get page "name"); [|done]. simpl.
    by intros [= <- <-]. }
  split; [|exact Hsecond].
  intros rec2 Hr. by destruct (Hsecond true rec2 Hr).
Qed.

End MovePage.

(** C3. When the page fetched is already in the target chapter, [move_page]
    makes no further call and returns changed = false with a record whose
    from and to fields are both the target, in either mode. And against a
    remote store that honours moves, once a call in apply mode has returned
    changed = true, a second call with the same page and target cannot
    return changed = true: if it returns at all, it is the no-op. *)
Theorem move_page_idempotent {W}
    (transport : W → method → string → option json → result response * W)
    page_id target :
  (∀ apply s page s1 v,
     api_get transport (page_path page_id) s = (Ok page, s1) →
     Dyn.get page "chapter_id" = Ok v → v ≠ JNull → Dyn.to_int v = Ok target →
     ∃ name,
       move_page transport page_id target apply s
       = (Ok (false, MoveRecord page_id name (Some target) target), s1))
  ∧ (∀ located, honours_moves transport located →
     ∀ s rec1 s1,
       move_page transport page_id target true s = (Ok (true, rec1), s1) →
       (∀ rec2, (move_page transport page_id target true s1).1 ≠ Ok (true, rec2))
       ∧ ∀ changed rec2,
           (move_page transport page_id target true s1).1 = Ok (changed, rec2) →
           changed = false ∧ move_from rec2 = Some (move_to rec2)).
Proof.
  split.
  - intros apply s page s1 v. apply already_there_is_noop.
  - intros located (Hupdate & Hreads & Hfetch) s rec1 s1.
    by apply (second_move_is_noop transport located).
Qed.


(** The page store honours the three assumptions. *)
Lemma page_path_drop p : Py.drop_prefix "/pages/" (page_path p) = Some (Py.str_of_int p).
Proof. reflexivity. Qed.

Lemma page_store_update_moves w p c resp w' :
  page_store w PUT (page_path p) (Some (JObj [("chapter_id", JInt c)])) = (Ok resp, w') →
  resp_ok resp = true → page_store_located w' p c.
Proof.
  unfold page_store. rewrite page_path_drop.
  destruct (Dyn.int_of_str (Py.str_of_int p)) as [pid|] eqn:Hp.
  2: { intros [= <- <-]. done. }
  destruct (w !! pid) as [ch|] eqn:Hw.
  2: { intros [= <- <-]. done. }
  simpl. intros [= <- <-] _ pid' Hpid'. rewrite Hp in Hpid'. injection Hpid' as <-.
  apply lookup_insert_eq.
Qed.

Lemma page_store_reads_keep w path body reply w' p c :
  page_store_located w p c → page_store w GET path body = (reply, w') →
  page_store_located w' p c.
Proof.
  intros Hloc. unfold page_store.
  destruct (Py.drop_prefix "/pages/" path) as [rest|]; [|by intros [= _ <-]].
  destruct (Dyn.int_of_str rest) as [pid|]; [|by intros [= _ <-]].
  destruct (w !! pid); by intros [= _ <-].
Qed.

Lemma page_store_fetch_shows w p c resp w' page :
  page_store_located w p c →
  page_store w GET (page_path p) None = (Ok resp, w') →
  resp_ok resp = true → json_body resp = Ok page →
  Dyn.get page "chapter_id" = Ok (JInt c).
Proof.
  intros Hloc. unfold page_store. rewrite page_path_drop.
  destruct (Dyn.int_of_str (Py.str_of_int p)) as [pid|] eqn:Hp.
  2: { intros [= <- <-]. done. }
  rewrite (Hloc pid Hp). simpl. intros [= <- <-] _ [= <-]. done.
Qed.

Lemma page_store_honours_moves : honours_moves page_store page_store_located.
Proof.
  split; [exact page_store_update_moves|].
  split; [exact page_store_reads_keep | exact page_store_fetch_shows].
Qed.

Lemma move_page_idempotent_page_store :
  let s := start ({[ 5 := 1 ]} : gmap Z Z) in
  (∀ rec2, (move_page page_store 5 9 true (move_page page_store 5 9 true s).2).1
           ≠ Ok (true, rec2))
  ∧ ∀ changed rec2,
      (move_page page_store 5 9 true (move_page page_store 5 9 true s).2).1
      = Ok (changed, rec2) →
      changed = false ∧ move_from rec2 = Some (move_to rec2).
Proof.
  intros s.
  apply (proj2 (move_page_idempotent page_store 5 9) page_store_located
           page_store_honours_moves s (MoveRecord 5 (JStr "Page") (Some 1) 9)).
  vm_compute. reflexivity.
Defined.

Example move_page_twice_example :
  let s := start ({[ 5 := 1 ]} : gmap Z Z) in
  (move_page page_store 5 9 true s).1
  = Ok (true, MoveRecord 5 (JStr "Page") (Some 1) 9)
  ∧ (move_page page_store 5 9 true (move_page page_store 5 9 true s).2).1
    = Ok (false, MoveRecord 5 (JStr "Page") (Some 9) 9)
  ∧ writes (calls (move_page page_store 5 9 true (move_page page_store 5 9 true s).2).2)
    = [(PUT, "/pages/5", Some (JObj [("chapter_id", JInt 9)]))].
Proof. repeat split; vm_compute; reflexivity. Qed.

(** * Further properties of the code *)

(** ** The tokenizer and the numeric prefix *)

Lemma all_chars_append cls (s t : string) :
  all_chars cls (s +:+ t) = all_chars cls s && all_chars cls t.
Proof.
  induction s as [|c s IH]; [done|]. rewrite append_cons. simpl.
  by rewrite IH, andb_assoc.
Qed.

(** After the substitution of a blank for the runs of a class, what is left
    is blanks and characters outside the class. *)
Lemma sub_plus_class_chars cls k (s : string) :
  all_chars (λ c, Ascii.eqb c " " || negb (cls c))
    (Re.sub_with (Re.plus_class cls) " " k s) = true.
Proof.
  revert k. induction s as [|c s IH]; intros k; [done|].
  destruct k as [|k]; simpl; [|apply IH].
  unfold Re.plus_class. simpl. destruct (cls c) eqn:Hc; simpl.
  - apply IH.
  - rewrite Hc. simpl. rewrite orb_true_r. apply IH.
Qed.

(** The words of a text are made of its characters that are not blanks. *)
Lemma split_from_chars cls (s w word : string) :
  all_chars cls w = true →
  all_chars (λ c, Py.isspace c || cls c) s = true →
  word ∈ Py.split_from w s → all_chars cls word = true.
Proof.
  revert w. induction s as [|c s IH]; intros w Hw Hs; simpl.
  - destruct (String.eqb w ""); [by intros ?%elem_of_nil|].
    by intros ->%list_elem_of_singleton.
  - simpl in Hs. apply andb_true_iff in Hs as [Hc Hs].
    destruct (Py.isspace c) eqn:Hsp.
    + destruct (String.eqb w "").
      * by apply IH.
      * intros [->|Hin]%elem_of_cons; [done|]. by apply (IH "").
    + simpl in Hc. apply IH; [|done].
      rewrite all_chars_append, Hw. simpl. by rewrite Hc.
Qed.

Lemma blank_is_space c : Ascii.eqb c " " = true → Py.isspace c = true.
Proof. by intros ->%Ascii.eqb_eq. Qed.

(** X1. Every token of a title has at least two characters, all of them
    lower-case letters or digits, and is not a stop word. *)
Theorem tokenize_tokens title tok :
  tok ∈ tokenize title →
  (2 ≤ String.length tok)%nat ∧ (tok ∉ STOPWORDS) ∧ all_chars Py.is_az09 tok = true.
Proof.
  unfold tokenize. rewrite elem_of_list_to_set, !list_elem_of_filter.
  intros (Hlen & (_ & Hstop) & Hin). split; [done|]. split; [done|].
  unfold Py.split in Hin.
  refine (split_from_chars Py.is_az09 _ "" tok eq_refl _ Hin).
  unfold Re.sub.
  pose proof (sub_plus_class_chars (λ c, negb (Py.is_az09 c)) 0 (Py.lower title)) as H.
  revert H.
  generalize (Re.sub_with (Re.plus_class (λ c, negb (Py.is_az09 c))) " " 0 (Py.lower title)).
  intros s. induction s as [|c s IH]; [done|]. simpl.
  intros [Hc Hs]%andb_true_iff. rewrite IH by done. rewrite andb_true_r.
  apply orb_true_iff in Hc as [Hc|Hc].
  - by rewrite (blank_is_space _ Hc).
  - rewrite negb_involutive in Hc. rewrite Hc. apply orb_true_r.
Qed.

Lemma tokenize_tokens_autocad :
  "autocad" ∈ tokenize "3.1 AutoCAD Basics"
  ∧ (2 ≤ String.length "autocad")%nat ∧ ("autocad" ∉ STOPWORDS)
  ∧ all_chars Py.is_az09 "autocad" = true.
Proof.
  assert (H : "autocad" ∈ tokenize "3.1 AutoCAD Basics").
  { apply (bool_decide_unpack ("autocad" ∈ tokenize "3.1 AutoCAD Basics")).
    vm_compute. exact I. }
  split; [exact H|]. exact (tokenize_tokens _ _ H).
Defined.

Lemma dotted_from_digit b (cur : string) d :
  dotted_from b cur = true → Py.isdigit d = true →
  dotted_from b (cur +:+ String d "") = true.
Proof.
  revert b. induction cur as [|c cur IH]; intros b Hcur Hd.
  - rewrite append_nil_l. simpl. by rewrite Hd.
  - rewrite append_cons. simpl in *. destruct (Py.isdigit c); [by apply IH|].
    destruct (Ascii.eqb c "."); [|done].
    apply andb_true_iff in Hcur as [-> Hcur]. simpl. by apply IH.
Qed.

Lemma dotted_from_dot_digit b (cur : string) d :
  dotted_from b cur = true → Py.isdigit d = true →
  dotted_from b (cur +:+ String "." (String d "")) = true.
Proof.
  revert b. induction cur as [|c cur IH]; intros b Hcur Hd.
  - rewrite append_nil_l. simpl in *. rewrite Hcur, Hd. reflexivity.
  - rewrite append_cons. simpl in *. destruct (Py.isdigit c); [by apply IH|].
    destruct (Ascii.eqb c "."); [|done].
    apply andb_true_iff in Hcur as [-> Hcur]. simpl. by apply IH.
Qed.

Lemma append_snoc (cur : string) c (s : string) :
  (cur +:+ String c "") +:+ s = cur +:+ String c s.
Proof. by rewrite append_assoc, append_cons, append_nil_l. Qed.

Lemma append_snoc2 (cur : string) c d (s : string) :
  (cur +:+ String c (String d "")) +:+ s = cur +:+ String c (String d s).
Proof. by rewrite append_assoc, !append_cons, append_nil_l. Qed.

(** What the scan returns is a dotted number that the text starts with, and
    what follows it does not start with a word character. The fallback,
    when there is one, is such a number too, and a dot follows it. *)
Lemma prefix_scan_shape_pair s :
  (∀ text fallback cur p,
     text = cur +:+ s →
     dotted_from true cur = true →
     (∀ f, fallback = Some f →
           dotted_from true f = true ∧ ∃ r, text = f +:+ String "." r) →
     prefix_scan fallback cur s = Some p →
     dotted_from true p = true ∧ ∃ rest, text = p +:+ rest ∧ at_boundary rest = true)
  ∧ (∀ c text fallback cur p,
     text = cur +:+ String c s →
     dotted_from true cur = true →
     (∀ f, fallback = Some f →
           dotted_from true f = true ∧ ∃ r, text = f +:+ String "." r) →
     prefix_scan fallback cur (String c s) = Some p →
     dotted_from true p = true ∧ ∃ rest, text = p +:+ rest ∧ at_boundary rest = true).
Proof.
  assert (Hstop : ∀ text (cur rest p : string),
            text = cur +:+ rest → dotted_from true cur = true →
            at_boundary rest = true → Some cur = Some p →
            dotted_from true p = true ∧ ∃ rest, text = p +:+ rest ∧ at_boundary rest = true).
  { intros text cur rest p -> Hcur Hb [= <-]. split; [done|]. by exists rest. }
  assert (Hback : ∀ text (fallback : option string) p,
            (∀ f, fallback = Some f →
                  dotted_from true f = true ∧ ∃ r, text = f +:+ String "." r) →
            fallback = Some p →
            dotted_from true p = true ∧ ∃ rest, text = p +:+ rest ∧ at_boundary rest = true).
  { intros text fallback p Hfb Hp. destruct (Hfb p Hp) as (Hd & r & ->).
    split; [done|]. by exists (String "." r). }
  induction s as [|d s [IH1 IH2]].
  - split.
    + intros text fallback cur p Ht Hcur Hfb. simpl.
      apply (Hstop text cur ""); done.
    + intros c text fallback cur p Ht Hcur Hfb. simpl.
      destruct (Py.isdigit c) eqn:Hc.
      * apply (Hstop text (cur +:+ String c "") "");
          [by rewrite append_snoc | by apply dotted_from_digit | done].
      * destruct (Ascii.eqb c ".") eqn:Hdot.
        -- apply Ascii.eqb_eq in Hdot as ->. by apply (Hstop text cur ".").
        -- destruct (Py.isword c) eqn:Hw; [by apply Hback|].
           apply (Hstop text cur (String c "")); [done|done|]. simpl. by rewrite Hw.
  - split; [exact (IH2 d)|].
    intros c text fallback cur p Ht Hcur Hfb.
    change (prefix_scan fallback cur (String c (String d s))) with
      (if Py.isdigit c then prefix_scan fallback (cur +:+ String c "") (String d s)
       else if Ascii.eqb c "." then
         (if Py.isdigit d
          then prefix_scan (Some cur) (cur +:+ String c (String d "")) s
          else Some cur)
       else if Py.isword c then fallback else Some cur).
    destruct (Py.isdigit c) eqn:Hc.
    { apply (IH2 d text); [by rewrite append_snoc | by apply dotted_from_digit | done]. }
    destruct (Ascii.eqb c ".") eqn:Hdot.
    { apply Ascii.eqb_eq in Hdot as ->. destruct (Py.isdigit d) eqn:Hd.
      - apply (IH1 text); [by rewrite append_snoc2 | by apply dotted_from_dot_digit |].
        intros f [= <-]. split; [done|]. by eexists.
      - by apply (Hstop text cur (String "." (String d s))). }
    destruct (Py.isword c) eqn:Hw; [by apply Hback|].
    apply (Hstop text cur (String c (String d s))); [done|done|]. simpl. by rewrite Hw.
Qed.

(** X2. A numeric prefix is a dotted number (runs of digits separated by
    single dots, with a digit at both ends); the title, without its leading
    blanks, starts with it; and no word character follows it. *)
Theorem extract_numeric_prefix_shape title p :
  extract_numeric_prefix title = Some p →
  dotted_number p = true
  ∧ ∃ rest, Py.lstrip title = p +:+ rest ∧ at_boundary rest = true.
Proof.
  unfold extract_numeric_prefix.
  destruct (Py.lstrip title) as [|c s] eqn:Ht; [done|].
  destruct (Py.isdigit c) eqn:Hc; [|done]. intros Hscan.
  destruct (proj1 (prefix_scan_shape_pair s) (String c s) None (String c "") p)
    as (Hd & rest & Hrest & Hb); [done|simpl; by rewrite Hc|done|done|].
  split; [|by exists rest].
  assert (Hp : ∃ p', p = String c p').
  { destruct p as [|c' p']; [rewrite append_nil_l in Hrest|].
    - exfalso. subst rest. simpl in Hb. unfold Py.isword in Hb. by rewrite Hc in Hb.
    - rewrite append_cons in Hrest. injection Hrest as <- _. by eexists. }
  destruct Hp as [p' ->]. unfold dotted_number. simpl in *. by rewrite Hc in *.
Qed.

Lemma extract_numeric_prefix_shape_autocad :
  extract_numeric_prefix "  3.1.x AutoCAD" = Some "3.1"
  ∧ dotted_number "3.1" = true
  ∧ ∃ rest, Py.lstrip "  3.1.x AutoCAD" = "3.1" +:+ rest ∧ at_boundary rest = true.
Proof.
  assert (H : extract_numeric_prefix "  3.1.x AutoCAD" = Some "3.1") by reflexivity.
  split; [exact H|]. exact (extract_numeric_prefix_shape _ _ H).
Defined.

Example extract_numeric_prefix_backtracks :
  extract_numeric_prefix "3.12a" = Some "3"
  ∧ extract_numeric_prefix "12a" = None
  ∧ extract_numeric_prefix "3.1.2 Wiring" = Some "3.1.2"
  ∧ extract_numeric_prefix "3. Wiring" = Some "3".
Proof. repeat split; reflexivity. Qed.

(** X3. Blanks before the title do not change its numeric prefix. *)
Theorem extract_numeric_prefix_leading_blanks b title :
  all_space b = true →
  extract_numeric_prefix (b +:+ title) = extract_numeric_prefix title.
Proof.
  intros Hb. unfold extract_numeric_prefix.
  assert (Py.lstrip (b +:+ title) = Py.lstrip title) as ->; [|done].
  induction b as [|c b IH]; [done|]. rewrite append_cons. simpl in *.
  apply andb_true_iff in Hb as [-> Hb]. by apply IH.
Qed.

Lemma extract_numeric_prefix_leading_blanks_indent :
  all_space (String newline "  ") = true
  ∧ extract_numeric_prefix (String newline "  " +:+ "2 Getting Started")
    = extract_numeric_prefix "2 Getting Started".
Proof.
  split; [reflexivity|].
  apply (extract_numeric_prefix_leading_blanks (String newline "  ") "2 Getting Started").
  reflexivity.
Defined.

(** ** The answers of the classifier *)

Section ClassifierResults.

Implicit Types (ch b : chapter) (chs : list chapter).

Local Abbreviation overlap toks ch := (Z.of_nat (size (toks ∩ ch_tokens ch))).

Lemma prefix_matches_subset p chs ch : ch ∈ prefix_matches p chs → ch ∈ chs.
Proof. unfold prefix_matches. rewrite list_elem_of_filter. by intros [_ ?]. Qed.

Lemma best_by_overlap_member toks chs b :
  best (best_by_overlap toks chs) = Some b → b ∈ chs.
Proof.
  unfold best_by_overlap.
  destruct (fold_best_step_spec toks chs best_init) as ([-> | (b' & Hb' & ->)] & _ & _).
  - done.
  - by intros [= <-].
Qed.

(** X4. The classifier never invents a target: a chapter id it returns is
    the id of one of the candidates, and when it returns none the reason is
    no-match or low-confidence. With no candidate at all the answer is
    no-match, whatever the title. *)
Theorem best_chapter_is_a_candidate title chs :
  match best_chapter_for_page title chs with
  | (Some i, _) => ∃ ch, ch ∈ chs ∧ ch_id ch = i
  | (None, reason) => reason = "no-match" ∨ reason = "low-confidence"
  end
  ∧ best_chapter_for_page title [] = (None, "no-match").
Proof.
  split.
  - unfold best_chapter_for_page.
    destruct (prefix_phase title chs) as [r|] eqn:Hp.
    + unfold prefix_phase in Hp.
      destruct (extract_numeric_prefix title) as [p|]; [|done].
      destruct (Py.truthy_str p); [|done].
      destruct (prefix_matches p chs) as [|m [|m' ms]] eqn:Hms; [done| |].
      * injection Hp as <-. exists m. split; [|done].
        apply (prefix_matches_subset p). rewrite Hms. left.
      * destruct (best (best_by_overlap (tokenize title) (m :: m' :: ms))) as [b|] eqn:Hb;
          [|done].
        injection Hp as <-. exists b. split; [|done].
        apply (prefix_matches_subset p). rewrite Hms.
        by apply (best_by_overlap_member (tokenize title)).
    + unfold lexical_phase.
      destruct (best (best_by_overlap (tokenize title) chs)) as [b|] eqn:Hb; [|by left].
      apply best_by_overlap_member in Hb.
      destruct (best_score (best_by_overlap (tokenize title) chs) <=? 0); [by left|].
      destruct (2 <=? best_score (best_by_overlap (tokenize title) chs)); [by exists b|].
      destruct (Py.truthy_str _ && bool_decide _); [by exists b|by right].
  - unfold best_chapter_for_page, prefix_phase, lexical_phase. simpl.
    destruct (extract_numeric_prefix title) as [p|]; [|done].
    by destruct (Py.truthy_str p).
Qed.

(** X5. In the lexical phase, as soon as one candidate shares two tokens or
    more with the title, the answer is a candidate of maximal overlap, with
    the reason overlap and that number. *)
Theorem lexical_strong_overlap title chs c :
  (∀ p, extract_numeric_prefix title = Some p → prefix_matches p chs = []) →
  c ∈ chs → 2 ≤ overlap (tokenize title) c →
  ∃ b, b ∈ chs
    ∧ best_chapter_for_page title chs
      = (Some (ch_id b), "overlap:" +:+ Py.str_of_int (overlap (tokenize title) b))
    ∧ ∀ c', c' ∈ chs → overlap (tokenize title) c' ≤ overlap (tokenize title) b.
Proof.
  intros Hlex Hc Hc2.
  unfold best_chapter_for_page. rewrite (prefix_phase_falls_through _ _ Hlex).
  unfold lexical_phase.
  destruct chs as [|c0 chs]; [by apply elem_of_nil in Hc|].
  destruct (best_by_overlap_nonempty (tokenize title) c0 chs) as (b & Hb & Hbest & Hbmax).
  pose proof (Hbmax c Hc) as Hcb.
  rewrite Hbest. simpl best. simpl best_score.
  exists b. split; [done|]. split; [|done].
  destruct (Z.leb_spec (overlap (tokenize title) b) 0); [lia|].
  destruct (Z.leb_spec 2 (overlap (tokenize title) b)); [done|lia].
Qed.

End ClassifierResults.

Lemma lexical_strong_overlap_power :
  ∃ b, b ∈ power_candidates
    ∧ best_chapter_for_page "Grounding of Power Systems" power_candidates
      = (Some (ch_id b),
         "overlap:" +:+ Py.str_of_int
           (Z.of_nat (size (tokenize "Grounding of Power Systems" ∩ ch_tokens b))))
    ∧ ∀ c', c' ∈ power_candidates →
        Z.of_nat (size (tokenize "Grounding of Power Systems" ∩ ch_tokens c'))
        ≤ Z.of_nat (size (tokenize "Grounding of Power Systems" ∩ ch_tokens b)).
Proof.
  apply (lexical_strong_overlap "Grounding of Power Systems" power_candidates
           (Chapter 21 "Power Systems" {[ "power"; "systems" ]} None)).
  - intros p Hp. vm_compute in Hp. discriminate.
  - apply list_elem_of_here.
  - vm_compute. discriminate.
Defined.

Example lexical_strong_overlap_value :
  best_chapter_for_page "Grounding of Power Systems" power_candidates = (Some 22, "overlap:3").
Proof. vm_compute. reflexivity. Qed.

(** ** The text left after stripping *)

Lemma collapse_single_spaced (y : string) :
  single_spaced false (collapse_from 0 y) = true
  ∧ single_spaced true (collapse_from 0 (Py.lstrip y)) = true.
Proof.
  induction y as [|c y [IH1 IH2]]; [done|].
  destruct (Py.isspace c) eqn:Hc.
  - rewrite collapse_cons_space by done. simpl Py.lstrip. rewrite Hc.
    split; [|done]. simpl. exact IH2.
  - simpl Py.lstrip. rewrite Hc. rewrite collapse_cons_solid by done.
    simpl. rewrite Hc. by split.
Qed.

Lemma lstrip_single_spaced b (r : string) :
  single_spaced b r = true → single_spaced true (Py.lstrip r) = true.
Proof.
  revert b. induction r as [|c r IH]; intros b; [done|]. simpl.
  destruct (Py.isspace c) eqn:Hc.
  - intros [_ H]%andb_true_iff. by apply (IH true).
  - intros H. simpl. by rewrite Hc.
Qed.

Lemma rstrip_words b (r : string) :
  single_spaced b r = true → Py.rstrip r = "" ∨ words_from b (Py.rstrip r) = true.
Proof.
  revert b. induction r as [|c r IH]; intros b; [by left|]. simpl.
  destruct (Py.isspace c) eqn:Hc.
  - intros [Hcb Hr]%andb_true_iff.
    destruct (IH true Hr) as [Hempty | Hw].
    + left. by rewrite Hempty.
    + destruct (Py.rstrip r) as [|d r'] eqn:Hrs; [by left|right].
      cbn [words_from]. rewrite Hc, Hcb. exact Hw.
  - intros Hr. right. destruct (IH false Hr) as [Hempty | Hw].
    + rewrite Hempty. simpl. by rewrite Hc.
    + destruct (Py.rstrip r) as [|d r'] eqn:Hrs; simpl; by rewrite Hc.
Qed.

(** X6. Whatever the markup, the text left after stripping is in normal
    form: it is empty, or made of words separated by single plain spaces,
    with no blank at either end. *)
Theorem strip_html_normalized s : normalized (strip_html_to_text s) = true.
Proof.
  unfold strip_html_to_text, Re.sub, Py.strip.
  set (y := Re.sub_with (Re.literal "&nbsp;") " " 0 _).
  pose proof (proj1 (collapse_single_spaced y)) as H.
  apply lstrip_single_spaced in H. apply rstrip_words in H as [-> | H]; [done|].
  unfold normalized. by destruct (Py.rstrip _).
Qed.

(** X7. Blanks before and after the markup change nothing to the text
    left. *)
Theorem strip_html_outer_blanks a s b :
  all_space a = true → all_space b = true →
  strip_html_to_text (a +:+ s +:+ b) = strip_html_to_text s.
Proof.
  intros Ha Hb. induction a as [|c a IH].
  - rewrite append_nil_l. by apply strip_html_append_blank.
  - simpl in Ha. apply andb_true_iff in Ha as [Hc Ha].
    rewrite append_cons, strip_html_cons_space by done. by apply IH.
Qed.

Lemma strip_html_outer_blanks_heading :
  all_space "  " = true ∧ all_space (String newline " ") = true
  ∧ strip_html_to_text ("  " +:+ "<h1>New  Page</h1>" +:+ String newline " ")
    = strip_html_to_text "<h1>New  Page</h1>".
Proof.
  split; [reflexivity|]. split; [reflexivity|].
  apply (strip_html_outer_blanks "  " "<h1>New  Page</h1>" (String newline " "));
    reflexivity.
Defined.

(** ** Pages and their content *)

(** X8. The classification raises for a page that is not a dict, and only
    then: a page fetched with an empty body makes the detector fail with an
    attribute error. *)
Theorem empty_page_raises_on_non_dict page :
  match page with
  | JObj _ => ∃ b, is_effectively_empty_page page = Ok b
  | _ => is_effectively_empty_page page
         = Raise (Exn "AttributeError"
                    ("'" +:+ Dyn.type_name page +:+ "' object has no attribute 'get'"))
  end.
Proof.
  destruct page as [| | | | |fields]; try reflexivity.
  assert (∃ v, page_raw_content (JObj fields) = Ok v) as [v Hv].
  { unfold page_raw_content. simpl.
    destruct (Dyn.truthy (default JNull (Dyn.assoc "markdown" fields))); [by eexists|].
    destruct (Dyn.truthy (default JNull (Dyn.assoc "raw_html" fields))); by eexists. }
  unfold is_effectively_empty_page. rewrite Hv. simpl.
  destruct v; try by eexists.
  destruct (negb (Py.truthy_str (Py.strip s))); by eexists.
Qed.

(** X9. A page none of whose three content fields holds anything is
    effectively empty. *)
Theorem page_without_content_is_empty fields :
  no_content fields "markdown" → no_content fields "raw_html" → no_content fields "html" →
  is_effectively_empty_page (JObj fields) = Ok true.
Proof.
  unfold no_content, is_effectively_empty_page, page_raw_content. simpl.
  intros -> -> H. simpl. unfold Dyn.or_else. rewrite H. reflexivity.
Qed.

Lemma page_without_content_is_empty_bare :
  no_content [("id", JInt 41); ("html", JStr ""); ("markdown", JNull)] "markdown"
  ∧ is_effectively_empty_page (JObj [("id", JInt 41); ("html", JStr ""); ("markdown", JNull)])
    = Ok true.
Proof.
  split; [reflexivity|].
  apply (page_without_content_is_empty [("id", JInt 41); ("html", JStr ""); ("markdown", JNull)]);
    reflexivity.
Defined.

(** X10. The first content field that holds something decides alone: when
    the field markdown holds something, the fields raw_html and html are
    not looked at. *)
Theorem markdown_decides_alone fields md :
  Dyn.assoc "markdown" fields = Some md → Dyn.truthy md = true →
  page_raw_content (JObj fields) = Ok md
  ∧ is_effectively_empty_page (JObj fields)
    = is_effectively_empty_page (JObj [("markdown", md)]).
Proof.
  intros Hmd Ht. unfold is_effectively_empty_page, page_raw_content. simpl.
  rewrite Hmd. simpl. rewrite Ht. done.
Qed.

Lemma markdown_decides_alone_stub :
  let fields := [("markdown", JStr "# Stub");
                 ("html", JStr "<p>Torque values for the test rig, see the table below.</p>")] in
  page_raw_content (JObj fields) = Ok (JStr "# Stub")
  ∧ is_effectively_empty_page (JObj fields)
    = is_effectively_empty_page (JObj [("markdown", JStr "# Stub")]).
Proof.
  apply (markdown_decides_alone
           [("markdown", JStr "# Stub");
            ("html", JStr "<p>Torque values for the test rig, see the table below.</p>")]
           (JStr "# Stub")); reflexivity.
Defined.

(** A short markdown source hides a long rendering: the page counts as
    effectively empty. *)
Example markdown_stub_example :
  is_effectively_empty_page
    (JObj [("markdown", JStr "# Stub");
           ("html", JStr "<p>Torque values for the test rig, see the table below.</p>")])
  = Ok true.
Proof. vm_compute. reflexivity. Qed.

(** ** More on the client *)

Lemma policy_success_last m path body a ws v :
  follows_retry_policy m path body a ws (Ok v) →
  ∃ resp, last ws = Some (Sent m path body (Ok resp))
        ∧ resp_ok resp = true
        ∧ (if Py.truthy_str (Py.strip (text resp)) then json_body resp = Ok v else v = JNull).
Proof.
  intros H. remember (Ok v) as r eqn:Hr. revert Hr.
  induction H as [a resp ws r Ha Hs H IH | a resp ws r Ha Hs H IH | a resp Hok Hor
                 | a resp Hok | a e]; intros Hr.
  - destruct (IH Hr) as (resp' & Hl & Hrest). exists resp'. split; [|done].
    destruct ws; [done|]. exact Hl.
  - destruct (IH Hr) as (resp' & Hl & Hrest). exists resp'. split; [|done].
    destruct ws; [done|]. exact Hl.
  - discriminate.
  - exists resp. split; [done|]. split; [done|].
    destruct (Py.truthy_str (Py.strip (text resp))); [done|]. by injection Hr as <-.
  - discriminate.
Qed.

Lemma policy_transport_error_last m path body a ws r e :
  follows_retry_policy m path body a ws r →
  Sent m path body (Raise e) ∈ ws →
  last ws = Some (Sent m path body (Raise e)) ∧ r = Raise e.
Proof.
  induction 1 as [a resp ws r Ha Hs H IH | a resp ws r Ha Hs H IH | a resp Hok Hor
                 | a resp Hok | a e']; intros Hin.
  - apply elem_of_cons in Hin as [[=]|Hin]. apply elem_of_cons in Hin as [[=]|Hin].
    destruct (IH Hin) as [Hl Hr]. split; [|done]. destruct ws; [done|]. exact Hl.
  - apply elem_of_cons in Hin as [[=]|Hin]. apply elem_of_cons in Hin as [[=]|Hin].
    destruct (IH Hin) as [Hl Hr]. split; [|done]. destruct ws; [done|]. exact Hl.
  - by apply list_elem_of_singleton in Hin.
  - by apply list_elem_of_singleton in Hin.
  - apply list_elem_of_singleton in Hin. by injection Hin as <-.
Qed.

Lemma policy_sleep_bounded m path body a ws r :
  follows_retry_policy m path body a ws r → 1 ≤ a ≤ 5 →
  (∀ resp, Sent m path body (Ok resp) ∈ ws → positive_retry_after resp = None) →
  0 ≤ total_sleep ws ≤ 32 - 2 ^ a.
Proof.
  induction 1 as [a resp ws r Ha Hs H IH | a resp ws r Ha Hs H IH | a resp Hok Hor
                 | a resp Hok | a e']; intros Hrange Hno; simpl.
  - rewrite (Hno resp) by left. simpl.
    assert (Hws : 0 ≤ total_sleep ws ≤ 32 - 2 ^ (a + 1)).
    { apply IH; [lia|]. intros resp' Hin. apply Hno. by do 2 right. }
    assert (a = 1 ∨ a = 2 ∨ a = 3 ∨ a = 4) as [-> | [-> | [-> | ->]]] by lia;
      simpl in *; lia.
  - assert (Hws : 0 ≤ total_sleep ws ≤ 32 - 2 ^ (a + 1)).
    { apply IH; [lia|]. intros resp' Hin. apply Hno. by do 2 right. }
    assert (a = 1 ∨ a = 2 ∨ a = 3 ∨ a = 4) as [-> | [-> | [-> | ->]]] by lia;
      simpl in *; lia.
  - assert (a = 1 ∨ a = 2 ∨ a = 3 ∨ a = 4 ∨ a = 5) as [-> | [-> | [-> | [-> | ->]]]] by lia;
      simpl; lia.
  - assert (a = 1 ∨ a = 2 ∨ a = 3 ∨ a = 4 ∨ a = 5) as [-> | [-> | [-> | [-> | ->]]]] by lia;
      simpl; lia.
  - assert (a = 1 ∨ a = 2 ∨ a = 3 ∨ a = 4 ∨ a = 5) as [-> | [-> | [-> | [-> | ->]]]] by lia;
      simpl; lia.
Qed.

Section ClientResults.

Context {W : Type}.
Variable transport : W → method → string → option json → result response * W.

(** X11. A call returns a value only from a response whose status is not a
    failure, the last one on the wire: the decoded body, or None when the
    body is blank. *)
Theorem request_value_from_ok_response m path body s v :
  (request transport m path body s).1 = Ok v →
  ∃ ws resp,
    wire (request transport m path body s).2 = wire s ++ ws
    ∧ last ws = Some (Sent m path body (Ok resp))
    ∧ resp_ok resp = true
    ∧ (if Py.truthy_str (Py.strip (text resp)) then json_body resp = Ok v else v = JNull).
Proof.
  intros Hv. destruct (request_trace transport m path body s) as (ws & Hw & _ & Hp).
  rewrite Hv in Hp. destruct (policy_success_last _ _ _ _ _ _ Hp) as (resp & Hl & Hrest).
  by exists ws, resp.
Qed.

(** X12. An exception of the transport (a connection error, a timeout) is
    not retried: it ends the call, which raises it as it is. *)
Theorem transport_error_ends_call m path body s :
  ∃ ws,
    wire (request transport m path body s).2 = wire s ++ ws
    ∧ ∀ e, Sent m path body (Raise e) ∈ ws →
           last ws = Some (Sent m path body (Raise e))
           ∧ (request transport m path body s).1 = Raise e.
Proof.
  destruct (request_trace transport m path body s) as (ws & Hw & _ & Hp).
  exists ws. split; [done|]. intros e Hin.
  exact (policy_transport_error_last _ _ _ _ _ _ _ Hp Hin).
Qed.

(** X13. When no response carries a usable Retry-After header, a call
    sleeps at most 30 seconds in all (2, 4, 8 and 16 after four rate
    limits). *)
Theorem request_sleep_bounded m path body s :
  ∃ ws,
    wire (request transport m path body s).2 = wire s ++ ws
    ∧ ((∀ resp, Sent m path body (Ok resp) ∈ ws → positive_retry_after resp = None) →
       0 ≤ total_sleep ws ≤ 30).
Proof.
  destruct (request_trace transport m path body s) as (ws & Hw & _ & Hp).
  exists ws. split; [done|]. intros Hno.
  pose proof (policy_sleep_bounded _ _ _ _ _ _ Hp ltac:(lia) Hno) as H. simpl in H. lia.
Qed.

End ClientResults.

Lemma request_value_from_ok_response_flaky :
  (request replay DELETE "/pages/41" None (start flaky_session)).1 = Ok JNull
  ∧ ∃ ws resp,
    wire (request replay DELETE "/pages/41" None (start flaky_session)).2
    = wire (start flaky_session) ++ ws
    ∧ last ws = Some (Sent DELETE "/pages/41" None (Ok resp))
    ∧ resp_ok resp = true
    ∧ (if Py.truthy_str (Py.strip (text resp)) then json_body resp = Ok JNull
       else JNull = JNull).
Proof.
  assert (H : (request replay DELETE "/pages/41" None (start flaky_session)).1 = Ok JNull)
    by (vm_compute; reflexivity).
  split; [exact H|].
  exact (request_value_from_ok_response replay DELETE "/pages/41" None (start flaky_session)
           JNull H).
Defined.

(** Two server errors, then an empty answer: three exchanges, 1 + 2 seconds
    of sleep, and the value None. *)
Example request_flaky_example :
  total_sleep (wire (request replay DELETE "/pages/41" None (start flaky_session)).2) = 3
  ∧ exchanges (wire (request replay DELETE "/pages/41" None (start flaky_session)).2) = 3%nat.
Proof. split; vm_compute; reflexivity. Qed.
(** ** What the programs may write *)

Section Confined.

Context {W : Type}.
Variable transport : W → method → string → option json → result response * W.

Implicit Type allowed : api_call → Prop.

Lemma confined_ret {A} allowed (a : A) : confined allowed (mret a : M W A).
Proof. intros s. exists []. simpl. by rewrite app_nil_r. Qed.

Lemma confined_raise {A} allowed e : confined allowed (raise e : M W A).
Proof. intros s. exists []. simpl. by rewrite app_nil_r. Qed.

Lemma confined_lift {A} allowed (r : result A) : confined allowed (lift r : M W A).
Proof. intros s. exists []. simpl. by rewrite app_nil_r. Qed.

Lemma confined_bind {A B} allowed (m : M W A) (k : A → M W B) :
  confined allowed m → (∀ a, confined allowed (k a)) → confined allowed (m ≫= k).
Proof.
  intros Hm Hk s. unfold mbind, M_bind.
  destruct (Hm s) as (cs & Hc & Hcs).
  destruct (m s) as [[a|e] s1]; simpl in *.
  - destruct (Hk a s1) as (cs' & Hc' & Hcs').
    exists (cs ++ cs'). rewrite Hc', Hc, app_assoc. split; [done|]. by apply Forall_app.
  - by exists cs.
Qed.

Lemma confined_catch {A} allowed (m : M W A) : confined allowed m → confined allowed (catch m).
Proof.
  intros Hm s. unfold catch. destruct (Hm s) as (cs & H).
  destruct (m s) as [r s1]. by exists cs.
Qed.

Lemma confined_for_each {A S} allowed (body : A → S → M W S) l acc :
  (∀ x acc', confined allowed (body x acc')) → confined allowed (for_each body l acc).
Proof.
  intros Hbody. revert acc. induction l as [|x l IH]; intros acc; simpl.
  - apply confined_ret.
  - apply confined_bind; [apply Hbody | intros acc'; apply IH].
Qed.

Lemma confined_request allowed m path body :
  (∀ r, allowed (ApiCall m path body r)) → confined allowed (request transport m path body).
Proof.
  intros H s. exists [ApiCall m path body (request transport m path body s).1].
  split; [apply request_calls|]. repeat constructor. apply H.
Qed.

Lemma confined_weaken {A} allowed allowed' (m : M W A) :
  (∀ c, allowed c → allowed' c) → confined allowed m → confined allowed' m.
Proof.
  intros Himpl Hm s. destruct (Hm s) as (cs & Hc & Hcs). exists cs. split; [done|].
  eapply Forall_impl; [exact Hcs|exact Himpl].
Qed.

End Confined.

(** One step through a computation whose calls are to be checked; the calls
    themselves are left as goals. *)
Ltac confined_step :=
  first
    [ progress cbn beta iota delta [negb]
    | lazymatch goal with
      | |- confined _ (mret _) => apply confined_ret
      | |- confined _ (raise _) => apply confined_raise
      | |- confined _ (lift _) => apply confined_lift
      | |- confined _ (request _ _ _ _) => apply confined_request; intros ?
      | |- confined _ (api_get _ _) => unfold api_get
      | |- confined _ (api_post _ _ _) => unfold api_post
      | |- confined _ (api_put _ _ _) => unfold api_put
      | |- confined _ (api_delete _ _) => unfold api_delete
      | |- confined _ (catch _) => apply confined_catch
      | |- confined _ (for_each _ _ _) => apply confined_for_each; intros ? ?
      | |- confined _ (mbind _ _) => apply confined_bind; [|intros ?]
      | |- confined _ (match ?x with _ => _ end) => destruct x
      end ].

Ltac confined_leaves :=
  unfold reads_only_call, is_create_book, is_create_chapter, is_shelf_update, is_page_move,
    is_chapter_move, is_page_delete;
  cbn [call_method call_path call_body call_result].

Section Writes.

Context {W : Type}.
Variable transport : W → method → string → option json → result response * W.

Lemma shelve_books_confined apply :
  confined (λ c, reads_only_call c ∨ (apply = true ∧ is_shelf_update c))
    (shelve_books transport apply).
Proof.
  destruct apply; unfold shelve_books, list_unshelved_books, shelve_book;
    repeat confined_step; confined_leaves; try (by left).
  all: right; split; [done|]; split; [done|]; by eexists _, _.
Qed.

Lemma ensure_holding_book_confined :
  confined (λ c, reads_only_call c ∨ is_create_book c ∨ is_shelf_update c)
    (ensure_holding_book transport).
Proof.
  unfold ensure_holding_book.
  repeat confined_step; confined_leaves; try (by left).
  - right. by left.
  - right. right. split; [done|]. by eexists _, _.
Qed.

Lemma move_direct_pages_confined apply :
  confined (λ c, reads_only_call c ∨ (apply = true ∧ (is_create_chapter c ∨ is_page_move c)))
    (move_direct_pages transport apply).
Proof.
  destruct apply;
    unfold move_direct_pages, move_direct_pages_of_book, move_direct_page, ensure_inbox_chapter;
    repeat confined_step; confined_leaves; try (by left).
  all: right; split; [done|].
  all: first [ by left | right; split; [done|]; by eexists _, _ ].
Qed.

Lemma move_empty_chapters_confined h apply :
  confined (λ c, reads_only_call c ∨ (apply = true ∧ is_chapter_move h c))
    (move_empty_chapters transport h apply).
Proof.
  destruct apply;
    unfold move_empty_chapters, move_empty_chapters_of_book, move_empty_chapter;
    repeat confined_step; confined_leaves; try (by left).
  all: right; split; [done|]; split; [done|]; by eexists _, _.
Qed.

(** X16. Every write of the sweep moves a chapter into the holding book:
    the sweep creates nothing and deletes nothing, and in a dry run it
    writes nothing at all. *)
Theorem sweep_only_moves_chapters h apply s :
  ∃ cs,
    calls (move_empty_chapters transport h apply s).2 = calls s ++ cs
    ∧ Forall (λ c, reads_only_call c ∨ (apply = true ∧ is_chapter_move h c)) cs
    ∧ (apply = false → writes cs = []).
Proof.
  destruct (move_empty_chapters_confined h apply s) as (cs & Hc & Hcs).
  exists cs. split; [done|]. split; [done|]. intros ->.
  apply reads_only_no_writes. eapply Forall_impl; [exact Hcs|].
  intros c [Hc' | [[=] _]]. exact Hc'.
Qed.

Lemma delete_junk_pages_confined apply :
  confined (λ c, reads_only_call c ∨ (apply = true ∧ is_page_delete c))
    (delete_junk_pages transport apply).
Proof.
  destruct apply;
    unfold delete_junk_pages, delete_junk_pages_named, delete_junk_page,
      find_pages_by_exact_name;
    repeat confined_step; confined_leaves; try (by left).
  all: right; split; [done|]; split; [done|]; by eexists.
Qed.

(** X15. Whatever its switches, a run of the organizer deletes nothing but
    pages, and those only when it applies changes and the deletes are not
    switched off; it creates nothing but the holding book and inbox
    chapters; its updates are of the books of a shelf, of the chapter of a
    page, and of the book of an empty chapter. Apart from the creation of
    the holding book and the update of its shelf, a dry run only reads. *)
Theorem main_writes_confined args :
  confined (main_allowed args) (main transport args).
Proof.
  unfold main.
  apply confined_bind.
  { destruct (opt_skip_shelving args) eqn:Hs; simpl; [apply confined_ret|].
    eapply confined_weaken; [|apply shelve_books_confined].
    intros c [Hc | [Ha Hc]]; [by left|]. do 2 right. split; [done|]. by left. }
  intros shelved. apply confined_bind.
  { destruct (opt_skip_empty_chapters args) eqn:Hs; simpl; [apply confined_ret|].
    apply confined_bind; [|intros ?; apply confined_ret].
    eapply confined_weaken; [|apply ensure_holding_book_confined].
    intros c [Hc | Hc]; [by left|]. right. by left. }
  intros holding. apply confined_bind.
  { destruct (opt_skip_pages args) eqn:Hs; simpl; [apply confined_ret|].
    apply confined_bind; [|intros ?; apply confined_ret].
    eapply confined_weaken; [|apply move_direct_pages_confined].
    intros c [Hc | [Ha Hc]]; [by left|]. do 2 right. split; [done|]. right. by left. }
  intros direct. apply confined_bind.
  { destruct (opt_skip_empty_chapters args) eqn:Hs; simpl; [apply confined_ret|].
    destruct holding as [h|]; [|apply confined_ret].
    apply confined_bind; [|intros ?; apply confined_ret].
    eapply confined_weaken; [|apply move_empty_chapters_confined].
    intros c [Hc | [Ha Hc]]; [by left|]. do 2 right. split; [done|].
    do 2 right. left. split; [done|]. by exists h. }
  intros empty. apply confined_bind; [|intros ?; apply confined_ret].
  destruct (opt_skip_deletes args) eqn:Hs; simpl; [apply confined_ret|].
  apply confined_bind; [|intros ?; apply confined_ret].
  eapply confined_weaken; [|apply delete_junk_pages_confined].
  intros c [Hc | [Ha Hc]]; [by left|]. do 2 right. split; [done|]. by do 3 right.
Qed.

Lemma move_page_confined page_id target_id apply :
  confined
    (λ c, call_path c = page_path page_id
          ∧ (call_method c = GET
             ∨ (apply = true ∧ call_method c = PUT
                ∧ call_body c = Some (JObj [("chapter_id", JInt target_id)]))))
    (move_page transport page_id target_id apply).
Proof.
  destruct apply; unfold move_page; repeat confined_step; cbn; auto.
Qed.

(** X24. A move touches the page it is asked to move and nothing else: it
    reads it, and updates its chapter when changes are applied; a dry run
    writes nothing. *)
Theorem move_page_touches_its_page page_id target_id apply s :
  ∃ cs,
    calls (move_page transport page_id target_id apply s).2 = calls s ++ cs
    ∧ Forall (λ c, call_path c = page_path page_id
                   ∧ (call_method c = GET
                      ∨ (apply = true ∧ call_method c = PUT
                         ∧ call_body c = Some (JObj [("chapter_id", JInt target_id)])))) cs
    ∧ (apply = false → writes cs = []).
Proof.
  destruct (move_page_confined page_id target_id apply s) as (cs & Hc & Hcs).
  exists cs. split; [done|]. split; [done|]. intros ->.
  apply reads_only_no_writes. eapply Forall_impl; [exact Hcs|].
  intros c [_ [Hc' | [[=] _]]]. exact Hc'.
Qed.

End Writes.

(** ** Loops and their counters *)

Ltac run_monad_in H :=
  unfold mbind, M_bind, lift, mret, M_ret, raise, catch in H; cbn beta iota in H.

Lemma bind_ok_inv {W A B} (m : M W A) (k : A → M W B) s b :
  ((m ≫= k) s).1 = Ok b → ∃ a s1, m s = (Ok a, s1) ∧ (k a s1).1 = Ok b.
Proof.
  unfold mbind, M_bind. destruct (m s) as [[a|e] s1]; [by eexists _, _|done].
Qed.

Lemma bind_ok_run {W A B} (m : M W A) (k : A → M W B) s b s' :
  (m ≫= k) s = (Ok b, s') → ∃ a s1, m s = (Ok a, s1) ∧ k a s1 = (Ok b, s').
Proof.
  unfold mbind, M_bind. destruct (m s) as [[a|e] s1]; [by eexists _, _|done].
Qed.

Lemma lift_ok_inv {W A} (r : result A) (s s1 : state W) a :
  lift r s = (Ok a, s1) → r = Ok a ∧ s1 = s.
Proof. unfold lift. by intros [= -> ->]. Qed.

(** What the accumulator of a loop satisfies at the start, and what every
    round that completes preserves, it satisfies at the end. *)
Lemma for_each_invariant {W A S} (body : A → S → M W S) (inv : S → Prop) :
  (∀ x acc s acc', inv acc → (body x acc s).1 = Ok acc' → inv acc') →
  ∀ l acc s acc', inv acc → (for_each body l acc s).1 = Ok acc' → inv acc'.
Proof.
  intros Hbody. induction l as [|x l IH]; intros acc s acc' Hacc; simpl.
  - by intros [= <-].
  - intros (acc1 & s1 & Hx & Hl)%bind_ok_inv.
    apply (IH acc1 s1); [|done]. apply (Hbody x acc s); [done|]. by rewrite Hx.
Qed.

Section Counters.

Context {W : Type}.
Variable transport : W → method → string → option json → result response * W.

Lemma move_empty_chapter_counters apply h bid book ch rep s rep' :
  sweep_counters_ok apply rep →
  (move_empty_chapter transport apply h bid book ch rep s).1 = Ok rep' →
  sweep_counters_ok apply rep'.
Proof.
  unfold sweep_counters_ok. intros (Hr & Hdry).
  unfold move_empty_chapter.
  intros (ch_id & s1 & _ & H)%bind_ok_inv.
  apply bind_ok_inv in H as (ch_name & s2 & _ & H).
  destruct apply; simpl in H.
  - run_monad_in H.
    destruct (api_put transport (chapter_path ch_id) _ s2) as [[x|e1] s3]; simpl in H.
    { injection H as <-. simpl. split; [lia|done]. }
    destruct (api_put transport (chapter_path ch_id) _ s3) as [[x|e2] s4]; simpl in H.
    { injection H as <-. simpl. split; [lia|done]. }
    destruct (str_field book "name"); simpl in H; [|done].
    injection H as <-. simpl. split; [lia|done].
  - injection H as <-. simpl. destruct (Hdry eq_refl) as [-> ->]. split; [lia|done].
Qed.

(** X17. In the report of the sweep the chapters renamed are among the
    chapters moved, and a dry run renames nothing and records no failure. *)
Theorem sweep_counters h apply s rep :
  (move_empty_chapters transport h apply s).1 = Ok rep →
  0 ≤ sweep_renamed rep ≤ sweep_moved rep
  ∧ (apply = false → sweep_renamed rep = 0 ∧ sweep_failures rep = []).
Proof.
  unfold move_empty_chapters.
  intros (books & s1 & _ & H)%bind_ok_inv.
  apply bind_ok_inv in H as (book_ids & s2 & _ & H).
  revert H. apply (for_each_invariant _ (sweep_counters_ok apply)).
  - intros bid acc s3 acc' Hacc. unfold move_empty_chapters_of_book.
    destruct (bid =? h); [by intros [= <-]|].
    intros (book & s4 & _ & H)%bind_ok_inv.
    apply bind_ok_inv in H as (contents & s5 & _ & H).
    apply bind_ok_inv in H as (empties & s6 & _ & H).
    revert H. apply (for_each_invariant _ (sweep_counters_ok apply)); [|done].
    intros ch rep1 s7 rep2. apply move_empty_chapter_counters.
  - split; [simpl; lia|done].
Qed.

Lemma move_direct_page_counters apply bid book chapters p acc s acc' :
  direct_pages_counters_ok acc.1 →
  (move_direct_page transport apply bid book chapters p acc s).1 = Ok acc' →
  direct_pages_counters_ok acc'.1.
Proof.
  destruct acc as [rep inbox_id]. unfold direct_pages_counters_ok. simpl.
  intros (Ha & Hm & Hc & Hs & Hsm).
  unfold move_direct_page.
  intros (page_id & s1 & _ & H)%bind_ok_inv.
  apply bind_ok_inv in H as (page_name & s2 & _ & H).
  destruct (best_chapter_for_page page_name chapters) as [found reason].
  apply bind_ok_inv in H as ([[[target_ch_id reason'] rep1] inbox1] & s3 & Hfirst & H).
  assert (Hrep1 :
    (target_ch_id ≠ None →
       (0 ≤ dp_assigned rep1 ≤ dp_moved rep1 + 1
        ∧ dp_moved rep1 + 1 ≤ dp_assigned rep1 + dp_inboxed rep1))
    ∧ 0 ≤ dp_assigned rep1 ≤ dp_moved rep1 + (if target_ch_id is Some _ then 1 else 0)
    ∧ dp_moved rep1 ≤ dp_assigned rep1 + dp_inboxed rep1
    ∧ 0 ≤ dp_inbox_created rep1 ≤ dp_inboxed rep1
    ∧ dp_samples rep1 = dp_samples rep ∧ dp_moved rep1 = dp_moved rep).
  { destruct found as [t|].
    - cbn in Hfirst. injection Hfirst as <- <- <- <- <-. simpl. repeat split; try lia.
    - apply bind_ok_run in Hfirst as ([inbox2 created] & s4 & Hinbox & Hfirst).
      cbn in Hfirst. injection Hfirst as <- <- <- <- <-. simpl.
      assert (0 ≤ created ≤ 1) as Hcr.
      { destruct inbox_id as [i|].
        - cbn in Hinbox. injection Hinbox as <- <- <-. lia.
        - apply bind_ok_run in Hinbox as (i & s5 & _ & Hinbox).
          destruct (i =? -1); cbn in Hinbox; injection Hinbox as <- <- <-; lia. }
      destruct inbox2; repeat split; try lia. }
  destruct Hrep1 as (Hsome & Ha1 & Hm1 & Hc1 & Hs1 & Hmv1).
  destruct target_ch_id as [t|].
  - apply bind_ok_inv in H as (x & s4 & _ & H).
    apply bind_ok_inv in H as (samples & s5 & Hsamples & H).
    injection H as <-. simpl.
    assert ((length samples ≤ 20)%nat ∧ Z.of_nat (length samples) ≤ dp_moved rep1 + 1)
      as [Hl1 Hl2].
    { rewrite Hs1, Hmv1 in *.
      destruct (bool_decide (length (dp_samples rep) < 20)%nat) eqn:Hlt.
      - apply bool_decide_eq_true in Hlt.
        apply bind_ok_run in Hsamples as (book_name & s6 & _ & Hsamples).
        cbn in Hsamples. injection Hsamples as <- <-. rewrite length_app. simpl. split; lia.
      - cbn in Hsamples. injection Hsamples as <- <-. split; lia. }
    destruct (Hsome ltac:(done)) as [? ?]. repeat split; lia.
  - injection H as <-. simpl. rewrite Hs1, Hmv1 in *. repeat split; lia.
Qed.

(** X19. In the report of the direct pages, every page assigned to a
    chapter is counted as moved, a page moved was assigned or sent to the
    inbox, an inbox is counted at most once per page sent to it, and the
    sample holds at most 20 of the moves. *)
Theorem direct_pages_counters apply s rep :
  (move_direct_pages transport apply s).1 = Ok rep →
  0 ≤ dp_assigned rep ≤ dp_moved rep
  ∧ dp_moved rep ≤ dp_assigned rep + dp_inboxed rep
  ∧ 0 ≤ dp_inbox_created rep ≤ dp_inboxed rep
  ∧ (length (dp_samples rep) ≤ 20)%nat
  ∧ Z.of_nat (length (dp_samples rep)) ≤ dp_moved rep.
Proof.
  unfold move_direct_pages.
  intros (books & s1 & _ & H)%bind_ok_inv.
  apply bind_ok_inv in H as (book_ids & s2 & _ & H).
  revert H. apply (for_each_invariant _ direct_pages_counters_ok).
  - intros bid acc s3 acc' Hacc. unfold move_direct_pages_of_book.
    intros (book & s4 & _ & H)%bind_ok_inv.
    apply bind_ok_inv in H as (contents & s5 & _ & H).
    apply bind_ok_inv in H as (chapters_raw & s6 & _ & H).
    apply bind_ok_inv in H as (chapters & s7 & _ & H).
    apply bind_ok_inv in H as (direct_pages & s8 & _ & H).
    destruct direct_pages as [|p ps]; [by injection H as <-|].
    apply bind_ok_inv in H as (acc1 & s9 & Hloop & H).
    injection H as <-.
    assert (Hl : (for_each (move_direct_page transport apply bid book chapters) (p :: ps)
                    (acc, None) s8).1 = Ok acc1) by (by rewrite Hloop).
    revert Hl.
    apply (for_each_invariant _ (λ a, direct_pages_counters_ok a.1)); [|done].
    intros x a s10 a'. apply move_direct_page_counters.
  - unfold direct_pages_counters_ok. simpl. lia.
Qed.

End Counters.

Lemma sweep_counters_session :
  (move_empty_chapters replay 2 true (start sweep_session)).1
  = Ok (Sweep 2 1 [SweepFailure 7 "Controls" 32 "Drives"
                     "BookStack API PUT /chapters/32 failed: 422 The slug has already been taken."])
  ∧ 0 ≤ 1 ≤ 2
  ∧ (true = false →
     1 = 0
     ∧ [SweepFailure 7 "Controls" 32 "Drives"
          "BookStack API PUT /chapters/32 failed: 422 The slug has already been taken."] = []).
Proof.
  assert (H : (move_empty_chapters replay 2 true (start sweep_session)).1
              = Ok (Sweep 2 1 [SweepFailure 7 "Controls" 32 "Drives"
                     "BookStack API PUT /chapters/32 failed: 422 The slug has already been taken."]))
    by (vm_compute; reflexivity).
  split; [exact H|]. exact (sweep_counters replay 2 true (start sweep_session) _ H).
Defined.

Lemma sweep_never_aborts_drives :
  Forall (λ ch, is_ok (int_field ch "id") = true) [drives_chapter; panels_chapter]
  ∧ ∃ rep' s',
      for_each (move_empty_chapter replay true 2 7 (JObj controls_book))
        [drives_chapter; panels_chapter] (Sweep 1 0 []) (start drives_session)
      = (Ok rep', s')
      ∧ sweep_moved rep' + Z.of_nat (length (sweep_failures rep'))
        = sweep_moved (Sweep 1 0 []) + Z.of_nat (length (sweep_failures (Sweep 1 0 [])))
          + Z.of_nat (length [drives_chapter; panels_chapter]).
Proof.
  assert (H : Forall (λ ch, is_ok (int_field ch "id") = true) [drives_chapter; panels_chapter])
    by (repeat constructor).
  split; [exact H|].
  exact (sweep_never_aborts replay 2 7 controls_book [drives_chapter; panels_chapter]
           (Sweep 1 0 []) (start drives_session) H).
Defined.

Lemma direct_pages_counters_session :
  (move_direct_pages replay true (start direct_pages_session)).1
  = Ok (DirectPages 3 1 2 1
          [PageSample 7 "Controls" 41 "2 Sizing a drive" 32 "prefix:2";
           PageSample 7 "Controls" 42 "Scratch" 33 "inbox:no-match";
           PageSample 7 "Controls" 43 "Overview" 33 "inbox:no-match"])
  ∧ 0 ≤ 1 ≤ 3 ∧ 3 ≤ 1 + 2 ∧ 0 ≤ 1 ≤ 2 ∧ (3 ≤ 20)%nat ∧ Z.of_nat 3 ≤ 3.
Proof.
  assert (H : (move_direct_pages replay true (start direct_pages_session)).1
  = Ok (DirectPages 3 1 2 1
          [PageSample 7 "Controls" 41 "2 Sizing a drive" 32 "prefix:2";
           PageSample 7 "Controls" 42 "Scratch" 33 "inbox:no-match";
           PageSample 7 "Controls" 43 "Overview" 33 "inbox:no-match"]))
    by (vm_compute; reflexivity).
  split; [exact H|].
  exact (direct_pages_counters replay true (start direct_pages_session) _ H).
Defined.

(** ** The steps of the organizer, one by one *)

Section Steps.

Context {W : Type}.
Variable transport : W → method → string → option json → result response * W.

(** X20. The inbox chapter is looked for in the contents already fetched:
    in a dry run, or when the book has its inbox chapter, the remote store
    is not called at all, and the answer is the chapter found, or -1. *)
Theorem ensure_inbox_chapter_no_call book apply s :
  apply = false ∨ (∃ i, inbox_of book = Ok (Some i)) →
  ensure_inbox_chapter transport book apply s
  = (o ← inbox_of book; Ok (default (-1) o), s).
Proof.
  unfold ensure_inbox_chapter, inbox_of. run_monad. unfold result_bind. intros Hcase.
  destruct (Dyn.get_default book "contents" (JArr [])) as [contents|e]; [|done].
  cbn beta iota in *.
  destruct (Dyn.iter (Dyn.or_else contents (JArr []))) as [items|e]; [|done].
  cbn beta iota in *.
  destruct (find_inbox items) as [[i|]|e]; [done| |done].
  destruct Hcase as [-> | [i Hi]]; [done|discriminate Hi].
Qed.

(** X21. Without the holding shelf, the holding book is not looked for: the
    step raises after its first read. *)
Theorem holding_shelf_missing s shelves s1 items :
  api_get transport "/shelves" s = (Ok shelves, s1) →
  items_of shelves "data" = Ok items →
  find_id_by_name HOLDING_SHELF_NAME items = Ok None →
  ensure_holding_book transport s
  = (Raise (Exn "RuntimeError" "Holding shelf not found: 9. Orphaned"), s1).
Proof.
  intros Hget Hitems Hfind. unfold ensure_holding_book. run_monad.
  rewrite Hget, Hitems, Hfind. reflexivity.
Qed.

(** X22. When the holding book exists and is on the holding shelf, the step
    reads three times and writes nothing. *)
Theorem holding_book_in_place s shelves s1 shelf_items sid books s2 book_items h shelf s3
    current :
  api_get transport "/shelves" s = (Ok shelves, s1) →
  items_of shelves "data" = Ok shelf_items →
  find_id_by_name HOLDING_SHELF_NAME shelf_items = Ok (Some sid) →
  api_get transport "/books" s1 = (Ok books, s2) →
  items_of books "data" = Ok book_items →
  find_id_by_name HOLDING_BOOK_NAME book_items = Ok (Some h) →
  api_get transport ("/shelves/" +:+ Py.str_of_int sid) s2 = (Ok shelf, s3) →
  ids_of shelf "books" = Ok current →
  h ∈ current →
  ensure_holding_book transport s = (Ok h, s3)
  ∧ calls s3
    = calls s ++ [ApiCall GET "/shelves" None (Ok shelves);
                  ApiCall GET "/books" None (Ok books);
                  ApiCall GET ("/shelves/" +:+ Py.str_of_int sid) None (Ok shelf)].
Proof.
  intros Hget1 Hitems1 Hfind1 Hget2 Hitems2 Hfind2 Hget3 Hcur Hin. split.
  - unfold ensure_holding_book. run_monad.
    rewrite Hget1, Hitems1, Hfind1. cbn beta iota.
    rewrite Hget2, Hitems2, Hfind2. cbn beta iota.
    rewrite Hget3, Hcur. cbn beta iota.
    by rewrite bool_decide_eq_true_2.
  - unfold api_get in *.
    pose proof (request_calls transport GET "/shelves" None s) as H1.
    pose proof (request_calls transport GET "/books" None s1) as H2.
    pose proof (request_calls transport GET ("/shelves/" +:+ Py.str_of_int sid) None s2) as H3.
    rewrite Hget1 in H1. rewrite Hget2 in H2. rewrite Hget3 in H3. simpl in *.
    rewrite H3, H2, H1, <- !app_assoc. done.
Qed.

End Steps.

Lemma ensure_inbox_chapter_no_call_existing :
  (true = false ∨ ∃ i, inbox_of book_with_inbox = Ok (Some i))
  ∧ ensure_inbox_chapter replay book_with_inbox true (start [])
    = (o ← inbox_of book_with_inbox; Ok (default (-1) o), start []).
Proof.
  assert (H : true = false ∨ ∃ i, inbox_of book_with_inbox = Ok (Some i))
    by (right; exists 33; reflexivity).
  split; [exact H|].
  exact (ensure_inbox_chapter_no_call replay book_with_inbox true (start []) H).
Defined.

Lemma holding_shelf_missing_session :
  ensure_holding_book replay (start no_holding_shelf_session)
  = (Raise (Exn "RuntimeError" "Holding shelf not found: 9. Orphaned"),
     (api_get replay "/shelves" (start no_holding_shelf_session)).2).
Proof.
  eapply (holding_shelf_missing replay (start no_holding_shelf_session)).
  - vm_compute. reflexivity.
  - reflexivity.
  - reflexivity.
Defined.

Lemma holding_book_in_place_settled :
  ∃ s3,
    ensure_holding_book replay (start settled_library_session) = (Ok 2, s3)
    ∧ calls s3
      = calls (start settled_library_session)
        ++ [ApiCall GET "/shelves" None (Ok orphaned_shelves);
            ApiCall GET "/books" None (Ok (JObj [("data", JArr [holding_book_json])]));
            ApiCall GET ("/shelves/" +:+ Py.str_of_int 1) None
              (Ok (JObj [("id", JInt 1); ("books", JArr [holding_book_json])]))].
Proof.
  eexists.
  eapply (holding_book_in_place replay (start settled_library_session)).
  - vm_compute. reflexivity.
  - reflexivity.
  - reflexivity.
  - vm_compute. reflexivity.
  - reflexivity.
  - reflexivity.
  - vm_compute. reflexivity.
  - reflexivity.
  - apply list_elem_of_here.
Defined.

(** ** Searching pages by name *)

Lemma insert_sorted_elem (x : Z) (l : list Z) y :
  y ∈ insert_sorted id x l ↔ y = x ∨ y ∈ l.
Proof.
  induction l as [|z l IH]; simpl.
  - rewrite list_elem_of_singleton, elem_of_nil. tauto.
  - destruct (x <=? z).
    + rewrite elem_of_cons. tauto.
    + rewrite !elem_of_cons, IH. tauto.
Qed.

Lemma sorted_by_elem (l : list Z) y : y ∈ sorted_by id l ↔ y ∈ l.
Proof.
  unfold sorted_by. induction l as [|x l IH]; simpl; [done|].
  rewrite insert_sorted_elem, elem_of_cons, IH. tauto.
Qed.

Lemma insert_sorted_increasing (x : Z) (l : list Z) :
  StronglySorted Z.lt l → x ∉ l → StronglySorted Z.lt (insert_sorted id x l).
Proof.
  induction 1 as [|z l Hl IH Hz]; intros Hx; simpl.
  - repeat constructor.
  - apply not_elem_of_cons in Hx as [Hxz Hxl].
    change (id x <=? id z) with (x <=? z).
    destruct (Z.leb_spec x z).
    + constructor; [by constructor|].
      constructor; [lia|]. eapply Forall_impl; [exact Hz|]. simpl. lia.
    + constructor; [by apply IH|].
      apply Forall_forall. intros y [->|Hy]%insert_sorted_elem; [lia|].
      by apply (proj1 (Forall_forall _ _) Hz).
Qed.

Lemma sorted_by_increasing (l : list Z) :
  NoDup l → StronglySorted Z.lt (sorted_by id l).
Proof.
  induction 1 as [|x l Hx Hl IH]; [constructor|].
  change (sorted_by id (x :: l)) with (insert_sorted id x (sorted_by id l)).
  apply insert_sorted_increasing; [done|]. by rewrite sorted_by_elem.
Qed.

Lemma exact_name_ids_exact name items ids i :
  exact_name_ids name items = Ok ids → i ∈ ids →
  ∃ item, item ∈ items
        ∧ Dyn.get item "type" = Ok (JStr "page")
        ∧ Dyn.get item "name" = Ok (JStr name)
        ∧ int_field item "id" = Ok i.
Proof.
  revert ids. induction items as [|item items IH]; intros ids; simpl.
  - intros [= <-] Hin. by apply elem_of_nil in Hin.
  - assert (Hrest : ∀ ids', exact_name_ids name items = Ok ids' → i ∈ ids' →
              ∃ item0, item0 ∈ item :: items
                ∧ Dyn.get item0 "type" = Ok (JStr "page")
                ∧ Dyn.get item0 "name" = Ok (JStr name)
                ∧ int_field item0 "id" = Ok i).
    { intros ids' H Hin. destruct (IH ids' H Hin) as (item0 & ? & ?).
      exists item0. split; [by right|done]. }
    destruct (Dyn.get item "type") as [t|] eqn:Ht; [|done]. simpl.
    destruct (Dyn.eq_str t "page") eqn:Hpage; [|by apply Hrest].
    destruct (Dyn.get item "name") as [n|] eqn:Hn; [|done]. simpl.
    destruct (Dyn.eq_str n name) eqn:Hname; [|by apply Hrest].
    destruct (int_field item "id") as [j|] eqn:Hj; [|done]. simpl.
    destruct (exact_name_ids name items) as [ids'|] eqn:Hids; [|done]. simpl.
    intros [= <-] [->|Hin]%elem_of_cons; [|by apply (Hrest ids')].
    exists item. split; [left|].
    destruct t; try discriminate. destruct n; try discriminate.
    simpl in Hpage, Hname. apply String.eqb_eq in Hpage as ->.
    apply String.eqb_eq in Hname as ->. done.
Qed.

Section Search.

Context {W : Type}.
Variable transport : W → method → string → option json → result response * W.

(** X23. The pages found by name come in increasing order of id, each once;
    each is an item of the answer of the search whose type is page and
    whose name is exactly the name asked for. *)
Theorem find_pages_sorted_and_exact name s ids :
  (find_pages_by_exact_name transport name s).1 = Ok ids →
  StronglySorted Z.lt ids
  ∧ ∃ res data items,
      (api_get transport ("/search?query=" +:+ quote name) s).1 = Ok res
      ∧ Dyn.get_default res "data" (JArr []) = Ok data
      ∧ Dyn.iter (Dyn.or_else data (JArr [])) = Ok items
      ∧ ∀ i, i ∈ ids →
          ∃ item, item ∈ items
                ∧ Dyn.get item "type" = Ok (JStr "page")
                ∧ Dyn.get item "name" = Ok (JStr name)
                ∧ int_field item "id" = Ok i.
Proof.
  unfold find_pages_by_exact_name.
  intros (res & s1 & Hres & H)%bind_ok_inv.
  apply bind_ok_inv in H as (data & s2 & [Hdata ->]%lift_ok_inv & H).
  apply bind_ok_inv in H as (items & s3 & [Hitems ->]%lift_ok_inv & H).
  apply bind_ok_inv in H as (raw & s4 & [Hraw ->]%lift_ok_inv & H).
  injection H as <-. split.
  - apply sorted_by_increasing. apply NoDup_remove_dups.
  - exists res, data, items. rewrite Hres. do 3 (split; [done|]).
    intros i Hi. rewrite sorted_by_elem, elem_of_remove_dups in Hi.
    exact (exact_name_ids_exact name items raw i Hraw Hi).
Qed.

End Search.

Lemma find_pages_sorted_and_exact_session :
  (find_pages_by_exact_name replay "Test" (start search_session)).1 = Ok [12; 57]
  ∧ StronglySorted Z.lt [12; 57]
  ∧ ∃ res data items,
      (api_get replay ("/search?query=" +:+ quote "Test") (start search_session)).1 = Ok res
      ∧ Dyn.get_default res "data" (JArr []) = Ok data
      ∧ Dyn.iter (Dyn.or_else data (JArr [])) = Ok items
      ∧ ∀ i, i ∈ [12; 57] →
          ∃ item, item ∈ items
                ∧ Dyn.get item "type" = Ok (JStr "page")
                ∧ Dyn.get item "name" = Ok (JStr "Test")
                ∧ int_field item "id" = Ok i.
Proof.
  assert (H : (find_pages_by_exact_name replay "Test" (start search_session)).1 = Ok [12; 57])
    by (vm_compute; reflexivity).
  split; [exact H|].
  exact (find_pages_sorted_and_exact replay "Test" (start search_session) [12; 57] H).
Defined.
(** ** The inbox organizer *)

Lemma setdefault_keeps k v (d : gmap string Z) k' i :
  d !! k' = Some i → setdefault k v d !! k' = Some i.
Proof.
  intros H. unfold setdefault. destruct (d !! k) eqn:Hk; [done|].
  rewrite lookup_insert_ne; [done|]. intros ->. congruence.
Qed.

Lemma chapters_by_name_keeps items out m name i :
  chapters_by_name items out = Ok m → out !! name = Some i → m !! name = Some i.
Proof.
  revert out. induction items as [|c items IH]; intros out; simpl.
  - by intros [= <-].
  - destruct (chapter_entry c) as [[[n j]|]|]; simpl; [| |done].
    + intros H Hout. apply (IH _ H). by apply setdefault_keeps.
    + apply IH.
Qed.

(** X25. Of two chapters of a book that have the same name, the first one
    listed is the one kept; and a chapter kept is never replaced. *)
Theorem first_chapter_of_a_name_wins c rest out name i m :
  chapter_entry c = Ok (Some (name, i)) →
  out !! name = None →
  chapters_by_name (c :: rest) out = Ok m →
  m !! name = Some i
  ∧ ∀ name' i', out !! name' = Some i' → m !! name' = Some i'.
Proof.
  intros Hc Hout. simpl. rewrite Hc. simpl. intros H. split.
  - apply (chapters_by_name_keeps _ _ _ _ _ H).
    unfold setdefault. rewrite Hout. apply lookup_insert_eq.
  - intros name' i' Hn. apply (chapters_by_name_keeps _ _ _ _ _ H).
    by apply setdefault_keeps.
Qed.

Lemma first_chapter_of_a_name_wins_twins :
  chapters_by_name twin_chapters ∅
  = Ok {[ "2.1 Control System Architecture" := 886 ]}
  ∧ ({[ "2.1 Control System Architecture" := 886 ]} : gmap string Z)
      !! "2.1 Control System Architecture" = Some 886
  ∧ ∀ name' i', (∅ : gmap string Z) !! name' = Some i' →
      ({[ "2.1 Control System Architecture" := 886 ]} : gmap string Z) !! name' = Some i'.
Proof.
  assert (H : chapters_by_name twin_chapters ∅
              = Ok {[ "2.1 Control System Architecture" := 886 ]}) by reflexivity.
  split; [exact H|].
  exact (first_chapter_of_a_name_wins first_twin _ ∅ "2.1 Control System Architecture" 886 _
           eq_refl eq_refl H).
Defined.

Lemma insert_sorted_length {A} (key : A → Z) x l :
  length (insert_sorted key x l) = S (length l).
Proof. induction l as [|y l IH]; simpl; [done|]. destruct (key x <=? key y); simpl; lia. Qed.

Lemma sorted_by_length {A} (key : A → Z) (l : list A) : length (sorted_by key l) = length l.
Proof.
  unfold sorted_by. induction l as [|x l IH]; simpl; [done|].
  by rewrite insert_sorted_length, IH.
Qed.

Section InboxProperties.

Context {W : Type}.
Variable transport : W → method → string → option json → result response * W.

(** X26. A chapter resolved once is not looked for again: after a call that
    returned, the same request is answered from the cache, with the same
    id, the same cache and no call to the remote store, as long as it does
    not ask to create what a dry run left missing. *)
Theorem ensure_chapter_memoized cache spec apply s i cache' s' apply' s2 :
  ensure_chapter transport cache spec apply s = (Ok (i, cache'), s') →
  i ≠ -1 ∨ apply' = false →
  ensure_chapter transport cache' spec apply' s2 = (Ok (i, cache'), s2).
Proof.
  unfold ensure_chapter at 1.
  intros ([chapters cache1] & s1 & Hfetch & H)%bind_ok_run Hcase.
  assert (Hc1 : cache1 !! spec_book_id spec = Some chapters).
  { destruct (cache !! spec_book_id spec) as [chs|] eqn:Hc.
    - cbn in Hfetch. by injection Hfetch as <- <- <-.
    - apply bind_ok_run in Hfetch as (chs & s0 & _ & Hfetch).
      cbn in Hfetch. injection Hfetch as <- <- <-. apply lookup_insert_eq. }
  destruct (chapters !! spec_name spec) as [existing|] eqn:Hname.
  - cbn in H. injection H as <- <- <-.
    unfold ensure_chapter. run_monad. rewrite Hc1. cbn. by rewrite Hname.
  - destruct apply; cbn [negb] in H; cbn iota in H.
    + apply bind_ok_run in H as (created & s3 & _ & H).
      apply bind_ok_run in H as (ch_id & s4 & _ & H).
      cbn in H. injection H as <- <- <-.
      unfold ensure_chapter. run_monad. rewrite lookup_insert_eq. cbn beta iota.
      rewrite lookup_insert_eq. cbn beta iota. done.
    + cbn in H. injection H as <- <- <-.
      destruct Hcase as [?| ->]; [done|].
      unfold ensure_chapter. run_monad. rewrite Hc1. cbn. by rewrite Hname.
Qed.

Lemma ensure_chapter_confined cache spec apply :
  confined (λ c, reads_only_call c ∨ (apply = true ∧ is_create_chapter c))
    (ensure_chapter transport cache spec apply).
Proof.
  destruct apply; unfold ensure_chapter, get_book_chapters;
    repeat confined_step; confined_leaves; try (by left).
  by right.
Qed.

(** X27. The inbox organizer deletes nothing: it reads, and when changes
    are applied it creates chapters and updates the chapter of pages; a dry
    run only reads. *)
Theorem organize_inbox_confined targets apply :
  confined (λ c, reads_only_call c ∨ (apply = true ∧ (is_create_chapter c ∨ is_page_move c)))
    (organize_inbox transport targets apply).
Proof.
  unfold organize_inbox.
  apply confined_bind.
  { apply confined_for_each. intros [pid t] [cache resolved]. unfold resolve_target. simpl.
    destruct t as [t|spec]; [apply confined_ret|].
    apply confined_bind; [|intros [? ?]; apply confined_ret].
    eapply confined_weaken; [|apply ensure_chapter_confined].
    intros c [?|[? ?]]; [by left|right]. split; [done|]. by left. }
  intros [cache resolved]. apply confined_bind; [|intros [[? ?] ?]; apply confined_ret].
  apply confined_for_each. intros pid [[moved skipped] moves]. unfold place_page.
  destruct (resolved !! pid) as [ch_id|]; [|apply confined_raise].
  destruct (ch_id =? -1); [apply confined_ret|].
  apply confined_bind; [|intros [[] ?]; apply confined_ret].
  eapply confined_weaken; [|apply move_page_confined].
  intros c [Hpath [Hget | (Ha & Hput & Hbody)]]; [by left|right].
  split; [done|]. right. split; [done|]. by eexists _, _.
Qed.

Lemma resolve_targets_dom apply targets cache resolved s cache' resolved' :
  (for_each (resolve_target transport apply) targets (cache, resolved) s).1
  = Ok (cache', resolved') →
  dom resolved' = dom resolved ∪ list_to_set targets.*1.
Proof.
  revert cache resolved s. induction targets as [|[pid t] targets IH];
    intros cache resolved s; simpl.
  - intros [= <- <-]. by rewrite (right_id_L ∅ (∪)).
  - intros ([cache1 resolved1] & s1 & Hstep & H)%bind_ok_inv.
    rewrite (IH _ _ _ H).
    assert (dom resolved1 = dom resolved ∪ {[ pid ]}) as ->;
      [|by rewrite <- (assoc_L (∪))].
    unfold resolve_target in Hstep. simpl in Hstep. destruct t as [t|spec].
    + cbn in Hstep. injection Hstep as <- <- <-.
      by rewrite dom_insert_L, (comm_L (∪)).
    + apply bind_ok_run in Hstep as ([ch_id cache2] & s2 & _ & Hstep).
      cbn in Hstep. injection Hstep as <- <- <-.
      by rewrite dom_insert_L, (comm_L (∪)).
Qed.

Lemma place_pages_count apply resolved l moved skipped moves s moved' skipped' moves' :
  (for_each (place_page transport apply resolved) l (moved, skipped, moves) s).1
  = Ok (moved', skipped', moves') →
  moved ≤ moved' ∧ skipped ≤ skipped'
  ∧ moved' + skipped' = moved + skipped + Z.of_nat (length l)
  ∧ length moves' = (length moves + length l)%nat.
Proof.
  revert moved skipped moves s. induction l as [|pid l IH];
    intros moved skipped moves s; simpl.
  - intros [= <- <- <-]. lia.
  - intros ([[moved1 skipped1] moves1] & s1 & Hstep & H)%bind_ok_inv.
    destruct (IH _ _ _ _ H) as (Hm & Hs & Hsum & Hlen).
    assert (moved ≤ moved1 ∧ skipped ≤ skipped1
            ∧ moved1 + skipped1 = moved + skipped + 1
            ∧ length moves1 = S (length moves)) as (? & ? & ? & ?); [|lia].
    unfold place_page in Hstep.
    destruct (resolved !! pid) as [ch_id|]; [|done].
    destruct (ch_id =? -1).
    + cbn in Hstep. injection Hstep as <- <- <- <-. rewrite length_app. simpl. lia.
    + apply bind_ok_run in Hstep as ([did_move info] & s2 & _ & Hstep).
      destruct did_move; cbn in Hstep; injection Hstep as <- <- <- <-;
        rewrite length_app; simpl; lia.
Qed.

(** X28. Every page of the table is accounted for once: when the run
    completes, the pages moved and the pages skipped add up to the number
    of pages of the table, and the report lists one move for each. *)
Theorem organize_inbox_accounts_for_every_page targets apply s rep :
  (organize_inbox transport targets apply s).1 = Ok rep →
  0 ≤ inbox_moved rep ∧ 0 ≤ inbox_skipped rep
  ∧ inbox_moved rep + inbox_skipped rep
    = Z.of_nat (size (list_to_set targets.*1 : gset Z))
  ∧ length (inbox_moves rep) = size (list_to_set targets.*1 : gset Z).
Proof.
  unfold organize_inbox.
  intros ([cache resolved] & s1 & Hres & H)%bind_ok_inv.
  apply bind_ok_inv in H as ([[moved skipped] moves] & s2 & Hplace & H).
  cbn in H. injection H as <-. simpl.
  assert (Hd : dom resolved = list_to_set targets.*1).
  { rewrite (resolve_targets_dom apply targets ∅ ∅ s cache resolved) by (by rewrite Hres).
    by rewrite dom_empty_L, (left_id_L ∅ (∪)). }
  assert (Hp := place_pages_count apply resolved _ 0 0 [] s1 moved skipped moves
                  ltac:(by rewrite Hplace)).
  rewrite sorted_by_length, length_fmap, length_map_to_list in Hp.
  rewrite <- Hd, size_dom. simpl in Hp. lia.
Qed.

End InboxProperties.

Lemma ensure_chapter_memoized_templates :
  ∃ cache' s',
    ensure_chapter replay ∅ templates_spec true (start templates_session)
    = (Ok (990, cache'), s')
    ∧ (990 ≠ -1 ∨ true = false)
    ∧ ensure_chapter replay cache' templates_spec true s' = (Ok (990, cache'), s').
Proof.
  eexists _, _.
  assert (H : ensure_chapter replay ∅ templates_spec true (start templates_session)
              = (Ok (990, <[413 := <[ "Templates" := 990 ]> ∅]> (<[413 := ∅]> ∅)),
                 (ensure_chapter replay ∅ templates_spec true (start templates_session)).2))
    by (vm_compute; reflexivity).
  split; [exact H|].
  assert (Hc : 990 ≠ -1 ∨ true = false) by (left; lia).
  split; [exact Hc|].
  exact (ensure_chapter_memoized replay _ _ _ _ _ _ _ true _ H Hc).
Defined.

Lemma organize_inbox_accounts_for_every_page_small :
  (organize_inbox replay small_table true (start small_table_session)).1
  = Ok (InboxReport true 2 1
          [MoveOf (MoveRecord 816 (JStr "Page") (Some 7) 990);
           MoveOf (MoveRecord 817 (JStr "Page") (Some 990) 990);
           MoveOf (MoveRecord 1049 (JStr "Page") (Some 7) 936)])
  ∧ 0 ≤ 2 ∧ 0 ≤ 1
  ∧ 2 + 1 = Z.of_nat (size (list_to_set small_table.*1 : gset Z))
  ∧ 3%nat = size (list_to_set small_table.*1 : gset Z).
Proof.
  assert (H : (organize_inbox replay small_table true (start small_table_session)).1
  = Ok (InboxReport true 2 1
          [MoveOf (MoveRecord 816 (JStr "Page") (Some 7) 990);
           MoveOf (MoveRecord 817 (JStr "Page") (Some 990) 990);
           MoveOf (MoveRecord 1049 (JStr "Page") (Some 7) 936)]))
    by (vm_compute; reflexivity).
  split; [exact H|].
  exact (organize_inbox_accounts_for_every_page replay small_table true
           (start small_table_session) _ H).
Defined.

(** A dry run of the same table: the chapter is missing, its two pages are
    skipped without being fetched, and nothing is written. *)
Example organize_inbox_dry_run_example :
  (organize_inbox replay small_table false
     (start [ (GET, "/books/413", json_reply 200 (JObj [("id", JInt 413); ("contents", JArr [])]));
              (GET, "/pages/1049", json_reply 200 (page_json 1049 7)) ])).1
  = Ok (InboxReport false 1 2
          [PendingChapter 816; PendingChapter 817;
           MoveOf (MoveRecord 1049 (JStr "Page") (Some 7) 936)]).
Proof. vm_compute. reflexivity. Qed.

(** ** The settings *)










(** The comment, the blank line and the line without an equal sign define
    nothing; the quotes around a value are removed; the last value given
    for a key is the one kept. *)
Example load_env_file_sample :
  load_env_file sample_env_file !! "BOOKSTACK_URL" = Some "https://kb.example.org/"
  ∧ load_env_file sample_env_file !! "BOOKSTACK_TOKEN_ID" = Some "xyz"
  ∧ load_env_file sample_env_file !! "BOOKSTACK_TOKEN_SECRET" = Some "s=cr3t"
  ∧ load_env_file sample_env_file !! "export" = None
  ∧ size (load_env_file sample_env_file) = 3%nat.
Proof. repeat split; vm_compute; reflexivity. Qed.





(** Without a file, without an address, without credentials. *)
Example build_api_config_errors :
  build_api_config "setup/.env.setup" None
  = Raise (Exn "RuntimeError" "Missing env file: setup/.env.setup")
  ∧ build_api_config "setup/.env.setup" (Some "BOOKSTACK_URL=///")
    = Raise (Exn "RuntimeError" "BOOKSTACK_URL/BOOKSTACK_API_URL not set")
  ∧ build_api_config "setup/.env.setup" (Some "BOOKSTACK_URL=http://kb")
    = Raise (Exn "RuntimeError" "BOOKSTACK_TOKEN_ID/BOOKSTACK_TOKEN_SECRET not set").
Proof. repeat split; vm_compute; reflexivity. Qed.
